(** * intake.catalog.remote: the remote catalog client

    A shallow embedding of [src/intake/catalog/remote.py]: the lazily
    paginated two-tier entry cache ([Entries]), the catalog that owns it
    ([RemoteCatalog]) and the resolution of one entry ([RemoteCatalogEntry.get],
    [open_remote]).

    Python objects that are mutated in place live in an explicit state that
    every operation threads; an exception keeps the mutations made before it
    was raised.  The server is an oracle that answers a request knowing the
    requests made so far, and every request is appended to a log, so that
    round trips can be counted and the headers they carried inspected.

    A constructor is a call of its own: [RemoteCatalog(...)] builds the new
    object and has the base class load it, which sends a request and can
    raise; the constructors of the plugin registry and of [container_map]
    belong to other modules and are taken as they come. *)

From Stdlib Require Import String Ascii List Bool Arith Lia DecimalString.
Import ListNotations.
Local Open Scope string_scope.
Local Open Scope list_scope.
Local Open Scope nat_scope.

Set Implicit Arguments.

(** ** Python strings *)

Module Str.

(** [needle in hay] *)
Fixpoint contains (needle hay : string) : bool :=
  String.prefix needle hay
  || match hay with
     | EmptyString => false
     | String _ rest => contains needle rest
     end.

Definition startswith (s p : string) : bool := String.prefix p s.

Fixpoint endswith_char (s : string) (c : ascii) : bool :=
  match s with
  | EmptyString => false
  | String a EmptyString => Ascii.eqb a c
  | String _ rest => endswith_char rest c
  end.

Fixpoint drop (n : nat) (s : string) : string :=
  match n, s with
  | O, _ => s
  | S n', String _ rest => drop n' rest
  | S _, EmptyString => EmptyString
  end.

(** [s.replace(old, new, 1)] for a non-empty [old] *)
Fixpoint replace_first (old new s : string) : string :=
  if String.prefix old s then new ++ drop (String.length old) s
  else match s with
       | EmptyString => EmptyString
       | String a rest => String a (replace_first old new rest)
       end.

(** [s.replace(a, b)] for one-character [a] and [b] *)
Fixpoint replace_char (a b : ascii) (s : string) : string :=
  match s with
  | EmptyString => EmptyString
  | String c rest =>
      String (if Ascii.eqb c a then b else c) (replace_char a b rest)
  end.

(** ['%d' % n] *)
Definition of_nat (n : nat) : string :=
  NilEmpty.string_of_uint (Nat.to_uint n).

(** [repr(s)], which is what [{!r}] formats.  A character of a model string
    is a code point below 256.  The string is put between single quotes,
    or between double quotes when it holds a single quote and no double
    quote; the quote in use and the backslash are escaped, tab, newline and
    carriage return are written with their letter, and the other characters
    that are not printable (below 32, from 127 to 160, and 173) in
    hexadecimal. *)
Definition squote : ascii := ascii_of_nat 39.
Definition dquote : ascii := ascii_of_nat 34.
Definition backslash : ascii := ascii_of_nat 92.

Definition hex_digit (n : nat) : ascii :=
  if n <? 10 then ascii_of_nat (48 + n) else ascii_of_nat (87 + n).

Definition has_char (c : ascii) (s : string) : bool :=
  existsb (Ascii.eqb c) (list_ascii_of_string s).

Definition repr_char (quote c : ascii) : string :=
  let n := nat_of_ascii c in
  if Ascii.eqb c quote || Ascii.eqb c backslash
  then String backslash (String c EmptyString)
  else if n =? 9 then String backslash "t"
  else if n =? 10 then String backslash "n"
  else if n =? 13 then String backslash "r"
  else if (n <? 32) || ((127 <=? n) && (n <=? 160)) || (n =? 173)
  then String backslash
         (String "x" (String (hex_digit (n / 16))
                        (String (hex_digit (n mod 16)) EmptyString)))
  else String c EmptyString.

(** The characters [repr] writes as they are whichever quote it uses: the
    printable ASCII ones other than the quotes and the backslash. *)
Definition is_plain (c : ascii) : bool :=
  let n := nat_of_ascii c in
  (32 <=? n) && (n <? 127)
  && negb (n =? 34) && negb (n =? 39) && negb (n =? 92).

Definition repr (s : string) : string :=
  let quote :=
    if has_char squote s && negb (has_char dquote s) then dquote
    else squote in
  String quote
    (String.concat "" (map (repr_char quote) (list_ascii_of_string s))
     ++ String quote EmptyString).

End Str.

(** ** Python dicts

    A [dict] keeps its keys in insertion order (so does an [OrderedDict]);
    assigning to a key that is present replaces the value where it stands. *)

Section Dict.

Variable V : Type.

Definition dict := list (string * V).

Fixpoint dict_get (k : string) (d : dict) : option V :=
  match d with
  | [] => None
  | (k', v) :: rest => if String.eqb k k' then Some v else dict_get k rest
  end.

Definition dict_mem (k : string) (d : dict) : bool :=
  match dict_get k d with Some _ => true | None => false end.

(** [d[k] = v] *)
Fixpoint dict_set (k : string) (v : V) (d : dict) : dict :=
  match d with
  | [] => [(k, v)]
  | (k', v') :: rest =>
      if String.eqb k k' then (k', v) :: rest
      else (k', v') :: dict_set k v rest
  end.

(** [d.update(other)] *)
Definition dict_update (d other : dict) : dict :=
  fold_left (fun acc kv => dict_set (fst kv) (snd kv) acc) other d.

(** a dict display or comprehension: the items are assigned in turn *)
Definition dict_of_items (items : list (string * V)) : dict :=
  dict_update [] items.

Definition dict_keys (d : dict) : list string := map fst d.

(** [d.pop(k, None)]: the dict without [k] *)
Fixpoint dict_remove (k : string) (d : dict) : dict :=
  match d with
  | [] => []
  | (k', v) :: rest =>
      if String.eqb k k' then rest else (k', v) :: dict_remove k rest
  end.

End Dict.

Arguments dict_get {V} k d.
Arguments dict_mem {V} k d.
Arguments dict_set {V} k v d.
Arguments dict_update {V} d other.
Arguments dict_of_items {V} items.
Arguments dict_keys {V} d.
Arguments dict_remove {V} k d.

(** ** Data model *)

(** Scalar values of parameters, metadata and keyword arguments. *)
Inductive pyval : Type :=
| PNone
| PBool (b : bool)
| PInt (n : nat)
| PStr (s : string).

(** An auth provider is consumed through [get_headers()] only. *)
Record Auth : Type := {
  auth_cls : string;
  get_headers : dict string
}.

(** The keyword arguments handed to [requests]: ['ssl'], ['headers'] and
    ['params'] are the keys this file reads; [kwargs] holds the others. *)
Record HttpArgs : Type := {
  ssl : option bool;
  headers : option (dict string);
  params : option (dict pyval);
  kwargs : dict pyval
}.

Definition empty_http_args : HttpArgs :=
  {| ssl := None; headers := None; params := None; kwargs := [] |}.

(** [d.update(other)] on keyword-argument dicts: a key of [other] wins. *)
Definition http_args_update (d other : HttpArgs) : HttpArgs :=
  {| ssl := match ssl other with Some b => Some b | None => ssl d end;
     headers := match headers other with
                | Some h => Some h
                | None => headers d
                end;
     params := match params other with Some p => Some p | None => params d end;
     kwargs := dict_update (kwargs d) (kwargs other) |}.

Record UserParameter : Type := {
  par_name : string;
  par_default : pyval;
  par_type : string
}.

(** One decoded entry record of a page or of a by-name answer; the optional
    keys are those [RemoteCatalogEntry.__init__] has defaults for. *)
Record Source : Type := {
  src_name : string;
  src_container : option string;
  src_description : option string;
  src_metadata : option (dict pyval);
  src_user_parameters : option (list UserParameter);
  src_direct_access : option bool;
  src_kwargs : dict pyval
}.

(** [RemoteCatalogEntry].  Its [http_args] is a shallow copy of the
    catalog's: the top-level keys never change after the catalog is built and
    the nested ['headers'] and ['params'] dicts are the catalog's own
    objects, so the entry reads them from the catalog's state when it
    resolves itself (see [RemoteCatalogEntry_get]). *)
Record RemoteCatalogEntry : Type := {
  e_url : string;
  e_auth : Auth;
  e_container : option string;
  e_name : string;
  e_description : string;
  e_metadata : dict pyval;
  e_page_size : option nat;
  e_catalog_pmode : string;
  e_user_parameters : list UserParameter;
  e_direct_access : bool;
  e_getenv : bool;
  e_getshell : bool;
  e_pmode : string;
  e_kwargs : dict pyval
}.

Definition RemoteCatalogEntry__init__ (url : string) (auth : Auth)
    (page_size : option nat) (persist_mode : string) (getenv getshell : bool)
    (source : Source) : RemoteCatalogEntry :=
  {| e_url := url;
     e_auth := auth;
     e_container := src_container source;
     e_name := src_name source;
     e_description :=
       match src_description source with Some d => d | None => "" end;
     e_metadata := match src_metadata source with Some m => m | None => [] end;
     e_page_size := page_size;
     e_catalog_pmode := persist_mode;
     e_user_parameters :=
       match src_user_parameters source with Some l => l | None => [] end;
     e_direct_access :=
       match src_direct_access source with Some b => b | None => false end;
     e_getenv := getenv;
     e_getshell := getshell;
     e_pmode := "never";
     e_kwargs := src_kwargs source |}.

(** [Entries]: the two tiers, the offset of the next page and the flag. *)
Record Entries : Type := {
  _page_cache : dict RemoteCatalogEntry;
  _direct_lookup_cache : dict RemoteCatalogEntry;
  _page_offset : nat;
  complete : bool
}.

Inductive Metadata : Type :=
| MetaOfName (n : option string)
| MetaOfInfo (m : dict pyval).

(** [RemoteCatalog].  [name], [metadata], [ttl], [getenv], [getshell] and
    [pmode] are the attributes the [Catalog] base class keeps from the
    constructor's arguments; [_entries] is the container it obtains from
    [_make_entries_container]. *)
Record RemoteCatalog : Type := {
  url : string;
  info_url : string;
  source_url : string;
  http_args : HttpArgs;
  _page_size : option nat;
  _source_id : option string;
  _parameters : option (dict pyval);
  _len : option nat;
  auth : Auth;
  name : option string;
  metadata : Metadata;
  ttl : nat;
  getenv : bool;
  getshell : bool;
  pmode : string;
  _entries : Entries
}.

(** ** The wire *)

Inductive Plugin : Type :=
| PluginStr (p : string)
| PluginList (ps : list string).

Inductive Body : Type :=
| SearchBody (args : list pyval) (kw : dict pyval) (source_id : option string)
| OpenBody (entry : string) (parameters : dict pyval)
           (available_plugins : list string).

Record Request : Type := {
  method : string;
  target : string;
  req_args : HttpArgs;
  data : option Body
}.

(** A decoded response body ([msgpack.unpackb]). *)
Inductive Payload : Type :=
| InfoPayload (md : dict pyval) (length : option nat) (sources : list Source)
| SourcePayload (source : Source)
| SearchPayload (source_id : string)
| OpenPayload (plugin : option Plugin) (args : option (dict pyval))
              (container : option string) (fields : dict pyval)
| Undecodable.

Record Response : Type := {
  status_code : nat;
  reason : string;
  resp_url : string;
  content : Payload
}.

(** The server answers a request knowing the requests made before it. *)
Definition Server : Type := list Request -> Request -> Response.

(** [requests.HTTPError]: its message ([err.args[0]]) and its response. *)
Record HTTPError : Type := {
  err_msg : string;
  err_response : Response
}.

Inductive Exn : Type :=
| KeyError (key : string)
| TypeError
| DecodeError
| RemoteCatalogError (msg : string) (cause : HTTPError)
| AuthenticationFailure (msg : string)
| PyException (msg : string).

(** How a call ends: with a value, with an exception, or without a result
    in the model (a loop cut short by its fuel, a value the model cannot
    hold). *)
Inductive Outcome (A : Type) : Type :=
| Ok (a : A)
| Raise (e : Exn)
| OutOfFuel.

Arguments Ok {A} a.
Arguments Raise {A} e.
Arguments OutOfFuel {A}.

(** What [requests.Response.raise_for_status] raises: nothing below 400 and
    from 600 on, otherwise an [HTTPError] whose message names the status,
    the reason and the URL. *)
Definition is_http_error (r : Response) : bool :=
  (400 <=? status_code r) && (status_code r <? 600).

Definition http_error_msg (r : Response) : string :=
  Str.of_nat (status_code r)
  ++ (if status_code r <? 500 then " Client Error: " else " Server Error: ")
  ++ reason r ++ " for url: " ++ resp_url r.

Definition raise_for_status (r : Response) : option HTTPError :=
  if is_http_error r
  then Some {| err_msg := http_error_msg r; err_response := r |}
  else None.

(** [requests.Response.ok] *)
Definition ok (r : Response) : bool :=
  match raise_for_status r with Some _ => false | None => true end.

(** The spec's wording: a 2xx response. *)
Definition is_2xx (r : Response) : bool :=
  (200 <=? status_code r) && (status_code r <? 300).

(** The keyword arguments [open_remote] hands to the constructor of a
    proxy ([**response]): the keys of the answer other than ['container']
    ([kw_fields] holds those that are neither ['plugin'] nor ['args'] and
    that the update does not overwrite), then ['name'] and ['parameters']
    and, for an entry whose container is a catalog, ['auth'], ['getenv'],
    ['getshell'], ['page_size'] and ['persist_mode']. *)
Record ProxyKwargs : Type := {
  kw_plugin : option Plugin;
  kw_args : option (dict pyval);
  kw_fields : dict pyval;
  kw_name : string;
  kw_parameters : dict pyval;
  kw_catalog : option (Auth * bool * bool * option nat * string)
}.

(** A resolved entry: a source a plugin built locally from [args], a
    remote-streamed source that keeps what it was built from, or a nested
    catalog.  Each has a [description] attribute. *)
Inductive ResolvedSource : Type :=
| DirectResource (plugin : string) (args : dict pyval) (description : string)
| ProxyResource (container : string) (url : string) (http_args : HttpArgs)
    (kw : ProxyKwargs) (description : string)
| CatalogResource (c : RemoteCatalog) (description : string).

(** [source.description = description] *)
Definition set_description (d : string) (s : ResolvedSource)
    : ResolvedSource :=
  match s with
  | DirectResource p a _ => DirectResource p a d
  | ProxyResource k u h kw _ => ProxyResource k u h kw d
  | CatalogResource c _ => CatalogResource c d
  end.

(** ** State and exceptions

    The state is the catalog object (with its entries container and the
    dicts it shares) and the log of the requests sent so far.  A raised
    exception keeps the state reached when it was raised. *)

Record World : Type := {
  cat : RemoteCatalog;
  log : list Request
}.

Definition M (A : Type) : Type := World -> Outcome A * World.

Definition ret {A} (a : A) : M A := fun w => (Ok a, w).

Definition bind {A B} (m : M A) (k : A -> M B) : M B :=
  fun w =>
    match m w with
    | (Ok a, w') => k a w'
    | (Raise e, w') => (Raise e, w')
    | (OutOfFuel, w') => (OutOfFuel, w')
    end.

Definition raise {A} (e : Exn) : M A := fun w => (Raise e, w).

Definition out_of_fuel {A} : M A := fun w => (OutOfFuel, w).

Definition gets {A} (f : RemoteCatalog -> A) : M A :=
  fun w => (Ok (f (cat w)), w).

Definition modify (f : RemoteCatalog -> RemoteCatalog) : M unit :=
  fun w => (Ok tt, {| cat := f (cat w); log := log w |}).

(** A call of a constructor.  It is not a method of the current catalog:
    it is given the log of the requests sent so far and gives the object it
    built, or the exception it raised, and the requests it has sent. *)
Definition Callee (A : Type) : Type :=
  list Request -> Outcome A * list Request.

Definition call {A} (f : Callee A) : M A :=
  fun w =>
    (fst (f (log w)), {| cat := cat w; log := log w ++ snd (f (log w)) |}).

Declare Scope py_scope.
Delimit Scope py_scope with py.
Notation "x <- c1 ;; c2" := (bind c1 (fun x => c2))
  (at level 61, c1 at next level, right associativity) : py_scope.
Notation "c1 ;;; c2" := (bind c1 (fun _ => c2))
  (at level 61, right associativity) : py_scope.

(** Attribute assignment. *)

Definition set_http_args (h : HttpArgs) (c : RemoteCatalog) : RemoteCatalog :=
  {| url := url c; info_url := info_url c; source_url := source_url c;
     http_args := h; _page_size := _page_size c; _source_id := _source_id c;
     _parameters := _parameters c; _len := _len c; auth := auth c;
     name := name c; metadata := metadata c; ttl := ttl c;
     getenv := getenv c; getshell := getshell c; pmode := pmode c;
     _entries := _entries c |}.

Definition set_page_size (p : option nat) (c : RemoteCatalog) : RemoteCatalog :=
  {| url := url c; info_url := info_url c; source_url := source_url c;
     http_args := http_args c; _page_size := p; _source_id := _source_id c;
     _parameters := _parameters c; _len := _len c; auth := auth c;
     name := name c; metadata := metadata c; ttl := ttl c;
     getenv := getenv c; getshell := getshell c; pmode := pmode c;
     _entries := _entries c |}.

Definition set_len (l : option nat) (c : RemoteCatalog) : RemoteCatalog :=
  {| url := url c; info_url := info_url c; source_url := source_url c;
     http_args := http_args c; _page_size := _page_size c;
     _source_id := _source_id c;
     _parameters := _parameters c; _len := l; auth := auth c;
     name := name c; metadata := metadata c; ttl := ttl c;
     getenv := getenv c; getshell := getshell c; pmode := pmode c;
     _entries := _entries c |}.

Definition set_metadata (m : Metadata) (c : RemoteCatalog) : RemoteCatalog :=
  {| url := url c; info_url := info_url c; source_url := source_url c;
     http_args := http_args c; _page_size := _page_size c;
     _source_id := _source_id c;
     _parameters := _parameters c; _len := _len c; auth := auth c;
     name := name c; metadata := m; ttl := ttl c;
     getenv := getenv c; getshell := getshell c; pmode := pmode c;
     _entries := _entries c |}.

Definition set_entries (e : Entries) (c : RemoteCatalog) : RemoteCatalog :=
  {| url := url c; info_url := info_url c; source_url := source_url c;
     http_args := http_args c; _page_size := _page_size c;
     _source_id := _source_id c;
     _parameters := _parameters c; _len := _len c; auth := auth c;
     name := name c; metadata := metadata c; ttl := ttl c;
     getenv := getenv c; getshell := getshell c; pmode := pmode c;
     _entries := e |}.

Definition set_page_cache (d : dict RemoteCatalogEntry) (e : Entries)
    : Entries :=
  {| _page_cache := d; _direct_lookup_cache := _direct_lookup_cache e;
     _page_offset := _page_offset e; complete := complete e |}.

Definition set_direct_lookup_cache (d : dict RemoteCatalogEntry) (e : Entries)
    : Entries :=
  {| _page_cache := _page_cache e; _direct_lookup_cache := d;
     _page_offset := _page_offset e; complete := complete e |}.

Definition set_page_offset (n : nat) (e : Entries) : Entries :=
  {| _page_cache := _page_cache e;
     _direct_lookup_cache := _direct_lookup_cache e;
     _page_offset := n; complete := complete e |}.

Definition set_complete (b : bool) (e : Entries) : Entries :=
  {| _page_cache := _page_cache e;
     _direct_lookup_cache := _direct_lookup_cache e;
     _page_offset := _page_offset e; complete := b |}.

Definition is_None {A} (o : option A) : bool :=
  match o with None => true | Some _ => false end.

Definition or_empty {A} (o : option (list A)) : list A :=
  match o with Some l => l | None => [] end.

(** ** The program *)

Section Remote.

Local Open Scope py_scope.

(** [requests.compat.urljoin] and [urlparse(url).netloc]. *)
Variable urljoin : string -> string -> string.
Variable netloc : string -> string.
(** [BaseClientAuth()], the provider used when none is given. *)
Variable BaseClientAuth : Auth.
(** The plugin registry and [container_map]: tables of constructors that
    are imported from other modules.  A plugin is called with the ['args']
    of the answer, a container with the URL, the [http_args] and the
    keyword arguments made of the answer. *)
Variable plugin_registry : dict (dict pyval -> Callee ResolvedSource).
Variable container_map :
  dict (string -> HttpArgs -> ProxyKwargs -> Callee ResolvedSource).
(** [expand_defaults] and [coerce] of [intake.catalog.utils]. *)
Variable expand_defaults : string -> bool -> bool -> bool -> string.
Variable coerce : string -> string -> pyval.
(** The remote server. *)
Variable srv : Server.

(** *** Entries.__init__ and reset *)

Definition Entries__init__ (page_size : option nat) : Entries :=
  {| _page_cache := [];
     _direct_lookup_cache := [];
     _page_offset := 0;
     complete := is_None page_size |}.

Definition reset : M unit :=
  modify (fun c =>
    set_entries {| _page_cache := [];
                   _direct_lookup_cache := [];
                   _page_offset := 0;
                   complete := is_None (_page_size c) |} c).

(** *** RemoteCatalog.__init__, up to the call of the base class

    The attributes of the new object when [__init__] hands over to the
    constructor of the base class, with those the base class keeps from its
    arguments and the empty entries container it obtains from
    [_make_entries_container].  The [metadata] argument is not read: the
    base class is given the name in its place. *)
Definition RemoteCatalog__init__attrs (url0 : string)
    (http_args0 : option HttpArgs) (page_size : option nat)
    (name0 : option string) (source_id : option string)
    (auth0 : option Auth) (ttl0 : nat) (getenv0 getshell0 : bool)
    (storage_options : option HttpArgs) (parameters : option (dict pyval))
    (persist_mode : string) : RemoteCatalog :=
  let copied :=
    match http_args0 with Some h => h | None => empty_http_args end in
  let secure := match ssl copied with Some b => b | None => false end in
  let popped := {| ssl := None; headers := headers copied;
                   params := params copied; kwargs := kwargs copied |} in
  let scheme := if secure then "https" else "http" in
  let url1 := Str.replace_first "intake" scheme url0 in
  let url2 := if Str.endswith_char url1 "/"%char then url1
              else (url1 ++ "/")%string in
  let updated :=
    http_args_update popped
      (match storage_options with Some o => o | None => empty_http_args end) in
  let stored := {| ssl := ssl updated;
                   headers := Some (or_empty (headers updated));
                   params := params updated;
                   kwargs := kwargs updated |} in
  let name1 :=
    match source_id with
    | None => Some (Str.replace_char ":"%char "_"%char
                      (Str.replace_char "."%char "_"%char (netloc url2)))
    | Some _ => name0
    end in
  {| url := url2;
     info_url := urljoin url2 "v1/info";
     source_url := urljoin url2 "v1/source";
     http_args := stored;
     _page_size := page_size;
     _source_id := source_id;
     _parameters := parameters;
     _len := None;
     auth := match auth0 with Some a => a | None => BaseClientAuth end;
     name := name1;
     metadata := MetaOfName name1;
     ttl := ttl0;
     getenv := getenv0;
     getshell := getshell0;
     pmode := persist_mode;
     _entries := Entries__init__ page_size |}.

(** *** RemoteCatalog._get_http_args

    [headers] is the dict stored under ['headers'] and is updated in place;
    so is the dict stored under ['params'], when there is one.  Only the
    top level of [http_args] is copied. *)
Definition _get_http_args (ps : dict pyval) : M HttpArgs :=
  fun w =>
    let c := cat w in
    let stored := http_args c in
    let headers1 :=
      dict_update (or_empty (headers stored)) (get_headers (auth c)) in
    let headers2 :=
      match _source_id c with
      | Some sid => dict_set "source-id" sid headers1
      | None => headers1
      end in
    let merged_params := dict_update (or_empty (params stored)) ps in
    let stored' :=
      {| ssl := ssl stored;
         headers := match headers stored with
                    | Some _ => Some headers2
                    | None => None
                    end;
         params := match params stored with
                   | Some _ => Some merged_params
                   | None => None
                   end;
         kwargs := kwargs stored |} in
    (Ok {| ssl := ssl stored;
           headers := Some headers2;
           params := Some merged_params;
           kwargs := kwargs stored |},
     {| cat := set_http_args stored' c; log := log w |}).

(** [requests.get] and [requests.post]: one round trip. *)
Definition send (m u : string) (ha : HttpArgs) (d : option Body)
    : M Response :=
  fun w =>
    let rq := {| method := m; target := u; req_args := ha; data := d |} in
    (Ok (srv (log w) rq), {| cat := cat w; log := log w ++ [rq] |}).

Definition requests_get (u : string) (ha : HttpArgs) : M Response :=
  send "GET" u ha None.

Definition requests_post (u : string) (ha : HttpArgs) (d : Body)
    : M Response :=
  send "POST" u ha (Some d).

(** *** RemoteCatalog.fetch_page *)

Definition page_error_msg (page_offset page_size : nat) : string :=
  ("Failed to fetch page of entries " ++ Str.of_nat page_offset ++ "-"
     ++ Str.of_nat (page_offset + page_size) ++ ".")%string.

Definition fetch_page (page_offset : nat)
    : M (dict RemoteCatalogEntry) :=
  size <- gets _page_size ;;
  match size with
  | None => raise TypeError
  | Some page_size =>
      ha <- _get_http_args [("page_offset", PInt page_offset);
                            ("page_size", PInt page_size)] ;;
      u <- gets info_url ;;
      response <- requests_get u ha ;;
      match raise_for_status response with
      | Some err =>
          raise (RemoteCatalogError (page_error_msg page_offset page_size) err)
      | None =>
          match content response with
          | InfoPayload _ _ sources =>
              c <- gets (fun c => c) ;;
              ret (dict_of_items
                     (map (fun source =>
                             (src_name source,
                              RemoteCatalogEntry__init__ (url c) (auth c)
                                (_page_size c) (pmode c)
                                (getenv c) (getshell c) source))
                          sources))
          | _ => raise DecodeError
          end
      end
  end.

(** *** RemoteCatalog.fetch_by_name *)

Definition entry_error_msg (n : string) : string :=
  ("Failed to fetch entry " ++ Str.repr n ++ ".")%string.

Definition fetch_by_name (n : string) : M RemoteCatalogEntry :=
  ha <- _get_http_args [("name", PStr n)] ;;
  u <- gets source_url ;;
  response <- requests_get u ha ;;
  if status_code response =? 404 then raise (KeyError n)
  else
    match raise_for_status response with
    | Some err => raise (RemoteCatalogError (entry_error_msg n) err)
    | None =>
        match content response with
        | SourcePayload source =>
            c <- gets (fun c => c) ;;
            ret (RemoteCatalogEntry__init__ (url c) (auth c)
                   (_page_size c) (pmode c) (getenv c) (getshell c) source)
        | _ => raise DecodeError
        end
    end.

(** *** RemoteCatalog._load *)

Definition auth_failure_msg : string :=
  "Your current level of authentication does not have access".

Definition _load : M unit :=
  size <- gets _page_size ;;
  let ps := match size with
            | None => []
            | Some _ => [("page_offset", PInt 0); ("page_size", PInt 0)]
            end in
  ha <- _get_http_args ps ;;
  u <- gets info_url ;;
  response <- requests_get u ha ;;
  match raise_for_status response with
  | Some err =>
      if Str.contains "403" (err_msg err)
      then raise (AuthenticationFailure auth_failure_msg)
      else raise (RemoteCatalogError "Failed to fetch metadata." err)
  | None =>
      match content response with
      | InfoPayload md len sources =>
          modify (set_metadata (MetaOfInfo md)) ;;;
          modify (set_len len) ;;;
          reset ;;;
          match sources with
          | [] => ret tt
          | _ :: _ =>
              modify (set_page_size None) ;;;
              modify (fun c =>
                set_entries
                  (set_page_cache
                     (dict_update (_page_cache (_entries c))
                        (dict_of_items
                           (map (fun source =>
                                   (src_name source,
                                    RemoteCatalogEntry__init__ (url c) (auth c)
                                      None "default"
                                      (getenv c) (getshell c) source))
                                sources)))
                     (_entries c)) c)
          end
      | _ => raise DecodeError
      end
  end.

(** *** Catalog.__init__ and RemoteCatalog.__init__ *)

(** Modelled from the spec: the constructor of the base class [Catalog],
    which is not under src/.  The entry cache is created when the catalog
    is constructed (the container is already in the attributes above), and
    the catalog then loads: the base class is the caller of [_load], which
    nothing in this file calls.  The new object is the current one. *)
Definition Catalog__init__ : M unit := _load.

(** [RemoteCatalog(url, http_args, page_size, ...)]: the new object once
    the base class has loaded it, or the exception of the load. *)
Definition RemoteCatalog__init__ (url0 : string)
    (http_args0 : option HttpArgs) (page_size : option nat)
    (name0 : option string) (source_id : option string)
    (auth0 : option Auth) (ttl0 : nat) (getenv0 getshell0 : bool)
    (storage_options : option HttpArgs) (parameters : option (dict pyval))
    (persist_mode : string) : Callee RemoteCatalog :=
  fun l =>
    let self := RemoteCatalog__init__attrs url0 http_args0 page_size name0
                  source_id auth0 ttl0 getenv0 getshell0 storage_options
                  parameters persist_mode in
    let r := Catalog__init__ {| cat := self; log := l |} in
    (match fst r with
     | Ok _ => Ok (cat (snd r))
     | Raise e => Raise e
     | OutOfFuel => OutOfFuel
     end,
     skipn (List.length l) (log (snd r))).

(** *** RemoteCatalog.search

    The new catalog is built from a deep copy of the stored [http_args];
    every argument of the constructor that is not passed takes its
    default.  Its constructor loads it before [search] returns. *)
Definition search (args : list pyval) (kw : dict pyval) : M RemoteCatalog :=
  sid <- gets _source_id ;;
  ha <- _get_http_args [] ;;
  u <- gets source_url ;;
  response <- requests_post u ha (SearchBody args kw sid) ;;
  match raise_for_status response with
  | Some err => raise (RemoteCatalogError "Failed search query." err)
  | None =>
      match content response with
      | SearchPayload source_id =>
          c <- gets (fun c => c) ;;
          call (RemoteCatalog__init__ (url c) (Some (http_args c)) None
                  (Some "") (Some source_id) None 1 true true None None
                  (pmode c))
      | _ => raise DecodeError
      end
  end.

(** *** RemoteCatalog as a container

    [RemoteCatalog(url, http_args, **response)], the call [open_remote]
    makes when [container_map] gives this class.  A keyword that is not a
    parameter of [__init__] is a [TypeError], as is ['url'] or
    ['http_args'], which are given by position; ['plugin'] and ['args'] are
    such keywords.  The values are read at the types the docstring of
    [__init__] gives them; the attributes of the model cannot hold a value
    of another type, and for such a call the model gives no result. *)
Definition init_keywords : list string :=
  ["page_size"; "name"; "source_id"; "metadata"; "auth"; "ttl"; "getenv";
   "getshell"; "storage_options"; "parameters"; "persist_mode"].

Definition truthy (v : pyval) : bool :=
  match v with
  | PNone => false
  | PBool b => b
  | PInt n => negb (n =? 0)
  | PStr s => negb (String.eqb s "")
  end.

Definition RemoteCatalog_kwargs (url1 : string) (ha : HttpArgs)
    (kw : ProxyKwargs) : Outcome (Callee RemoteCatalog) :=
  let given k := dict_get k (kw_fields kw) in
  let settings := kw_catalog kw in
  match kw_plugin kw, kw_args kw with
  | None, None =>
      if forallb (fun k => existsb (String.eqb k) init_keywords)
           (dict_keys (kw_fields kw))
      then
        match
          (match settings, given "page_size" with
           | Some (_, _, _, ps, _), _ => Some ps
           | None, None | None, Some PNone => Some None
           | None, Some (PInt n) => Some (Some n)
           | None, Some _ => None
           end),
          (match given "source_id" with
           | None | Some PNone => Some None
           | Some (PStr sid) => Some (Some sid)
           | Some _ => None
           end),
          (match settings, given "auth" with
           | Some (a, _, _, _, _), _ => Some (Some a)
           | None, None => Some None
           | None, Some v => if truthy v then None else Some None
           end),
          (match given "ttl" with
           | None => Some 1
           | Some (PInt n) => Some n
           | Some _ => None
           end),
          (match settings, given "getenv" with
           | Some (_, b, _, _, _), _ => Some b
           | None, None => Some true
           | None, Some (PBool b) => Some b
           | None, Some _ => None
           end),
          (match settings, given "getshell" with
           | Some (_, _, b, _, _), _ => Some b
           | None, None => Some true
           | None, Some (PBool b) => Some b
           | None, Some _ => None
           end),
          (match given "storage_options" with
           | None => Some tt
           | Some v => if truthy v then None else Some tt
           end),
          (match settings, given "persist_mode" with
           | Some (_, _, _, _, m), _ => Some m
           | None, None => Some "default"
           | None, Some (PStr m) => Some m
           | None, Some _ => None
           end)
        with
        | Some page_size, Some source_id, Some auth0, Some ttl0,
          Some getenv0, Some getshell0, Some _, Some persist_mode =>
            Ok (RemoteCatalog__init__ url1 (Some ha) page_size
                  (Some (kw_name kw)) source_id auth0 ttl0 getenv0
                  getshell0 None (Some (kw_parameters kw)) persist_mode)
        | _, _, _, _, _, _, _, _ => OutOfFuel
        end
      else Raise TypeError
  | _, _ => Raise TypeError
  end.

Definition RemoteCatalog_as_container (url1 : string) (ha : HttpArgs)
    (kw : ProxyKwargs) : Callee ResolvedSource :=
  fun l =>
    match RemoteCatalog_kwargs url1 ha kw with
    | Raise e => (Raise e, [])
    | OutOfFuel => (OutOfFuel, [])
    | Ok build =>
        (match fst (build l) with
         | Ok c => Ok (CatalogResource c "")
         | Raise e => Raise e
         | OutOfFuel => OutOfFuel
         end,
         snd (build l))
    end.

(** *** Entries.__iter__, drained

    The keys the generator yields when it is run to its end.  [fetch_loop]
    is the [while True] loop; it stops on the first page shorter than the
    page size and runs out of fuel if no such page comes. *)
Fixpoint fetch_loop (fuel : nat) : M (list string) :=
  match fuel with
  | O => out_of_fuel
  | S fuel' =>
      offset <- gets (fun c => _page_offset (_entries c)) ;;
      page <- fetch_page offset ;;
      modify (fun c =>
        set_entries
          (set_page_cache (dict_update (_page_cache (_entries c)) page)
             (_entries c)) c) ;;;
      modify (fun c =>
        set_entries
          (set_page_offset (_page_offset (_entries c) + List.length page)
             (_entries c)) c) ;;;
      size <- gets _page_size ;;
      match size with
      | None => raise TypeError
      | Some page_size =>
          if List.length page <? page_size
          then
            modify (fun c => set_entries (set_complete true (_entries c)) c) ;;;
            ret (dict_keys page)
          else
            rest <- fetch_loop fuel' ;;
            ret (dict_keys page ++ rest)
      end
  end.

Definition Entries__iter__ (fuel : nat) : M (list string) :=
  cached <- gets (fun c => dict_keys (_page_cache (_entries c))) ;;
  size <- gets _page_size ;;
  match size with
  | None => ret cached
  | Some _ =>
      fetched <- fetch_loop fuel ;;
      ret (cached ++ fetched)
  end.

(** *** Entries.__iter__, advanced [n] times and then dropped

    The consumer takes [n] keys ([next(iter(...))] takes one) and abandons
    the generator.  A generator left at a [yield] inside a page has merged
    that page and advanced the offset, and has not reached the test that
    sets [complete]. *)
Fixpoint fetch_loop_take (fuel n : nat) : M (list string) :=
  match fuel with
  | O => out_of_fuel
  | S fuel' =>
      offset <- gets (fun c => _page_offset (_entries c)) ;;
      page <- fetch_page offset ;;
      modify (fun c =>
        set_entries
          (set_page_cache (dict_update (_page_cache (_entries c)) page)
             (_entries c)) c) ;;;
      modify (fun c =>
        set_entries
          (set_page_offset (_page_offset (_entries c) + List.length page)
             (_entries c)) c) ;;;
      if n <=? List.length page
      then ret (firstn n (dict_keys page))
      else
        size <- gets _page_size ;;
        match size with
        | None => raise TypeError
        | Some page_size =>
            if List.length page <? page_size
            then
              modify (fun c => set_entries (set_complete true (_entries c)) c) ;;;
              ret (dict_keys page)
            else
              rest <- fetch_loop_take fuel' (n - List.length page) ;;
              ret (dict_keys page ++ rest)
        end
  end.

Definition Entries__iter__take (fuel n : nat) : M (list string) :=
  cached <- gets (fun c => dict_keys (_page_cache (_entries c))) ;;
  if n <=? List.length cached
  then ret (firstn n cached)
  else
    size <- gets _page_size ;;
    match size with
    | None => ret cached
    | Some _ =>
        fetched <- fetch_loop_take fuel (n - List.length cached) ;;
        ret (cached ++ fetched)
    end.

(** *** Entries.cached_items *)
Definition cached_items : M (list (string * RemoteCatalogEntry)) :=
  gets (fun c =>
          _page_cache (_entries c) ++ _direct_lookup_cache (_entries c)).

(** *** Entries.__getitem__ *)
Definition Entries__getitem__ (key : string) : M RemoteCatalogEntry :=
  direct <- gets (fun c => _direct_lookup_cache (_entries c)) ;;
  match dict_get key direct with
  | Some source => ret source
  | None =>
      paged <- gets (fun c => _page_cache (_entries c)) ;;
      match dict_get key paged with
      | Some source => ret source
      | None =>
          source <- fetch_by_name key ;;
          modify (fun c =>
            set_entries
              (set_direct_lookup_cache
                 (dict_set key source (_direct_lookup_cache (_entries c)))
                 (_entries c)) c) ;;;
          ret source
      end
  end.

(** *** RemoteCatalog.__len__ and Entries.__len__ *)
Definition RemoteCatalog__len__ (fuel : nat) : M nat :=
  declared <- gets _len ;;
  match declared with
  | None => keys <- Entries__iter__ fuel ;; ret (List.length keys)
  | Some n => ret n
  end.

Definition Entries__len__ (fuel : nat) : M nat := RemoteCatalog__len__ fuel.

(** *** open_remote *)

Definition server_error_msg (r : Response) : string :=
  ("Server error: " ++ Str.of_nat (status_code r) ++ ", " ++ reason r)%string.

Definition str_mem (s : string) (l : list string) : bool :=
  existsb (String.eqb s) l.

(** the [for p in pl] loop: the first plugin the registry knows *)
Definition first_known_plugin (pl : list string) : option string :=
  find (fun p => str_mem p (dict_keys plugin_registry)) pl.

(** The keys the update of the answer overwrites. *)
Definition overwritten (container : option string) : list string :=
  ["name"; "parameters"]
  ++ match container with
     | Some k =>
         if String.eqb k "catalog"
         then ["auth"; "getenv"; "getshell"; "page_size"; "persist_mode"]
         else []
     | None => []
     end.

(** [response] once [container] is popped and the updates are made. *)
Definition response_kwargs (container : option string)
    (plugin : option Plugin) (args : option (dict pyval))
    (fields : dict pyval) (entry : string) (user_parameters : dict pyval)
    (page_size : option nat) (persist_mode : string) (a : Auth)
    (getenv0 getshell0 : bool) : ProxyKwargs :=
  {| kw_plugin := plugin;
     kw_args := args;
     kw_fields :=
       filter (fun kv => negb (str_mem (fst kv) (overwritten container)))
         fields;
     kw_name := entry;
     kw_parameters := user_parameters;
     kw_catalog :=
       match container with
       | Some k =>
           if String.eqb k "catalog"
           then Some (a, getenv0, getshell0, page_size, persist_mode)
           else None
       | None => None
       end |}.

(** The branch [if req.ok]: the answer is decoded and a source is built
    from it. *)
Definition open_answer (url1 entry : string) (container : option string)
    (user_parameters : dict pyval) (description : string)
    (ha : HttpArgs) (page_size : option nat) (persist_mode : string)
    (a : Auth) (getenv0 getshell0 : bool) (req : Response)
    : M ResolvedSource :=
  match content req with
  | OpenPayload plugin args resp_container fields =>
      let direct :=
        match plugin with
        | Some (PluginStr p) => first_known_plugin [p]
        | Some (PluginList pl) => first_known_plugin pl
        | None => None
        end in
      match direct with
      | Some p =>
          match dict_get p plugin_registry with
          | None => raise (KeyError p)
          | Some build =>
              match args with
              | None => raise (KeyError "args")
              | Some kwargs0 =>
                  source <- call (build kwargs0) ;;
                  ret (set_description description source)
              end
          end
      | None =>
          match resp_container with
          | None => raise (KeyError "container")
          | Some _ =>
              let response :=
                response_kwargs container plugin args fields entry
                  user_parameters page_size persist_mode a getenv0
                  getshell0 in
              match container with
              | None => raise (KeyError "None")
              | Some k =>
                  match dict_get k container_map with
                  | None => raise (KeyError k)
                  | Some build =>
                      source <- call (build url1 ha response) ;;
                      ret (set_description description source)
                  end
              end
          end
      end
  | _ => raise DecodeError
  end.

Definition open_remote (url0 entry : string) (container : option string)
    (user_parameters : dict pyval) (description : string)
    (ha : HttpArgs) (page_size : option nat) (persist_mode : string)
    (a : Auth) (getenv0 getshell0 : bool) : M ResolvedSource :=
  let url1 := if Str.startswith url0 "intake://"
              then Str.drop (String.length "intake://") url0 else url0 in
  req <- requests_post (urljoin url1 "/v1/source") ha
           (OpenBody entry user_parameters (dict_keys plugin_registry)) ;;
  if ok req then
    open_answer url1 entry container user_parameters description ha
      page_size persist_mode a getenv0 getshell0 req
  else raise (PyException (server_error_msg req)).

(** *** RemoteCatalogEntry.get

    [self.http_args] shares its nested dicts with the catalog, so the
    headers are those the catalog holds now; they are copied before the
    auth headers are added. *)
Definition fill_defaults (e : RemoteCatalogEntry)
    (user_parameters : dict pyval) : dict pyval :=
  fold_left
    (fun acc par =>
       if dict_mem (par_name par) acc then acc
       else
         let default :=
           match par_default par with
           | PStr s => coerce (par_type par)
                         (expand_defaults s true (e_getenv e) (e_getshell e))
           | v => v
           end in
         dict_set (par_name par) default acc)
    (e_user_parameters e) user_parameters.

Definition RemoteCatalogEntry_get (e : RemoteCatalogEntry)
    (user_parameters : dict pyval) : M ResolvedSource :=
  let filled := fill_defaults e user_parameters in
  shared <- gets http_args ;;
  let ha := {| ssl := ssl shared;
               headers := Some (dict_update (or_empty (headers shared))
                                  (get_headers (e_auth e)));
               params := params shared;
               kwargs := kwargs shared |} in
  open_remote (e_url e) (e_name e) (e_container e) filled
    (e_description e) ha (e_page_size e) (e_catalog_pmode e) (e_auth e)
    (e_getenv e) (e_getshell e).

(** *** A catalog's life

    The operations a client performs on one catalog, and the state a
    sequence of them leaves (results and exceptions are dropped: the next
    operation starts from the state the previous one reached). *)
Inductive Op : Type :=
| OpLoad
| OpReset
| OpIter (fuel : nat)
| OpNext (fuel n : nat)
| OpGetitem (key : string)
| OpLen (fuel : nat)
| OpCachedItems
| OpFetchPage (page_offset : nat)
| OpFetchByName (n : string)
| OpSearch (args : list pyval) (kw : dict pyval)
| OpGetHttpArgs (ps : dict pyval).

Definition run_op (o : Op) (w : World) : World :=
  match o with
  | OpLoad => snd (_load w)
  | OpReset => snd (reset w)
  | OpIter fuel => snd (Entries__iter__ fuel w)
  | OpNext fuel n => snd (Entries__iter__take fuel n w)
  | OpGetitem key => snd (Entries__getitem__ key w)
  | OpLen fuel => snd (RemoteCatalog__len__ fuel w)
  | OpCachedItems => snd (cached_items w)
  | OpFetchPage page_offset => snd (fetch_page page_offset w)
  | OpFetchByName n => snd (fetch_by_name n w)
  | OpSearch args kw => snd (search args kw w)
  | OpGetHttpArgs ps => snd (_get_http_args ps w)
  end.

Definition run_ops (ops : list Op) (w : World) : World :=
  fold_left (fun acc o => run_op o acc) ops w.

(** The requests the catalog sends, as functions of its state. *)
Definition sent_http_args (c : RemoteCatalog) (ps : dict pyval) : HttpArgs :=
  match fst (_get_http_args ps {| cat := c; log := [] |}) with
  | Ok ha => ha
  | _ => empty_http_args
  end.

(** What the catalog's stored [http_args] has become after the call. *)
Definition kept_http_args (c : RemoteCatalog) (ps : dict pyval) : HttpArgs :=
  http_args (cat (snd (_get_http_args ps {| cat := c; log := [] |}))).

Definition load_params (c : RemoteCatalog) : dict pyval :=
  match _page_size c with
  | None => []
  | Some _ => [("page_offset", PInt 0); ("page_size", PInt 0)]
  end.

Definition load_request (c : RemoteCatalog) : Request :=
  {| method := "GET"; target := info_url c;
     req_args := sent_http_args c (load_params c); data := None |}.

Definition page_params (page_offset page_size : nat) : dict pyval :=
  [("page_offset", PInt page_offset); ("page_size", PInt page_size)].

Definition page_request (c : RemoteCatalog) (page_offset page_size : nat)
    : Request :=
  {| method := "GET"; target := info_url c;
     req_args := sent_http_args c (page_params page_offset page_size);
     data := None |}.

Definition name_request (c : RemoteCatalog) (n : string) : Request :=
  {| method := "GET"; target := source_url c;
     req_args := sent_http_args c [("name", PStr n)]; data := None |}.

Definition search_request (c : RemoteCatalog) (args : list pyval)
    (kw : dict pyval) : Request :=
  {| method := "POST"; target := source_url c;
     req_args := sent_http_args c [];
     data := Some (SearchBody args kw (_source_id c)) |}.

End Remote.

(** ** Concrete servers and catalogs

    Instances on which the operations are run: a server that pages a fixed
    list of entries, a server from before pagination that always sends the
    whole list, and a server that gives one answer to everything. *)

Module Fixture.

(** [urlsplit]: the scheme, the host part and the path of a URL without
    blanks or control characters. *)
Definition is_alpha (c : ascii) : bool :=
  let n := nat_of_ascii c in
  ((65 <=? n) && (n <=? 90)) || ((97 <=? n) && (n <=? 122)).

Definition is_scheme_char (c : ascii) : bool :=
  let n := nat_of_ascii c in
  is_alpha c || ((48 <=? n) && (n <=? 57))
  || (n =? 43) || (n =? 45) || (n =? 46).

Definition lower (c : ascii) : ascii :=
  let n := nat_of_ascii c in
  if (65 <=? n) && (n <=? 90) then ascii_of_nat (n + 32) else c.

Fixpoint string_map (f : ascii -> ascii) (s : string) : string :=
  match s with
  | EmptyString => EmptyString
  | String a rest => String (f a) (string_map f rest)
  end.

(** What stands before the first character in [stop], and the rest. *)
Fixpoint break_at (stop : ascii -> bool) (s : string) : string * string :=
  match s with
  | EmptyString => (EmptyString, EmptyString)
  | String a rest =>
      if stop a then (EmptyString, s)
      else (String a (fst (break_at stop rest)), snd (break_at stop rest))
  end.

Definition one_of (cs : string) (c : ascii) : bool := Str.has_char c cs.

Definition urlsplit (u : string) : string * string * string :=
  let (scheme, rest) :=
    match break_at (one_of ":") u with
    | (String a pre, String _ after) =>
        if is_alpha a
           && forallb is_scheme_char (list_ascii_of_string (String a pre))
        then (string_map lower (String a pre), after)
        else (EmptyString, u)
    | _ => (EmptyString, u)
    end in
  let (host, rest1) :=
    if String.prefix "//" rest then break_at (one_of "/?#") (Str.drop 2 rest)
    else (EmptyString, rest) in
  (scheme, host, fst (break_at (one_of "?#") rest1)).

Definition uses_relative : list string :=
  [""; "ftp"; "http"; "gopher"; "nntp"; "imap"; "wais"; "file"; "https";
   "shttp"; "mms"; "prospero"; "rtsp"; "rtspu"; "sftp"; "svn"; "svn+ssh";
   "ws"; "wss"].

(** [s.split('/')] *)
Fixpoint split_slash (s : string) : list string :=
  match s with
  | EmptyString => [EmptyString]
  | String a rest =>
      if Ascii.eqb a "/"%char then EmptyString :: split_slash rest
      else match split_slash rest with
           | seg :: segs => String a seg :: segs
           | [] => [String a EmptyString]
           end
  end.

Definition nonempty (s : string) : bool := negb (String.eqb s "").

(** [segments[1:-1] = filter(None, segments[1:-1])] *)
Definition drop_inner_empty (segments : list string) : list string :=
  match segments with
  | first :: (_ :: _) as others =>
      first :: filter nonempty (removelast others) ++ [last others ""]
  | _ => segments
  end.

Definition resolve (segments : list string) : list string :=
  fold_left
    (fun resolved seg =>
       if String.eqb seg ".." then removelast resolved
       else if String.eqb seg "." then resolved
       else resolved ++ [seg])
    segments [].

(** [urljoin(base, rel)] for a relative reference that is a plain path (no
    scheme, no host part, no query and no fragment), as are the three this
    file joins. *)
Definition urljoin (base rel : string) : string :=
  if String.eqb base "" then rel
  else if String.eqb rel "" then base
  else
    let '(scheme, host, path) := urlsplit base in
    if negb (str_mem scheme uses_relative) then rel
    else
      let base_parts := split_slash path in
      let base_dir := if nonempty (last base_parts "")
                      then removelast base_parts else base_parts in
      let segments :=
        if String.prefix "/" rel then split_slash rel
        else drop_inner_empty (base_dir ++ split_slash rel) in
      let resolved :=
        resolve segments
        ++ (if String.eqb (last segments "") "."
               || String.eqb (last segments "") ".."
            then [EmptyString] else []) in
      let joined := String.concat "/" resolved in
      let path1 := if String.eqb joined "" then "/" else joined in
      let located :=
        if nonempty host
           || (nonempty scheme && negb (String.prefix "//" path1))
        then ("//" ++ host
              ++ (if String.prefix "/" path1 then path1 else "/" ++ path1))%string
        else path1 in
      if nonempty scheme then (scheme ++ ":" ++ located)%string else located.

(** [urlparse(url).netloc] *)
Definition netloc (u : string) : string := snd (fst (urlsplit u)).

Definition BaseClientAuth : Auth :=
  {| auth_cls := "BaseClientAuth"; get_headers := [] |}.

Definition token_auth : Auth :=
  {| auth_cls := "TokenAuth";
     get_headers := [("authorization", "Bearer t0k3n")] |}.

(** A plugin whose constructor has the parameters [required], which a
    call must give, and [optional]; a call that does not fit is a
    [TypeError].  It sends nothing. *)
Definition plugin (cls : string) (required optional : list string)
    (args : dict pyval) : Callee ResolvedSource :=
  fun l =>
    if forallb (fun k => dict_mem k args) required
       && forallb (fun k => str_mem k (required ++ optional)) (dict_keys args)
    then (Ok (DirectResource cls args ""), [])
    else (Raise TypeError, []).

Definition plugin_registry : dict (dict pyval -> Callee ResolvedSource) :=
  [("csv", plugin "csv" ["urlpath"]
             ["csv_kwargs"; "metadata"; "storage_options"; "path_as_pattern"]);
   ("textfiles", plugin "textfiles" ["urlpath"]
                   ["text_mode"; "text_encoding"; "compression"; "decoder";
                    "read"; "metadata"; "storage_options"])].

Definition expand_defaults (s : string) (_ _ _ : bool) : string := s.
Definition coerce (_ : string) (s : string) : pyval := PStr s.

Definition source_named (n d : string) : Source :=
  {| src_name := n;
     src_container := Some "dataframe";
     src_description := Some d;
     src_metadata := None;
     src_user_parameters := None;
     src_direct_access := None;
     src_kwargs := [] |}.

Definition reply (code : nat) (why : string) (u : string) (p : Payload)
    : Response :=
  {| status_code := code; reason := why; resp_url := u; content := p |}.

Definition int_param (k : string) (rq : Request) : option nat :=
  match dict_get k (or_empty (params (req_args rq))) with
  | Some (PInt n) => Some n
  | _ => None
  end.

Definition str_param (k : string) (rq : Request) : option string :=
  match dict_get k (or_empty (params (req_args rq))) with
  | Some (PStr s) => Some s
  | _ => None
  end.

Definition is_info (rq : Request) : bool :=
  String.eqb (method rq) "GET" && Str.contains "v1/info" (target rq).

(** A server with pagination: [listed] is what the info endpoint pages
    through, [named] what the source endpoint knows by name. *)
Definition paged_server (listed named : list Source) : Server :=
  fun _ rq =>
    if is_info rq then
      match int_param "page_offset" rq, int_param "page_size" rq with
      | Some off, Some size =>
          reply 200 "OK" (target rq)
            (InfoPayload [] (Some (List.length listed))
               (firstn size (skipn off listed)))
      | _, _ =>
          reply 200 "OK" (target rq)
            (InfoPayload [] (Some (List.length listed)) listed)
      end
    else if String.eqb (method rq) "GET" then
      match str_param "name" rq with
      | Some n =>
          match find (fun s => String.eqb (src_name s) n) named with
          | Some s => reply 200 "OK" (target rq) (SourcePayload s)
          | None => reply 404 "Not Found" (target rq) Undecodable
          end
      | None => reply 400 "Bad Request" (target rq) Undecodable
      end
    else
      match data rq with
      | Some (SearchBody _ _ _) =>
          reply 200 "OK" (target rq) (SearchPayload "scope-1")
      | Some (OpenBody _ _ _) =>
          reply 200 "OK" (target rq)
            (OpenPayload (Some (PluginStr "csv")) (Some [])
               (Some "dataframe") [])
      | None => reply 400 "Bad Request" (target rq) Undecodable
      end.

(** A server from before pagination: the whole list, whatever is asked,
    and no declared length. *)
Definition legacy_server (listed : list Source) : Server :=
  fun _ rq => reply 200 "OK" (target rq) (InfoPayload [] None listed).

(** A server with one answer. *)
Definition constant_server (r : Response) : Server := fun _ _ => r.

(** The containers: a nested catalog is a [RemoteCatalog] on the same
    server. *)
Definition container_map (srv : Server)
    : dict (string -> HttpArgs -> ProxyKwargs -> Callee ResolvedSource) :=
  [("catalog", RemoteCatalog_as_container urljoin netloc BaseClientAuth srv)].

Definition abcde : list Source :=
  map (fun n => source_named n "listed") ["a"; "b"; "c"; "d"; "e"].

(** The object [RemoteCatalog(url, page_size=page_size, auth=auth)] has
    built when it hands over to the base class, and an empty log.  The
    load of the base class is [OpLoad] on it. *)
Definition connect (u : string) (page_size : option nat) (a : option Auth)
    : World :=
  {| cat := RemoteCatalog__init__attrs urljoin netloc BaseClientAuth u None
              page_size None None a 1 true true None None "default";
     log := [] |}.

Definition localhost : string := "intake://localhost:5000".

Definition run : Server -> list Op -> World -> World :=
  run_ops urljoin netloc BaseClientAuth.

(** Five entries [a] to [e], paged by two: the catalog under construction,
    the catalog the constructor returns, and that catalog once iterated. *)
Definition paged : Server := paged_server abcde abcde.
Definition fresh_world : World := connect localhost (Some 2) None.
Definition loaded_world : World := run paged [OpLoad] fresh_world.
Definition drained_world : World := run paged [OpIter 10] loaded_world.

(** The same five entries on a server that ignores paging. *)
Definition legacy : Server := legacy_server abcde.

(** A server whose by-name answer for [a] is not the listed one. *)
Definition renamed : Server :=
  paged_server abcde [source_named "a" "named"].
Definition stale_world : World :=
  run renamed [OpLoad; OpGetitem "a"; OpIter 10] fresh_world.
Definition entry_a (d : string) : RemoteCatalogEntry :=
  RemoteCatalogEntry__init__ "http://localhost:5000/" BaseClientAuth (Some 2)
    "default" true true (source_named "a" d).

(** Answers that are neither 2xx nor errors for [requests]. *)
Definition multiple_choices (p : Payload) : Server :=
  constant_server (reply 300 "Multiple Choices" "http://localhost:5000/" p).

(** A server on port 4030 that does not know the info endpoint. *)
Definition port_4030 : string := "intake://localhost:4030".
Definition not_found_4030 : Server :=
  constant_server
    (reply 404 "Not Found" "http://localhost:4030/v1/info" Undecodable).

(** A server that refuses, and one that breaks. *)
Definition forbidden : Server :=
  constant_server
    (reply 403 "Forbidden" "http://localhost:5000/v1/info" Undecodable).
Definition broken : Server :=
  constant_server
    (reply 500 "Internal Server Error" "http://localhost:5000/v1/source"
       Undecodable).

(** A server that answers a search and then refuses the scoped view: a
    metadata request that carries a [source-id] header is forbidden. *)
Definition guarded : Server :=
  fun l rq =>
    if is_info rq && dict_mem "source-id" (or_empty (headers (req_args rq)))
    then reply 403 "Forbidden" (target rq) Undecodable
    else paged l rq.

(** A server that answers the open call with three plugins to choose from
    and the arguments of the source. *)
Definition listing : Server :=
  fun l rq =>
    match data rq with
    | Some (OpenBody _ _ _) =>
        reply 200 "OK" (target rq)
          (OpenPayload (Some (PluginList ["parquet"; "textfiles"; "csv"]))
             (Some [("urlpath", PStr "data.txt")]) (Some "dataframe") [])
    | _ => paged l rq
    end.

(** A server on which an entry is a catalog of its own: the open call is
    answered with the container kind and a scope id. *)
Definition nesting : Server :=
  fun l rq =>
    match data rq with
    | Some (OpenBody _ _ _) =>
        reply 200 "OK" (target rq)
          (OpenPayload None None (Some "catalog")
             [("source_id", PStr "scope-2")])
    | _ => paged l rq
    end.

(** A catalog with a token provider and stored query parameters. *)
Definition keyed_world : World :=
  {| cat := RemoteCatalog__init__attrs urljoin netloc BaseClientAuth localhost
              (Some {| ssl := None; headers := None;
                       params := Some [("format", PStr "msgpack")];
                       kwargs := [] |})
              (Some 2) None (Some "scope-0") (Some token_auth) 1 true true
              None None "default";
     log := [] |}.

(** That catalog as its constructor returns it. *)
Definition keyed_loaded : World := run paged [OpLoad] keyed_world.

End Fixture.

(** What the claims speak of. *)

(** The request carries [sid] in its [source-id] header. *)
Definition carries_source_id (sid : string) (rq : Request) : Prop :=
  dict_get "source-id" (or_empty (headers (req_args rq))) = Some sid.

(** Merging keys the way [dict.update] does: a key already there keeps its
    place, a new one goes to the end. *)
Definition key_merge (present new : list string) : list string :=
  fold_left
    (fun acc k => if existsb (String.eqb k) acc then acc else acc ++ [k])
    new present.

(** A small program logic for [M]: from a state whose catalog satisfies [I],
    the computation keeps [I], only appends requests satisfying [P] to the
    log, and a returned value satisfies [Q]. *)
Definition triple {A} (I : RemoteCatalog -> Prop) (P : Request -> Prop)
    (m : M A) (Q : A -> Prop) : Prop :=
  forall w, I (cat w) ->
    I (cat (snd (m w)))
    /\ (exists l, log (snd (m w)) = log w ++ l /\ Forall P l)
    /\ (forall a, fst (m w) = Ok a -> Q a).

(** The tiers of a state. *)
Definition page_tier (w : World) : dict RemoteCatalogEntry :=
  _page_cache (_entries (cat w)).

Definition direct_tier (w : World) : dict RemoteCatalogEntry :=
  _direct_lookup_cache (_entries (cat w)).

(** The value [d.update(items)] gives to [k]: the last one listed. *)
Definition dict_last {V : Type} (k : string) (items : list (string * V))
    : option V :=
  dict_get k (rev items).

(** The headers [_get_http_args] leaves in the stored dict [h]. *)
Definition written_headers (c : RemoteCatalog) (h : dict string)
    : dict string :=
  match _source_id c with
  | Some sid => dict_set "source-id" sid (dict_update h (get_headers (auth c)))
  | None => dict_update h (get_headers (auth c))
  end.

(** The request [open_remote] posts, and the arguments an entry hands it. *)
Definition open_request (urljoin : string -> string -> string)
    (plugin_registry : dict (dict pyval -> Callee ResolvedSource))
    (url0 entry : string)
    (user_parameters : dict pyval) (ha : HttpArgs) : Request :=
  {| method := "POST";
     target := urljoin (if Str.startswith url0 "intake://"
                        then Str.drop (String.length "intake://") url0
                        else url0) "/v1/source";
     req_args := ha;
     data := Some (OpenBody entry user_parameters
                     (dict_keys plugin_registry)) |}.

Definition entry_http_args (e : RemoteCatalogEntry) (c : RemoteCatalog)
    : HttpArgs :=
  {| ssl := ssl (http_args c);
     headers := Some (dict_update (or_empty (headers (http_args c)))
                        (get_headers (e_auth e)));
     params := params (http_args c);
     kwargs := kwargs (http_args c) |}.

(** The claims that do not hold as worded, as predicates on an instance. *)

(** After a complete iteration, some second call yields the same keys and
    sends nothing. *)
Definition second_iterate_is_free (srv : Server) (w0 : World) : Prop :=
  forall fuel ks w1,
    Entries__iter__ srv fuel w0 = (Ok ks, w1) ->
    exists fuel' w2,
      Entries__iter__ srv fuel' w1 = (Ok ks, w2) /\ log w2 = log w1.

(** [_load] raises [AuthenticationFailure] exactly on a 403 and
    [RemoteCatalogError] on any other answer that is not 2xx. *)
Definition load_error_contract (srv : Server) (w : World) : Prop :=
  let r := srv (log w) (load_request (cat w)) in
  ((exists msg, fst (_load srv w) = Raise (AuthenticationFailure msg))
   <-> status_code r = 403)
  /\ (is_2xx r = false -> status_code r <> 403 ->
      exists msg err,
        fst (_load srv w) = Raise (RemoteCatalogError msg err)
        /\ err_response err = r).

(** A name held by both tiers is answered with the page tier's copy. *)
Definition page_tier_is_authoritative (srv : Server) (w : World)
    (key : string) : Prop :=
  forall direct paged,
    dict_get key (direct_tier w) = Some direct ->
    dict_get key (page_tier w) = Some paged ->
    fst (Entries__getitem__ srv key w) = Ok paged.

(** Any answer to the open call that is not 2xx raises the server error. *)
Definition open_fails_unless_2xx (urljoin : string -> string -> string)
    (plugin_registry : dict (dict pyval -> Callee ResolvedSource))
    (container_map :
       dict (string -> HttpArgs -> ProxyKwargs -> Callee ResolvedSource))
    (srv : Server)
    (url0 entry : string) (container : option string)
    (user_parameters : dict pyval) (description : string) (ha : HttpArgs)
    (w : World) : Prop :=
  let r := srv (log w)
             (open_request urljoin plugin_registry url0 entry
                user_parameters ha) in
  forall page_size persist_mode a getenv0 getshell0,
    is_2xx r = false ->
    fst (open_remote urljoin plugin_registry container_map srv url0 entry
           container user_parameters description ha page_size persist_mode
           a getenv0 getshell0 w)
    = Raise (PyException (server_error_msg r)).

(** The page [fetch_page] builds from the entry records of an answer, and
    the entries [_load] builds from an inline list. *)
Definition page_entries (c : RemoteCatalog) (sources : list Source)
    : dict RemoteCatalogEntry :=
  dict_of_items
    (map (fun source =>
            (src_name source,
             RemoteCatalogEntry__init__ (url c) (auth c) (_page_size c)
               (pmode c) (getenv c) (getshell c) source))
         sources).

Definition inline_entries (c : RemoteCatalog) (sources : list Source)
    : dict RemoteCatalogEntry :=
  dict_of_items
    (map (fun source =>
            (src_name source,
             RemoteCatalogEntry__init__ (url c) (auth c) None "default"
               (getenv c) (getshell c) source))
         sources).

(** The catalog after its stored [http_args] went through
    [_get_http_args ps]. *)
Definition touched (c : RemoteCatalog) (ps : dict pyval) : RemoteCatalog :=
  set_http_args (kept_http_args c ps) c.

(** The catalog [search] builds for the scope [sid] out of the catalog [c],
    as its constructor hands it to the base class: not loaded yet. *)
Definition scoped (urljoin : string -> string -> string)
    (netloc : string -> string) (BaseClientAuth : Auth)
    (c : RemoteCatalog) (sid : string) : RemoteCatalog :=
  RemoteCatalog__init__attrs urljoin netloc BaseClientAuth (url c)
    (Some (http_args c)) None (Some "") (Some sid) None 1 true true None
    None (pmode c).

(** The address [open_remote] works with. *)
Definition open_url (url0 : string) : string :=
  if Str.startswith url0 "intake://"
  then Str.drop (String.length "intake://") url0 else url0.

(** What [open_remote] gives once the constructor it has called has given
    [o]: the object with its description set, or the exception. *)
Definition described (description : string) (o : Outcome ResolvedSource)
    : Outcome ResolvedSource :=
  match o with
  | Ok source => Ok (set_description description source)
  | Raise e => Raise e
  | OutOfFuel => OutOfFuel
  end.

(** The operations by which a catalog builds another one. *)
Definition is_search (o : Op) : bool :=
  match o with OpSearch _ _ => true | _ => false end.

(** The request is the one by which a catalog that a search on a catalog
    bound to [sid] has built loads itself. *)
Definition loads_a_search_result (urljoin : string -> string -> string)
    (netloc : string -> string) (BaseClientAuth : Auth) (sid : string)
    (rq : Request) : Prop :=
  exists c sid',
    _source_id c = Some sid
    /\ rq = load_request (scoped urljoin netloc BaseClientAuth c sid').

(** The claim on [search] as it is worded: a 2xx answer that carries a
    scope id makes [search] return a catalog bound to it. *)
Definition search_returns_on_2xx (urljoin : string -> string -> string)
    (netloc : string -> string) (BaseClientAuth : Auth) (srv : Server)
    (args : list pyval) (kw : dict pyval) (w : World) : Prop :=
  forall sid,
    is_2xx (srv (log w) (search_request (cat w) args kw)) = true ->
    content (srv (log w) (search_request (cat w) args kw))
    = SearchPayload sid ->
    exists child,
      fst (search urljoin netloc BaseClientAuth srv args kw w) = Ok child
      /\ _source_id child = Some sid.

(** The server pages through the fixed list [listed]: asked at [u] for
    [page_size] entries from an offset on, it answers with that slice. *)
Definition serves_pages (srv : Server) (u : string) (page_size : nat)
    (listed : list Source) : Prop :=
  forall l rq off,
    method rq = "GET" ->
    target rq = u ->
    dict_get "page_offset" (or_empty (params (req_args rq))) = Some (PInt off) ->
    dict_get "page_size" (or_empty (params (req_args rq)))
    = Some (PInt page_size) ->
    raise_for_status (srv l rq) = None
    /\ exists md len,
         content (srv l rq)
         = InfoPayload md len (firstn page_size (skipn off listed)).

(** The catalog after [_page_cache.update(page)] and
    [_page_offset += len(page)]. *)
Definition merge_page (page : dict RemoteCatalogEntry) (c : RemoteCatalog)
    : RemoteCatalog :=
  set_entries
    {| _page_cache := dict_update (_page_cache (_entries c)) page;
       _direct_lookup_cache := _direct_lookup_cache (_entries c);
       _page_offset := _page_offset (_entries c) + List.length page;
       complete := complete (_entries c) |} c.

(** The plugins an open answer lists: [pl = [pl] if isinstance(pl, str)
    else pl], and none without a ['plugin'] key. *)
Definition plugin_names (plugin : option Plugin) : list string :=
  match plugin with
  | Some (PluginStr p) => [p]
  | Some (PluginList pl) => pl
  | None => []
  end.

(** ** Dicts *)

Section DictFacts.

Variable V : Type.
Implicit Types (d : dict V) (k : string) (v : V).

Lemma dict_get_set_same d k v : dict_get k (dict_set k v d) = Some v.
Proof.
  induction d as [|[k' v'] d IH]; simpl.
  - now rewrite String.eqb_refl.
  - destruct (String.eqb k k') eqn:E; simpl; rewrite E; auto.
Qed.

Lemma dict_get_set_other d k k' v :
  k <> k' -> dict_get k (dict_set k' v d) = dict_get k d.
Proof.
  intros Hne. induction d as [|[k0 v0] d IH]; simpl.
  - destruct (String.eqb k k') eqn:E; auto.
    apply String.eqb_eq in E. contradiction.
  - destruct (String.eqb k' k0) eqn:E; simpl.
    + apply String.eqb_eq in E. subst k0.
      destruct (String.eqb k k') eqn:E'; auto.
      apply String.eqb_eq in E'. contradiction.
    + now rewrite IH.
Qed.

Lemma dict_update_nil d : dict_update d [] = d.
Proof. reflexivity. Qed.

Lemma dict_update_snoc d other k v :
  dict_update d (other ++ [(k, v)]) = dict_set k v (dict_update d other).
Proof. unfold dict_update. now rewrite fold_left_app. Qed.

Lemma dict_update_app d o1 o2 :
  dict_update d (o1 ++ o2) = dict_update (dict_update d o1) o2.
Proof. unfold dict_update. now rewrite fold_left_app. Qed.

(** After [d.update(other)] a key holds the last value [other] gives it,
    and otherwise the one it had. *)
Lemma dict_get_update d other k :
  dict_get k (dict_update d other)
  = match dict_get k (rev other) with
    | Some v => Some v
    | None => dict_get k d
    end.
Proof.
  induction other as [|[k' v'] other IH] using rev_ind; simpl; auto.
  rewrite dict_update_snoc, rev_app_distr. simpl.
  destruct (String.eqb k k') eqn:E.
  - apply String.eqb_eq in E. subst k'. apply dict_get_set_same.
  - rewrite dict_get_set_other; auto.
    intro Heq. subst k'. now rewrite String.eqb_refl in E.
Qed.

Lemma dict_mem_existsb d k :
  dict_mem k d = existsb (String.eqb k) (dict_keys d).
Proof.
  unfold dict_mem. induction d as [|[k' v'] d IH]; simpl; auto.
  destruct (String.eqb k k'); simpl; auto.
Qed.

Lemma dict_keys_set d k v :
  dict_keys (dict_set k v d)
  = if existsb (String.eqb k) (dict_keys d) then dict_keys d
    else dict_keys d ++ [k].
Proof.
  induction d as [|[k' v'] d IH]; simpl; auto.
  destruct (String.eqb k k') eqn:E; simpl; auto.
  rewrite IH. now destruct (existsb (String.eqb k) (dict_keys d)).
Qed.

(** The keys after [d.update(other)]. *)
Lemma dict_keys_update d other :
  dict_keys (dict_update d other)
  = key_merge (dict_keys d) (dict_keys other).
Proof.
  revert d. induction other as [|[k v] other IH]; intros d; simpl; auto.
  unfold dict_update, key_merge in *. simpl.
  rewrite IH, dict_keys_set. reflexivity.
Qed.

Lemma dict_set_fresh d k v :
  ~ In k (dict_keys d) -> dict_set k v d = d ++ [(k, v)].
Proof.
  induction d as [|[k' v'] d IH]; simpl; intros Hnin; auto.
  destruct (String.eqb k k') eqn:E.
  - apply String.eqb_eq in E. subst. exfalso. auto.
  - rewrite IH; auto.
Qed.

(** Updating with keys that are new and pairwise distinct appends them. *)
Lemma dict_update_fresh d other :
  NoDup (dict_keys d ++ dict_keys other) -> dict_update d other = d ++ other.
Proof.
  revert d. induction other as [|[k v] other IH]; intros d Hnd; simpl.
  - now rewrite app_nil_r.
  - unfold dict_update in *. simpl in *.
    rewrite dict_set_fresh.
    + rewrite IH.
      * now rewrite <- app_assoc.
      * unfold dict_keys in *. rewrite map_app. simpl.
        now rewrite <- app_assoc.
    + apply NoDup_remove_2 in Hnd. intro Hin. apply Hnd.
      apply in_or_app. now left.
Qed.

Lemma dict_set_NoDup d k v :
  NoDup (dict_keys d) -> NoDup (dict_keys (dict_set k v d)).
Proof.
  intros Hnd. rewrite dict_keys_set.
  destruct (existsb (String.eqb k) (dict_keys d)) eqn:E; auto.
  apply NoDup_app.
  - exact Hnd.
  - constructor; [intros []|constructor].
  - intros x Hin [Heq|[]]. subst x.
    assert (Ht : existsb (String.eqb k) (dict_keys d) = true).
    { apply existsb_exists. exists k. split; auto. apply String.eqb_refl. }
    congruence.
Qed.

Lemma dict_update_NoDup d other :
  NoDup (dict_keys d) -> NoDup (dict_keys (dict_update d other)).
Proof.
  revert d. induction other as [|[k v] other IH]; intros d Hnd; simpl; auto.
  apply IH. now apply dict_set_NoDup.
Qed.

(** A dict built from items has each key once, and updating the empty dict
    with it gives it back. *)
Lemma dict_of_items_NoDup (items : list (string * V)) :
  NoDup (dict_keys (dict_of_items items)).
Proof. apply dict_update_NoDup. constructor. Qed.

Lemma dict_update_empty d :
  NoDup (dict_keys d) -> dict_update [] d = d.
Proof. intros Hnd. now rewrite dict_update_fresh. Qed.

End DictFacts.

Lemma existsb_eqb_In (k : string) (l : list string) :
  existsb (String.eqb k) l = true <-> In k l.
Proof.
  rewrite existsb_exists. split.
  - intros [x [Hin E]]. apply String.eqb_eq in E. now subst.
  - intros Hin. exists k. split; auto. apply String.eqb_refl.
Qed.

Lemma key_merge_app (l a b : list string) :
  key_merge l (a ++ b) = key_merge (key_merge l a) b.
Proof. unfold key_merge. now rewrite fold_left_app. Qed.

(** Keys that are new and pairwise distinct are appended as they come. *)
Lemma key_merge_fresh (l ks : list string) :
  NoDup (l ++ ks) -> key_merge l ks = l ++ ks.
Proof.
  revert l. induction ks as [|k ks IH]; intros l Hnd; simpl.
  - now rewrite app_nil_r.
  - unfold key_merge in *. simpl.
    assert (Hk : existsb (String.eqb k) l = false).
    { destruct (existsb (String.eqb k) l) eqn:E; auto.
      apply existsb_eqb_In in E.
      apply NoDup_remove_2 in Hnd. exfalso. apply Hnd.
      apply in_or_app. now left. }
    rewrite Hk. rewrite IH.
    + now rewrite <- app_assoc.
    + now rewrite <- app_assoc.
Qed.

(** ** The program logic *)

Section Triples.

Variables (I : RemoteCatalog -> Prop) (P : Request -> Prop).

Lemma triple_ret {A} (a : A) (Q : A -> Prop) :
  Q a -> triple I P (ret a) Q.
Proof.
  intros Hq w Hi. simpl. repeat split; auto.
  - exists []. rewrite app_nil_r. auto.
  - intros a' E. inversion E. subst. exact Hq.
Qed.

Lemma triple_raise {A} (e : Exn) (Q : A -> Prop) :
  triple I P (raise e) Q.
Proof.
  intros w Hi. simpl. repeat split; auto.
  - exists []. rewrite app_nil_r. auto.
  - discriminate.
Qed.

Lemma triple_out_of_fuel {A} (Q : A -> Prop) :
  triple I P (@out_of_fuel A) Q.
Proof.
  intros w Hi. simpl. repeat split; auto.
  - exists []. rewrite app_nil_r. auto.
  - discriminate.
Qed.

Lemma triple_gets {A} (f : RemoteCatalog -> A) (Q : A -> Prop) :
  (forall c, I c -> Q (f c)) -> triple I P (gets f) Q.
Proof.
  intros Hq w Hi. simpl. repeat split; auto.
  - exists []. rewrite app_nil_r. auto.
  - intros a E. inversion E. subst. auto.
Qed.

Lemma triple_modify (f : RemoteCatalog -> RemoteCatalog) :
  (forall c, I c -> I (f c)) -> triple I P (modify f) (fun _ => True).
Proof.
  intros Hf w Hi. simpl. repeat split; auto.
  exists []. rewrite app_nil_r. auto.
Qed.

Lemma triple_bind {A B} (m : M A) (k : A -> M B)
    (Q : A -> Prop) (R : B -> Prop) :
  triple I P m Q ->
  (forall a, Q a -> triple I P (k a) R) ->
  triple I P (bind m k) R.
Proof.
  intros Hm Hk w Hi. unfold bind.
  destruct (Hm w Hi) as (Hi' & (l & Hl & Hp) & Hq).
  destruct (m w) as [[a| e |] w'] eqn:E; simpl in *.
  - destruct (Hk a (Hq a eq_refl) w' Hi') as (Hi2 & (l2 & Hl2 & Hp2) & Hr).
    repeat split; auto.
    exists (l ++ l2). rewrite Hl2, Hl, app_assoc. split; auto.
    apply Forall_app. auto.
  - repeat split; auto.
    + exists l. auto.
    + discriminate.
  - repeat split; auto.
    + exists l. auto.
    + discriminate.
Qed.

Lemma triple_weaken {A} (m : M A) (Q Q' : A -> Prop) :
  triple I P m Q -> (forall a, Q a -> Q' a) -> triple I P m Q'.
Proof.
  intros Hm Hq w Hi. destruct (Hm w Hi) as (H1 & H2 & H3).
  repeat split; auto.
Qed.

Lemma triple_send srv (m u : string) (ha : HttpArgs) (d : option Body) :
  P {| method := m; target := u; req_args := ha; data := d |} ->
  triple I P (send srv m u ha d) (fun _ => True).
Proof.
  intros Hp w Hi. simpl. repeat split; auto.
  eexists. split; [reflexivity|]. constructor; auto.
Qed.

End Triples.

(** ** What every operation of a catalog keeps *)

Section Invariants.

Variable srv : Server.
Variables (urljoin : string -> string -> string) (netloc : string -> string).
Variable BaseClientAuth : Auth.

Variables (I : RemoteCatalog -> Prop) (P : Request -> Prop).

(** [I] does not depend on what the operations assign. *)
Hypothesis I_http_args : forall h c, I c -> I (set_http_args h c).
Hypothesis I_entries : forall e c, I c -> I (set_entries e c).
Hypothesis I_len : forall l c, I c -> I (set_len l c).
Hypothesis I_metadata : forall m c, I c -> I (set_metadata m c).
Hypothesis I_unpaged : forall c, I c -> I (set_page_size None c).
(** A request built from the arguments of a catalog in [I] is in [P]. *)
Hypothesis P_sent : forall c ps m u d,
  I c ->
  P {| method := m; target := u; req_args := sent_http_args c ps; data := d |}.

Lemma _get_http_args_eq (ps : dict pyval) (w : World) :
  _get_http_args ps w
  = (Ok (sent_http_args (cat w) ps),
     {| cat := set_http_args (kept_http_args (cat w) ps) (cat w);
        log := log w |}).
Proof. reflexivity. Qed.

Lemma triple_get_http_args (ps : dict pyval) :
  triple I P (_get_http_args ps)
    (fun ha => exists c, I c /\ ha = sent_http_args c ps).
Proof.
  intros w Hi. rewrite _get_http_args_eq. simpl. repeat split; auto.
  - exists []. rewrite app_nil_r. auto.
  - intros a E. inversion E. subst. eauto.
Qed.

Lemma triple_round_trip {A} (ps : dict pyval) (m : string)
    (u : RemoteCatalog -> string) (d : option Body)
    (k : Response -> M A) :
  (forall r, triple I P (k r) (fun _ => True)) ->
  triple I P
    (bind (_get_http_args ps)
       (fun ha => bind (gets u) (fun x => bind (send srv m x ha d) k)))
    (fun _ => True).
Proof.
  intros Hk.
  eapply triple_bind; [apply triple_get_http_args|].
  intros ha (c & Hc & ->).
  eapply triple_bind; [apply triple_gets with (Q := fun _ => True); auto|].
  intros x _.
  eapply triple_bind; [apply triple_send; auto|].
  intros r _. apply Hk.
Qed.

Lemma triple_reset : triple I P reset (fun _ => True).
Proof. apply triple_modify. auto. Qed.

Lemma triple_fetch_page (page_offset : nat) :
  triple I P (fetch_page srv page_offset) (fun _ => True).
Proof.
  unfold fetch_page.
  eapply triple_bind; [apply triple_gets with (Q := fun _ => True); auto|].
  intros [size|] _; [|apply triple_raise].
  apply triple_round_trip. intros r.
  destruct (raise_for_status r); [apply triple_raise|].
  destruct (content r); try apply triple_raise.
  eapply triple_bind; [apply triple_gets with (Q := fun _ => True); auto|].
  intros c _. now apply triple_ret.
Qed.

Lemma triple_fetch_by_name (n : string) :
  triple I P (fetch_by_name srv n) (fun _ => True).
Proof.
  unfold fetch_by_name.
  apply triple_round_trip. intros r.
  destruct (status_code r =? 404); [apply triple_raise|].
  destruct (raise_for_status r); [apply triple_raise|].
  destruct (content r); try apply triple_raise.
  eapply triple_bind; [apply triple_gets with (Q := fun _ => True); auto|].
  intros c _. now apply triple_ret.
Qed.

Lemma triple_load : triple I P (_load srv) (fun _ => True).
Proof.
  unfold _load.
  eapply triple_bind; [apply triple_gets with (Q := fun _ => True); auto|].
  intros size _.
  apply triple_round_trip. intros r.
  destruct (raise_for_status r) as [err|].
  { destruct (Str.contains "403" (err_msg err)); apply triple_raise. }
  destruct (content r); try apply triple_raise.
  eapply triple_bind; [apply triple_modify; auto|]. intros _ _.
  eapply triple_bind; [apply triple_modify; auto|]. intros _ _.
  eapply triple_bind; [apply triple_reset|]. intros _ _.
  destruct sources; [now apply triple_ret|].
  eapply triple_bind; [apply triple_modify; auto|]. intros _ _.
  apply triple_modify. auto.
Qed.

Lemma triple_fetch_loop (fuel : nat) :
  triple I P (fetch_loop srv fuel) (fun _ => True).
Proof.
  induction fuel as [|fuel IH]; simpl; [apply triple_out_of_fuel|].
  eapply triple_bind; [apply triple_gets with (Q := fun _ => True); auto|].
  intros offset _.
  eapply triple_bind; [apply triple_fetch_page|]. intros page _.
  eapply triple_bind; [apply triple_modify; auto|]. intros _ _.
  eapply triple_bind; [apply triple_modify; auto|]. intros _ _.
  eapply triple_bind; [apply triple_gets with (Q := fun _ => True); auto|].
  intros [size|] _; [|apply triple_raise].
  destruct (List.length page <? size).
  - eapply triple_bind; [apply triple_modify; auto|]. intros _ _.
    now apply triple_ret.
  - eapply triple_bind; [apply IH|]. intros rest _. now apply triple_ret.
Qed.

Lemma triple_iter (fuel : nat) :
  triple I P (Entries__iter__ srv fuel) (fun _ => True).
Proof.
  unfold Entries__iter__.
  eapply triple_bind; [apply triple_gets with (Q := fun _ => True); auto|].
  intros cached _.
  eapply triple_bind; [apply triple_gets with (Q := fun _ => True); auto|].
  intros [size|] _; [|now apply triple_ret].
  eapply triple_bind; [apply triple_fetch_loop|]. intros rest _.
  now apply triple_ret.
Qed.

Lemma triple_fetch_loop_take (fuel : nat) :
  forall n, triple I P (fetch_loop_take srv fuel n) (fun _ => True).
Proof.
  induction fuel as [|fuel IH]; intros n; simpl; [apply triple_out_of_fuel|].
  eapply triple_bind; [apply triple_gets with (Q := fun _ => True); auto|].
  intros offset _.
  eapply triple_bind; [apply triple_fetch_page|]. intros page _.
  eapply triple_bind; [apply triple_modify; auto|]. intros _ _.
  eapply triple_bind; [apply triple_modify; auto|]. intros _ _.
  destruct (n <=? List.length page); [now apply triple_ret|].
  eapply triple_bind; [apply triple_gets with (Q := fun _ => True); auto|].
  intros [size|] _; [|apply triple_raise].
  destruct (List.length page <? size).
  - eapply triple_bind; [apply triple_modify; auto|]. intros _ _.
    now apply triple_ret.
  - eapply triple_bind; [apply IH|]. intros rest _. now apply triple_ret.
Qed.

Lemma triple_iter_take (fuel n : nat) :
  triple I P (Entries__iter__take srv fuel n) (fun _ => True).
Proof.
  unfold Entries__iter__take.
  eapply triple_bind; [apply triple_gets with (Q := fun _ => True); auto|].
  intros cached _.
  destruct (n <=? List.length cached); [now apply triple_ret|].
  eapply triple_bind; [apply triple_gets with (Q := fun _ => True); auto|].
  intros [size|] _; [|now apply triple_ret].
  eapply triple_bind; [apply triple_fetch_loop_take|]. intros rest _.
  now apply triple_ret.
Qed.

Lemma triple_getitem (key : string) :
  triple I P (Entries__getitem__ srv key) (fun _ => True).
Proof.
  unfold Entries__getitem__.
  eapply triple_bind; [apply triple_gets with (Q := fun _ => True); auto|].
  intros direct _.
  destruct (dict_get key direct); [now apply triple_ret|].
  eapply triple_bind; [apply triple_gets with (Q := fun _ => True); auto|].
  intros paged _.
  destruct (dict_get key paged); [now apply triple_ret|].
  eapply triple_bind; [apply triple_fetch_by_name|]. intros source _.
  eapply triple_bind; [apply triple_modify; auto|]. intros _ _.
  now apply triple_ret.
Qed.

Lemma triple_len (fuel : nat) :
  triple I P (RemoteCatalog__len__ srv fuel) (fun _ => True).
Proof.
  unfold RemoteCatalog__len__.
  eapply triple_bind; [apply triple_gets with (Q := fun _ => True); auto|].
  intros [n|] _; [now apply triple_ret|].
  eapply triple_bind; [apply triple_iter|]. intros keys _.
  now apply triple_ret.
Qed.

End Invariants.

(** ** The operations, equation by equation *)

Section Equations.

Variable srv : Server.
Variables (urljoin : string -> string -> string) (netloc : string -> string).
Variable BaseClientAuth : Auth.

Lemma set_entries_same (c : RemoteCatalog) : set_entries (_entries c) c = c.
Proof. now destruct c. Qed.

Lemma fetch_page_unpaged (page_offset : nat) (w : World) :
  _page_size (cat w) = None ->
  fetch_page srv page_offset w = (Raise TypeError, w).
Proof.
  intros Hps. unfold fetch_page, bind, gets. cbn [fst snd cat log].
  now rewrite Hps.
Qed.

(** [fetch_page]: one request, and the answer decides the outcome. *)
Lemma fetch_page_eq (page_offset page_size : nat) (w : World) :
  _page_size (cat w) = Some page_size ->
  fetch_page srv page_offset w
  = (let r := srv (log w) (page_request (cat w) page_offset page_size) in
     match raise_for_status r with
     | Some err =>
         Raise (RemoteCatalogError (page_error_msg page_offset page_size) err)
     | None =>
         match content r with
         | InfoPayload _ _ sources => Ok (page_entries (cat w) sources)
         | _ => Raise DecodeError
         end
     end,
     {| cat := touched (cat w) (page_params page_offset page_size);
        log := log w ++ [page_request (cat w) page_offset page_size] |}).
Proof.
  intros Hps.
  unfold fetch_page, bind, gets, requests_get, send.
  cbn [fst snd cat log]. rewrite Hps.
  rewrite _get_http_args_eq.
  cbn [fst snd cat log info_url set_http_args].
  change {| method := "GET"; target := info_url (cat w);
            req_args := sent_http_args (cat w)
                          [("page_offset", PInt page_offset);
                           ("page_size", PInt page_size)];
            data := None |}
    with (page_request (cat w) page_offset page_size).
  cbv zeta.
  destruct (raise_for_status _); [reflexivity|].
  destruct (content _); reflexivity.
Qed.

(** [fetch_by_name]: one request, and the answer decides the outcome. *)
Lemma fetch_by_name_eq (n : string) (w : World) :
  fetch_by_name srv n w
  = (let r := srv (log w) (name_request (cat w) n) in
     if status_code r =? 404 then Raise (KeyError n)
     else
       match raise_for_status r with
       | Some err => Raise (RemoteCatalogError (entry_error_msg n) err)
       | None =>
           match content r with
           | SourcePayload source =>
               Ok (RemoteCatalogEntry__init__ (url (cat w)) (auth (cat w))
                     (_page_size (cat w)) (pmode (cat w)) (getenv (cat w))
                     (getshell (cat w)) source)
           | _ => Raise DecodeError
           end
       end,
     {| cat := touched (cat w) [("name", PStr n)];
        log := log w ++ [name_request (cat w) n] |}).
Proof.
  unfold fetch_by_name, bind, gets, requests_get, send.
  rewrite _get_http_args_eq.
  cbn [fst snd cat log source_url set_http_args].
  change {| method := "GET"; target := source_url (cat w);
            req_args := sent_http_args (cat w) [("name", PStr n)];
            data := None |}
    with (name_request (cat w) n).
  cbv zeta.
  destruct (status_code _ =? 404); [reflexivity|].
  destruct (raise_for_status _); [reflexivity|].
  destruct (content _); reflexivity.
Qed.

(** [_load]: one request; an HTTP error raises according to its message. *)
Lemma _load_eq (w : World) :
  _load srv w
  = (let r := srv (log w) (load_request (cat w)) in
     let c := touched (cat w) (load_params (cat w)) in
     let sent := log w ++ [load_request (cat w)] in
     match raise_for_status r with
     | Some err =>
         (if Str.contains "403" (err_msg err)
          then Raise (AuthenticationFailure auth_failure_msg)
          else Raise (RemoteCatalogError "Failed to fetch metadata." err),
          {| cat := c; log := sent |})
     | None =>
         match content r with
         | InfoPayload md len [] =>
             (Ok tt,
              {| cat := set_entries (Entries__init__ (_page_size c))
                          (set_len len (set_metadata (MetaOfInfo md) c));
                 log := sent |})
         | InfoPayload md len sources =>
             (Ok tt,
              {| cat := set_entries
                          (set_page_cache
                             (dict_update [] (inline_entries c sources))
                             (Entries__init__ (_page_size c)))
                          (set_page_size None
                             (set_len len (set_metadata (MetaOfInfo md) c)));
                 log := sent |})
         | _ => (Raise DecodeError, {| cat := c; log := sent |})
         end
     end).
Proof.
  unfold _load, bind, gets, requests_get, send.
  rewrite _get_http_args_eq.
  cbn [fst snd cat log info_url set_http_args].
  change (match _page_size (cat w) with
          | Some _ => [("page_offset", PInt 0); ("page_size", PInt 0)]
          | None => []
          end) with (load_params (cat w)).
  change {| method := "GET"; target := info_url (cat w);
            req_args := sent_http_args (cat w) (load_params (cat w));
            data := None |}
    with (load_request (cat w)).
  cbv zeta.
  destruct (raise_for_status _) as [err|].
  { destruct (Str.contains "403" (err_msg err)); reflexivity. }
  destruct (content _); try reflexivity.
  destruct sources; reflexivity.
Qed.

(** [_load] sends one request, whatever the answer. *)
Lemma load_log (w : World) :
  log (snd (_load srv w)) = log w ++ [load_request (cat w)].
Proof.
  rewrite _load_eq. cbv zeta.
  destruct (raise_for_status _); [reflexivity|].
  destruct (content _) as [md len [|s sources]| | | |]; reflexivity.
Qed.

(** [_load] never runs out of fuel: it has no loop. *)
Lemma load_returns (w : World) :
  fst (_load srv w) = Ok tt \/ exists e, fst (_load srv w) = Raise e.
Proof.
  rewrite _load_eq. cbv zeta.
  destruct (raise_for_status _) as [err|].
  { right. destruct (Str.contains "403" (err_msg err)); eexists; reflexivity. }
  destruct (content _) as [md len [|s sources]| | | |];
    solve [ left; reflexivity | right; eexists; reflexivity ].
Qed.

(** The constructor: the attributes, then the load of the base class. *)
Lemma init_eq (url0 : string) (http_args0 : option HttpArgs)
    (page_size : option nat) (name0 source_id : option string)
    (auth0 : option Auth) (ttl0 : nat) (getenv0 getshell0 : bool)
    (storage_options : option HttpArgs) (parameters : option (dict pyval))
    (persist_mode : string) (l : list Request) :
  RemoteCatalog__init__ urljoin netloc BaseClientAuth srv url0 http_args0
    page_size name0 source_id auth0 ttl0 getenv0 getshell0 storage_options
    parameters persist_mode l
  = (let w := {| cat := RemoteCatalog__init__attrs urljoin netloc
                          BaseClientAuth url0 http_args0 page_size name0
                          source_id auth0 ttl0 getenv0 getshell0
                          storage_options parameters persist_mode;
                 log := l |} in
     (match fst (_load srv w) with
      | Ok _ => Ok (cat (snd (_load srv w)))
      | Raise e => Raise e
      | OutOfFuel => OutOfFuel
      end,
      [load_request (cat w)])).
Proof.
  unfold RemoteCatalog__init__, Catalog__init__. cbv zeta.
  rewrite load_log. cbn [log cat].
  rewrite skipn_app, skipn_all, Nat.sub_diag. reflexivity.
Qed.

(** [search]: one request; on a usable answer, the constructor of the new
    catalog, which sends the request of its load. *)
Lemma search_eq (args : list pyval) (kw : dict pyval) (w : World) :
  search urljoin netloc BaseClientAuth srv args kw w
  = (let r := srv (log w) (search_request (cat w) args kw) in
     let sent := log w ++ [search_request (cat w) args kw] in
     match raise_for_status r with
     | Some err =>
         (Raise (RemoteCatalogError "Failed search query." err),
          {| cat := touched (cat w) []; log := sent |})
     | None =>
         match content r with
         | SearchPayload source_id =>
             let new := {| cat := scoped urljoin netloc BaseClientAuth
                                    (touched (cat w) []) source_id;
                           log := sent |} in
             (match fst (_load srv new) with
              | Ok _ => Ok (cat (snd (_load srv new)))
              | Raise e => Raise e
              | OutOfFuel => OutOfFuel
              end,
              {| cat := touched (cat w) [];
                 log := sent ++ [load_request (cat new)] |})
         | _ => (Raise DecodeError,
                 {| cat := touched (cat w) []; log := sent |})
         end
     end).
Proof.
  unfold search, bind, gets, requests_post, send.
  rewrite _get_http_args_eq.
  cbn [fst snd cat log source_url set_http_args].
  change {| method := "POST"; target := source_url (cat w);
            req_args := sent_http_args (cat w) [];
            data := Some (SearchBody args kw (_source_id (cat w))) |}
    with (search_request (cat w) args kw).
  cbv zeta.
  destruct (raise_for_status _); [reflexivity|].
  destruct (content _); try reflexivity.
  unfold call. rewrite init_eq. reflexivity.
Qed.

End Equations.

(** ** What a catalog's life keeps *)

Section Life.

Variable srv : Server.
Variables (urljoin : string -> string -> string) (netloc : string -> string).
Variable BaseClientAuth : Auth.

Variables (I : RemoteCatalog -> Prop) (P : Request -> Prop).

Hypothesis I_http_args : forall h c, I c -> I (set_http_args h c).
Hypothesis I_entries : forall e c, I c -> I (set_entries e c).
Hypothesis I_len : forall l c, I c -> I (set_len l c).
Hypothesis I_metadata : forall m c, I c -> I (set_metadata m c).
Hypothesis I_unpaged : forall c, I c -> I (set_page_size None c).
Hypothesis P_sent : forall c ps m u d,
  I c ->
  P {| method := m; target := u; req_args := sent_http_args c ps; data := d |}.
(** The request by which a catalog that [search] has built loads itself. *)
Hypothesis P_built : forall c sid,
  I c -> P (load_request (scoped urljoin netloc BaseClientAuth c sid)).

Lemma triple_search (args : list pyval) (kw : dict pyval) :
  triple I P (search urljoin netloc BaseClientAuth srv args kw)
    (fun _ => True).
Proof.
  intros w Hi. rewrite search_eq. cbv zeta.
  assert (Hown : P (search_request (cat w) args kw))
    by (unfold search_request; now apply P_sent).
  assert (Hkept : I (touched (cat w) []))
    by (unfold touched; now apply I_http_args).
  destruct (raise_for_status _).
  { cbn [fst snd cat log]. repeat split; auto.
    exists [search_request (cat w) args kw]. auto. }
  destruct (content _) as [| |sid| |]; cbn [fst snd cat log];
    try (repeat split; auto;
         exists [search_request (cat w) args kw]; now auto).
  repeat split; auto.
  exists [search_request (cat w) args kw;
          load_request (scoped urljoin netloc BaseClientAuth
                          (touched (cat w) []) sid)].
  split; [now rewrite <- app_assoc|].
  repeat constructor; auto.
Qed.

(** One operation, then any number of them. *)
Lemma run_op_keeps (o : Op) (w : World) :
  I (cat w) ->
  I (cat (run_op urljoin netloc BaseClientAuth srv o w))
  /\ exists l, log (run_op urljoin netloc BaseClientAuth srv o w) = log w ++ l
               /\ Forall P l.
Proof.
  intros Hi.
  destruct o; simpl.
  - destruct (@triple_load srv I P) with (w := w) as (H1 & H2 & _); auto.
  - destruct (@triple_reset I P) with (w := w) as (H1 & H2 & _); auto.
  - destruct (@triple_iter srv I P) with (fuel := fuel) (w := w)
      as (H1 & H2 & _); auto.
  - destruct (@triple_iter_take srv I P) with (fuel := fuel) (n := n) (w := w)
      as (H1 & H2 & _); auto.
  - destruct (@triple_getitem srv I P) with (key := key) (w := w)
      as (H1 & H2 & _); auto.
  - destruct (@triple_len srv I P) with (fuel := fuel) (w := w)
      as (H1 & H2 & _); auto.
  - split; auto. exists []. rewrite app_nil_r. auto.
  - destruct (@triple_fetch_page srv I P) with (page_offset := page_offset)
      (w := w) as (H1 & H2 & _); auto.
  - destruct (@triple_fetch_by_name srv I P) with (n := n) (w := w)
      as (H1 & H2 & _); auto.
  - destruct (triple_search args kw w Hi) as (H1 & H2 & _); auto.
  - destruct (@triple_get_http_args I P) with (ps := ps) (w := w)
      as (H1 & H2 & _); auto.
Qed.

Lemma run_ops_keeps (ops : list Op) (w : World) :
  I (cat w) ->
  I (cat (run_ops urljoin netloc BaseClientAuth srv ops w))
  /\ exists l, log (run_ops urljoin netloc BaseClientAuth srv ops w) = log w ++ l
               /\ Forall P l.
Proof.
  revert w. induction ops as [|o ops IH]; intros w Hi; simpl.
  - split; auto. exists []. rewrite app_nil_r. auto.
  - destruct (run_op_keeps o w Hi) as (Hi1 & l1 & Hl1 & Hp1).
    destruct (IH _ Hi1) as (Hi2 & l2 & Hl2 & Hp2).
    split; auto.
    exists (l1 ++ l2). unfold run_ops in *. simpl in *.
    rewrite Hl2, Hl1, app_assoc. split; auto. apply Forall_app. auto.
Qed.

(** Without a search every request is the catalog's own. *)
Lemma run_op_keeps_own (o : Op) (w : World) :
  is_search o = false ->
  I (cat w) ->
  I (cat (run_op urljoin netloc BaseClientAuth srv o w))
  /\ exists l, log (run_op urljoin netloc BaseClientAuth srv o w) = log w ++ l
               /\ Forall P l.
Proof.
  intros Hown Hi.
  destruct o; simpl; try discriminate Hown.
  - destruct (@triple_load srv I P) with (w := w) as (H1 & H2 & _); auto.
  - destruct (@triple_reset I P) with (w := w) as (H1 & H2 & _); auto.
  - destruct (@triple_iter srv I P) with (fuel := fuel) (w := w)
      as (H1 & H2 & _); auto.
  - destruct (@triple_iter_take srv I P) with (fuel := fuel) (n := n) (w := w)
      as (H1 & H2 & _); auto.
  - destruct (@triple_getitem srv I P) with (key := key) (w := w)
      as (H1 & H2 & _); auto.
  - destruct (@triple_len srv I P) with (fuel := fuel) (w := w)
      as (H1 & H2 & _); auto.
  - split; auto. exists []. rewrite app_nil_r. auto.
  - destruct (@triple_fetch_page srv I P) with (page_offset := page_offset)
      (w := w) as (H1 & H2 & _); auto.
  - destruct (@triple_fetch_by_name srv I P) with (n := n) (w := w)
      as (H1 & H2 & _); auto.
  - destruct (@triple_get_http_args I P) with (ps := ps) (w := w)
      as (H1 & H2 & _); auto.
Qed.

Lemma run_ops_keeps_own (ops : list Op) (w : World) :
  Forall (fun o => is_search o = false) ops ->
  I (cat w) ->
  I (cat (run_ops urljoin netloc BaseClientAuth srv ops w))
  /\ exists l, log (run_ops urljoin netloc BaseClientAuth srv ops w) = log w ++ l
               /\ Forall P l.
Proof.
  revert w. induction ops as [|o ops IH]; intros w Hown Hi; simpl.
  - split; auto. exists []. rewrite app_nil_r. auto.
  - inversion Hown as [|? ? Ho Hrest]; subst.
    destruct (run_op_keeps_own o w Ho Hi) as (Hi1 & l1 & Hl1 & Hp1).
    destruct (IH _ Hrest Hi1) as (Hi2 & l2 & Hl2 & Hp2).
    split; auto.
    exists (l1 ++ l2). unfold run_ops in *. simpl in *.
    rewrite Hl2, Hl1, app_assoc. split; auto. apply Forall_app. auto.
Qed.

End Life.

(** The catalog the constructor returns is the object it has built, loaded:
    on the instances, [Fixture.connect] followed by [OpLoad]. *)
Lemma constructor_loads (srv : Server) (u : string) (page_size : option nat)
    (a : option Auth) :
  RemoteCatalog__init__ Fixture.urljoin Fixture.netloc Fixture.BaseClientAuth
    srv u None page_size None None a 1 true true None None "default" []
  = (match fst (_load srv (Fixture.connect u page_size a)) with
     | Ok _ =>
         Ok (cat (Fixture.run srv [OpLoad] (Fixture.connect u page_size a)))
     | Raise e => Raise e
     | OutOfFuel => OutOfFuel
     end,
     log (Fixture.run srv [OpLoad] (Fixture.connect u page_size a))).
Proof.
  rewrite init_eq. cbv zeta.
  unfold Fixture.run, run_ops. cbn [fold_left run_op].
  rewrite load_log. reflexivity.
Qed.

Lemma constructor_gives_loaded_world :
  RemoteCatalog__init__ Fixture.urljoin Fixture.netloc Fixture.BaseClientAuth
    Fixture.paged Fixture.localhost None (Some 2) None None None 1 true true
    None None "default" []
  = (Ok (cat Fixture.loaded_world), log Fixture.loaded_world).
Proof.
  rewrite constructor_loads.
  assert (Hok : fst (_load Fixture.paged
                       (Fixture.connect Fixture.localhost (Some 2) None))
                = Ok tt) by (vm_compute; reflexivity).
  rewrite Hok. reflexivity.
Qed.

(** [_load] assigns the metadata, the length, the entries and, to turn
    pagination off, the page size; the stored [http_args] go through
    [_get_http_args]. *)
Lemma load_keeps (srv : Server) (w : World) :
  let c := cat (snd (_load srv w)) in
  url c = url (cat w)
  /\ info_url c = info_url (cat w)
  /\ source_url c = source_url (cat w)
  /\ _source_id c = _source_id (cat w)
  /\ auth c = auth (cat w)
  /\ ttl c = ttl (cat w)
  /\ getenv c = getenv (cat w)
  /\ getshell c = getshell (cat w)
  /\ _parameters c = _parameters (cat w)
  /\ pmode c = pmode (cat w)
  /\ name c = name (cat w)
  /\ (_page_size (cat w) = None -> _page_size c = None).
Proof.
  rewrite _load_eq. cbv zeta.
  destruct (raise_for_status _) as [err|].
  { cbn [snd cat]. unfold touched. cbn. repeat split; auto. }
  destruct (content _) as [md len [|s sources]| | | |];
    cbn [snd cat]; unfold touched; cbn; repeat split; auto.
Qed.

Ltac simp_state :=
  cbn [touched set_http_args set_entries set_page_offset set_page_cache
       set_direct_lookup_cache set_complete set_len set_metadata set_page_size
       url info_url source_url http_args _page_size _source_id _parameters
       _len auth name metadata ttl getenv getshell pmode _entries
       _page_cache _direct_lookup_cache _page_offset complete
       cat log fst snd page_tier direct_tier] in *.

(** ** Draining the iterator *)

Section Iteration.

Variable srv : Server.

Lemma fetch_loop_ok fuel : forall w ks w',
  fetch_loop srv fuel w = (Ok ks, w') ->
  (exists ps, _page_size (cat w') = Some ps /\ 0 < ps)
  /\ dict_keys (page_tier w') = key_merge (dict_keys (page_tier w)) ks
  /\ direct_tier w' = direct_tier w
  /\ complete (_entries (cat w')) = true.
Proof.
  induction fuel as [|fuel IH]; intros w ks w' H; [discriminate|].
  cbn [fetch_loop] in H. unfold bind at 1 in H. unfold gets at 1 in H.
  unfold bind at 1 in H.
  destruct (_page_size (cat w)) as [ps|] eqn:Hps.
  2:{ rewrite fetch_page_unpaged in H by auto. discriminate. }
  rewrite (fetch_page_eq srv _ _ Hps) in H. cbv zeta in H.
  destruct (raise_for_status _); [discriminate|].
  destruct (content _) as [md len sources| | | |]; try discriminate.
  unfold bind, modify, gets, ret in H. simp_state. rewrite Hps in H.
  destruct (_ <? ps) eqn:Hlt.
  - inversion H; subst; clear H. simp_state.
    repeat split; auto.
    + exists ps. split; auto. apply Nat.ltb_lt in Hlt. lia.
    + apply dict_keys_update.
  - destruct (fetch_loop srv fuel _) as [[rest| |] w2] eqn:E; try discriminate.
    inversion H; subst; clear H.
    apply IH in E. simp_state. destruct E as (E1 & E2 & E3 & E4).
    repeat split; auto.
    rewrite E2, dict_keys_update, key_merge_app. reflexivity.
Qed.

Lemma log_grows {A} (m : M A) (w : World) :
  triple (fun _ => True) (fun _ => True) m (fun _ => True) ->
  exists l, log (snd (m w)) = log w ++ l.
Proof.
  intros H. destruct (H w I) as (_ & (l & Hl & _) & _). eauto.
Qed.

Lemma fetch_loop_sends (fuel ps : nat) (w : World) :
  _page_size (cat w) = Some ps ->
  exists more,
    log (snd (fetch_loop srv (S fuel) w))
    = log w ++ page_request (cat w) (_page_offset (_entries (cat w))) ps :: more.
Proof.
  intros Hps. cbn [fetch_loop]. unfold bind at 1. unfold gets at 1.
  unfold bind at 1. rewrite (fetch_page_eq srv _ _ Hps). cbv zeta.
  destruct (raise_for_status _); [exists []; reflexivity|].
  destruct (content _) as [md len sources| | | |];
    try (exists []; reflexivity).
  unfold bind, modify, gets, ret. simp_state. rewrite Hps.
  destruct (_ <? ps).
  - exists []. reflexivity.
  - match goal with |- context [fetch_loop srv fuel ?w2] =>
      destruct (@log_grows _ (fetch_loop srv fuel) w2) as [l Hl] end.
    { apply triple_fetch_loop; auto. }
    destruct (fetch_loop srv fuel _) as [[rest| |] w2]; simp_state;
      exists l; rewrite Hl; simp_state; now rewrite <- app_assoc.
Qed.

Lemma iter_unpaged (fuel : nat) (w : World) :
  _page_size (cat w) = None ->
  Entries__iter__ srv fuel w = (Ok (dict_keys (page_tier w)), w).
Proof.
  intros Hps. unfold Entries__iter__, bind, gets. simp_state.
  now rewrite Hps.
Qed.

Lemma iter_keeps_page_size (fuel : nat) (w : World) :
  _page_size (cat (snd (Entries__iter__ srv fuel w))) = _page_size (cat w).
Proof.
  assert (H : triple (fun c => _page_size c = _page_size (cat w))
                (fun _ => True) (Entries__iter__ srv fuel) (fun _ => True)).
  { apply triple_iter; auto. }
  now destruct (H w eq_refl) as (H1 & _).
Qed.

Lemma set_complete_same (e : Entries) :
  complete e = true -> set_complete true e = e.
Proof. destruct e; simpl; intros ->; reflexivity. Qed.

(** The resumed loop when the page at the offset last reached is empty:
    one request, nothing new cached, the offset and the flag as they were. *)
Lemma fetch_loop_empty_page (fuel ps : nat) (w w' : World) :
  _page_size (cat w) = Some ps ->
  0 < ps ->
  complete (_entries (cat w)) = true ->
  fetch_page srv (_page_offset (_entries (cat w))) w = (Ok [], w') ->
  exists w2,
    fetch_loop srv (S fuel) w = (Ok [], w2)
    /\ _entries (cat w2) = _entries (cat w)
    /\ log w2
       = log w ++ [page_request (cat w) (_page_offset (_entries (cat w))) ps].
Proof.
  intros Hps Hpos Hc Hpage.
  cbn [fetch_loop]. unfold bind at 1. unfold gets at 1. unfold bind at 1.
  rewrite Hpage.
  rewrite (fetch_page_eq srv _ _ Hps) in Hpage. cbv zeta in Hpage.
  inversion Hpage as [[Hres Hw]]. clear Hpage Hres.
  unfold bind, modify, gets, ret. simp_state. rewrite Hps.
  destruct ps as [|ps]; [lia|]. cbn [List.length Nat.ltb Nat.leb].
  simp_state.
  eexists. split; [reflexivity|]. simp_state. split; [|reflexivity].
  rewrite dict_update_nil, Nat.add_0_r.
  destruct (cat w) as [? ? ? ? ? ? ? ? ? ? ? ? ? ? ? e]. simp_state.
  destruct e. simp_state. now rewrite Hc.
Qed.

(** What a completed call leaves: with distinct names, the page tier holds
    exactly the keys that were yielded, in that order. *)
Lemma iter_ok (fuel : nat) (w0 w1 : World) (ks : list string) :
  Entries__iter__ srv fuel w0 = (Ok ks, w1) ->
  NoDup ks ->
  dict_keys (page_tier w1) = ks
  /\ (forall ps, _page_size (cat w1) = Some ps ->
      0 < ps /\ complete (_entries (cat w1)) = true).
Proof.
  intros Hrun Hnd.
  unfold Entries__iter__, bind, gets in Hrun. simp_state.
  destruct (_page_size (cat w0)) as [ps0|] eqn:Hps0.
  - destruct (fetch_loop srv fuel w0) as [[rest| |] w'] eqn:E;
      try discriminate.
    inversion Hrun; subst; clear Hrun.
    apply fetch_loop_ok in E. destruct E as ((ps' & E1 & E1') & E2 & E3 & E4).
    split.
    + rewrite E2. now apply key_merge_fresh.
    + intros ps Hps. split; auto. congruence.
  - inversion Hrun; subst. split; auto. congruence.
Qed.

(** A paginated catalog sends a page request whenever it is iterated. *)
Lemma iter_sends (fuel ps : nat) (w : World) :
  _page_size (cat w) = Some ps ->
  exists more,
    log (snd (Entries__iter__ srv (S fuel) w))
    = log w ++ page_request (cat w) (_page_offset (_entries (cat w))) ps
      :: more.
Proof.
  intros Hps. unfold Entries__iter__, bind, gets. simp_state.
  rewrite Hps.
  destruct (@fetch_loop_sends fuel ps w Hps) as [more Hmore].
  exists more.
  destruct (fetch_loop srv (S fuel) w) as [[rest| |] w2]; exact Hmore.
Qed.

End Iteration.

(** * The claims *)

(** ** C1: iterating twice *)

(** C1, as amended.  After an iteration that ran to its end and yielded
    pairwise distinct names: an unpaginated catalog yields the same sequence
    again and sends nothing; a paginated one yields the cached names and then
    resumes fetching at the offset last reached, so a second call always
    sends at least one more page request, and when that page comes back empty
    it yields the identical sequence, leaves the entries container as it was
    and has sent exactly that one request; whatever the page holds, a second
    call that returns has yielded the first sequence and then what it
    fetched. *)
Theorem iterate_again_resumes (srv : Server) (fuel : nat) (w0 w1 : World)
    (ks : list string) :
  Entries__iter__ srv fuel w0 = (Ok ks, w1) ->
  NoDup ks ->
  (_page_size (cat w1) = None ->
   forall fuel', Entries__iter__ srv fuel' w1 = (Ok ks, w1))
  /\ (forall ps, _page_size (cat w1) = Some ps ->
      (forall fuel', exists more,
          log (snd (Entries__iter__ srv (S fuel') w1))
          = log w1
            ++ page_request (cat w1) (_page_offset (_entries (cat w1))) ps
            :: more)
      /\ (forall w1',
            fetch_page srv (_page_offset (_entries (cat w1))) w1
            = (Ok [], w1') ->
            forall fuel', exists w2,
              Entries__iter__ srv (S fuel') w1 = (Ok ks, w2)
              /\ _entries (cat w2) = _entries (cat w1)
              /\ log w2
                 = log w1
                   ++ [page_request (cat w1)
                         (_page_offset (_entries (cat w1))) ps])
      /\ (forall fuel' ks',
            fst (Entries__iter__ srv fuel' w1) = Ok ks' ->
            exists fetched, ks' = ks ++ fetched)).
Proof.
  intros Hrun Hnd.
  destruct (@iter_ok srv fuel w0 w1 ks Hrun Hnd) as [Hkeys Hdone].
  split.
  - intros Hnone fuel'. rewrite iter_unpaged by auto. now rewrite Hkeys.
  - intros ps Hps. split; [|split].
    + intros fuel'. exact (@iter_sends srv fuel' ps w1 Hps).
    + intros w1' Hpage fuel'.
      destruct (Hdone ps Hps) as [Hpos Hc].
      destruct (@fetch_loop_empty_page srv fuel' ps w1 w1' Hps Hpos Hc Hpage)
        as (w2 & Hloop & Hentries & Hlog).
      exists w2. split; [|auto].
      unfold Entries__iter__, bind, gets. simp_state.
      rewrite Hps, Hloop. simp_state. unfold page_tier in Hkeys.
      now rewrite Hkeys, app_nil_r.
    + intros fuel' ks'.
      unfold Entries__iter__, bind, gets. simp_state. rewrite Hps.
      unfold page_tier in Hkeys. rewrite Hkeys.
      destruct (fetch_loop srv fuel' w1) as [[fetched|e|] w'];
        cbn [fst]; intros Hks; inversion Hks. eauto.
Qed.

(** The five entries paged by two: the second call sends the request for
    offset 5 and yields [a] to [e] again. *)
Lemma iterate_again_resumes_witness :
  Entries__iter__ Fixture.paged 10 Fixture.loaded_world
  = (Ok ["a"; "b"; "c"; "d"; "e"], Fixture.drained_world)
  /\ NoDup ["a"; "b"; "c"; "d"; "e"]
  /\ exists w2,
       Entries__iter__ Fixture.paged 1 Fixture.drained_world
       = (Ok ["a"; "b"; "c"; "d"; "e"], w2)
       /\ _entries (cat w2) = _entries (cat Fixture.drained_world)
       /\ log w2
          = log Fixture.drained_world
            ++ [page_request (cat Fixture.drained_world)
                  (_page_offset (_entries (cat Fixture.drained_world))) 2].
Proof.
  assert (Hrun : Entries__iter__ Fixture.paged 10 Fixture.loaded_world
                 = (Ok ["a"; "b"; "c"; "d"; "e"], Fixture.drained_world))
    by (vm_compute; reflexivity).
  assert (Hnd : NoDup ["a"; "b"; "c"; "d"; "e"]).
  { repeat constructor; simpl; intuition discriminate. }
  split; [exact Hrun|]. split; [exact Hnd|].
  destruct (@iterate_again_resumes Fixture.paged 10 _ _ _ Hrun Hnd)
    as [_ Hpaged].
  assert (Hps : _page_size (cat Fixture.drained_world) = Some 2)
    by (vm_compute; reflexivity).
  destruct (Hpaged 2 Hps) as (_ & Hempty & _).
  assert (Hp : fetch_page Fixture.paged
            (_page_offset (_entries (cat Fixture.drained_world)))
            Fixture.drained_world
          = (Ok [], snd (fetch_page Fixture.paged 5 Fixture.drained_world)))
    by (vm_compute; reflexivity).
  exact (Hempty _ Hp 0).
Defined.

(** C1 as worded fails on the five entries paged by two: no second call
    yields them without sending a request. *)
Lemma second_iterate_sends_a_request :
  ~ second_iterate_is_free Fixture.paged Fixture.loaded_world.
Proof.
  intros Hfree.
  assert (H0 : Entries__iter__ Fixture.paged 10 Fixture.loaded_world
               = (Ok ["a"; "b"; "c"; "d"; "e"], Fixture.drained_world))
    by (vm_compute; reflexivity).
  destruct (Hfree 10 ["a"; "b"; "c"; "d"; "e"] Fixture.drained_world H0)
    as (fuel' & w2 & Hrun & Hlog).
  destruct fuel' as [|fuel'].
  - apply (f_equal fst) in Hrun. vm_compute in Hrun. discriminate Hrun.
  - assert (Hps : _page_size (cat Fixture.drained_world) = Some 2)
      by (vm_compute; reflexivity).
    destruct (@iter_sends Fixture.paged fuel' 2 Fixture.drained_world Hps)
      as [more Hmore].
    rewrite Hrun in Hmore. cbn [snd] in Hmore. rewrite Hlog in Hmore.
    apply (f_equal (@List.length _)) in Hmore.
    rewrite length_app in Hmore. cbn [List.length] in Hmore. lia.
Qed.

(** ** C2 and C3: the server that sends everything inline *)

Lemma http_error_2xx (r : Response) :
  is_2xx r = true -> raise_for_status r = None.
Proof.
  unfold is_2xx, raise_for_status, is_http_error. intros H.
  apply andb_prop in H. destruct H as [_ H]. apply Nat.ltb_lt in H.
  destruct (400 <=? status_code r) eqn:E; auto.
  apply Nat.leb_le in E. lia.
Qed.

(** C2.  When a page size was requested and the metadata answer carries a
    non-empty inline list, [_load] succeeds, sets the page size to [None]
    and puts the inline entries in the page tier; whatever the catalog does
    afterwards, the page size stays [None] and every iteration returns the
    cached names and leaves the state, log included, as it was. *)
Theorem inline_sources_force_pagination_off (srv : Server)
    (urljoin : string -> string -> string) (netloc : string -> string)
    (BaseClientAuth : Auth) (w : World) (ps : nat)
    (md : dict pyval) (len : option nat) (s : Source) (sources : list Source) :
  _page_size (cat w) = Some ps ->
  raise_for_status (srv (log w) (load_request (cat w))) = None ->
  content (srv (log w) (load_request (cat w)))
  = InfoPayload md len (s :: sources) ->
  fst (_load srv w) = Ok tt
  /\ _page_size (cat (snd (_load srv w))) = None
  /\ page_tier (snd (_load srv w)) = inline_entries (cat w) (s :: sources)
  /\ forall ops fuel,
       let w' := run_ops urljoin netloc BaseClientAuth srv ops
                   (snd (_load srv w)) in
       _page_size (cat w') = None
       /\ Entries__iter__ srv fuel w' = (Ok (dict_keys (page_tier w')), w').
Proof.
  intros Hps Hok Hinline.
  rewrite _load_eq. cbv zeta. rewrite Hok, Hinline. simp_state.
  split; [reflexivity|]. split; [reflexivity|]. split.
  - unfold page_tier. simp_state.
    apply dict_update_empty, dict_of_items_NoDup.
  - intros ops fuel.
    match goal with
    | |- _ /\ Entries__iter__ srv fuel ?x = _ => set (w' := x)
    end.
    assert (Hoff : _page_size (cat w') = None).
    { apply (@run_ops_keeps srv urljoin netloc BaseClientAuth
               (fun c => _page_size c = None) (fun _ => True)); auto. }
    split; [exact Hoff|]. now apply iter_unpaged.
Qed.

(** A page size of two against the server that ignores paging. *)
Lemma inline_sources_force_pagination_off_witness :
  _page_size (cat Fixture.fresh_world) = Some 2
  /\ fst (_load Fixture.legacy Fixture.fresh_world) = Ok tt
  /\ _page_size (cat (snd (_load Fixture.legacy Fixture.fresh_world))) = None
  /\ dict_keys (page_tier (snd (_load Fixture.legacy Fixture.fresh_world)))
     = ["a"; "b"; "c"; "d"; "e"].
Proof.
  assert (Hps : _page_size (cat Fixture.fresh_world) = Some 2)
    by (vm_compute; reflexivity).
  destruct (@inline_sources_force_pagination_off Fixture.legacy
              Fixture.urljoin Fixture.netloc Fixture.BaseClientAuth
              Fixture.fresh_world 2 [] None
              (Fixture.source_named "a" "listed")
              (List.tl Fixture.abcde) Hps)
    as (Hrun & Hoff & Htier & _); try (vm_compute; reflexivity).
  split; [exact Hps|]. split; [exact Hrun|]. split; [exact Hoff|].
  rewrite Htier. vm_compute; reflexivity.
Defined.

(** [__init__] and [reset] tie the flag to the page size. *)
Lemma init_complete (page_size : option nat) :
  complete (Entries__init__ page_size) = is_None page_size.
Proof. reflexivity. Qed.

Lemma reset_complete (w : World) :
  complete (_entries (cat (snd (reset w)))) = is_None (_page_size (cat w)).
Proof. reflexivity. Qed.

(** [_load] resets before it turns pagination off: whenever a page size was
    requested and the answer carries inline entries, the flag is left
    false. *)
Lemma inline_load_leaves_complete_false (srv : Server) (w : World)
    (ps : nat) (md : dict pyval) (len : option nat) (s : Source)
    (sources : list Source) :
  _page_size (cat w) = Some ps ->
  raise_for_status (srv (log w) (load_request (cat w))) = None ->
  content (srv (log w) (load_request (cat w)))
  = InfoPayload md len (s :: sources) ->
  _page_size (cat (snd (_load srv w))) = None
  /\ complete (_entries (cat (snd (_load srv w)))) = false.
Proof.
  intros Hps Hok Hinline.
  rewrite _load_eq. cbv zeta. rewrite Hok, Hinline. simp_state.
  split; [reflexivity|]. cbn [Entries__init__ complete]. now rewrite Hps.
Qed.

(** A generator that is advanced once and dropped has fetched the first
    page, here the only one, and has not set the flag. *)
Lemma dropped_generator_leaves_complete_false :
  fst (Entries__iter__take Fixture.paged 10 1
         (Fixture.run Fixture.paged [OpLoad]
            (Fixture.connect Fixture.localhost (Some 10) None)))
  = Ok ["a"]
  /\ dict_keys
       (page_tier
          (snd (Entries__iter__take Fixture.paged 10 1
                  (Fixture.run Fixture.paged [OpLoad]
                     (Fixture.connect Fixture.localhost (Some 10) None)))))
     = ["a"; "b"; "c"; "d"; "e"]
  /\ complete
       (_entries
          (cat (snd (Entries__iter__take Fixture.paged 10 1
                       (Fixture.run Fixture.paged [OpLoad]
                          (Fixture.connect Fixture.localhost (Some 10)
                             None))))))
     = false.
Proof. repeat split; vm_compute; reflexivity. Qed.

(** C3 at the failing input: a page size of two was requested and the
    server sent the five entries inline.  After [_load] pagination is off,
    yet [complete] is false: [reset] computed it while the page size was
    still set. *)
Lemma complete_is_false_after_inline_load :
  _page_size (cat (snd (_load Fixture.legacy Fixture.fresh_world))) = None
  /\ complete (_entries (cat (snd (_load Fixture.legacy Fixture.fresh_world))))
     = false.
Proof. split; vm_compute; reflexivity. Qed.

(** ** C4 and C6: point lookups *)

Lemma getitem_direct_hit (srv : Server) (key : string) (w : World)
    (e : RemoteCatalogEntry) :
  dict_get key (direct_tier w) = Some e ->
  Entries__getitem__ srv key w = (Ok e, w).
Proof.
  unfold direct_tier. intros Hd.
  unfold Entries__getitem__, bind, gets. simp_state. now rewrite Hd.
Qed.

Lemma getitem_page_hit (srv : Server) (key : string) (w : World)
    (e : RemoteCatalogEntry) :
  dict_get key (direct_tier w) = None ->
  dict_get key (page_tier w) = Some e ->
  Entries__getitem__ srv key w = (Ok e, w).
Proof.
  unfold direct_tier, page_tier. intros Hd Hp.
  unfold Entries__getitem__, bind, gets. simp_state. now rewrite Hd, Hp.
Qed.

Lemma getitem_miss (srv : Server) (key : string) (w : World) :
  dict_get key (direct_tier w) = None ->
  dict_get key (page_tier w) = None ->
  Entries__getitem__ srv key w
  = match fetch_by_name srv key w with
    | (Ok source, w') =>
        (Ok source,
         {| cat := set_entries
                     (set_direct_lookup_cache
                        (dict_set key source (direct_tier w'))
                        (_entries (cat w')))
                     (cat w');
            log := log w' |})
    | (Raise e, w') => (Raise e, w')
    | (OutOfFuel, w') => (OutOfFuel, w')
    end.
Proof.
  unfold direct_tier, page_tier. intros Hd Hp.
  unfold Entries__getitem__, bind, gets. simp_state. rewrite Hd, Hp.
  destruct (fetch_by_name srv key w) as [[source|e|] w']; reflexivity.
Qed.

(** C4.  When neither tier holds the name and the server answers the
    by-name request with 404, the lookup raises [KeyError] for that name,
    leaves both tiers as they were (the same entries under the same names),
    and has sent that one request.  What the request does to the dicts the
    entries share with the catalog is the matter of C9. *)
Theorem lookup_404_is_key_error (srv : Server) (key : string) (w : World) :
  dict_get key (direct_tier w) = None ->
  dict_get key (page_tier w) = None ->
  status_code (srv (log w) (name_request (cat w) key)) = 404 ->
  fst (Entries__getitem__ srv key w) = Raise (KeyError key)
  /\ page_tier (snd (Entries__getitem__ srv key w)) = page_tier w
  /\ direct_tier (snd (Entries__getitem__ srv key w)) = direct_tier w
  /\ log (snd (Entries__getitem__ srv key w))
     = log w ++ [name_request (cat w) key].
Proof.
  intros Hd Hp H404.
  rewrite (getitem_miss srv key w Hd Hp), fetch_by_name_eq. cbv zeta.
  rewrite H404. cbn [Nat.eqb]. unfold direct_tier, page_tier. simp_state.
  auto.
Qed.

(** Looking up [z] among the five entries [a] to [e]. *)
Lemma lookup_404_is_key_error_witness :
  dict_get "z" (direct_tier Fixture.drained_world) = None
  /\ dict_get "z" (page_tier Fixture.drained_world) = None
  /\ status_code (Fixture.paged (log Fixture.drained_world)
                    (name_request (cat Fixture.drained_world) "z")) = 404
  /\ fst (Entries__getitem__ Fixture.paged "z" Fixture.drained_world)
     = Raise (KeyError "z")
  /\ page_tier (snd (Entries__getitem__ Fixture.paged "z"
                       Fixture.drained_world))
     = page_tier Fixture.drained_world.
Proof.
  assert (Hd : dict_get "z" (direct_tier Fixture.drained_world) = None)
    by (vm_compute; reflexivity).
  assert (Hp : dict_get "z" (page_tier Fixture.drained_world) = None)
    by (vm_compute; reflexivity).
  assert (H404 : status_code
                   (Fixture.paged (log Fixture.drained_world)
                      (name_request (cat Fixture.drained_world) "z")) = 404)
    by (vm_compute; reflexivity).
  destruct (@lookup_404_is_key_error Fixture.paged "z" Fixture.drained_world
              Hd Hp H404) as (Hraise & Hpage & _ & _).
  split; [exact Hd|]. split; [exact Hp|]. split; [exact H404|].
  split; [exact Hraise|exact Hpage].
Defined.

(** C6, as amended.  The direct tier is consulted first: a name it holds is
    answered with its copy, whatever the page tier holds, and nothing is
    sent or changed; the page tier answers only for a name the direct tier
    does not hold. *)
Theorem lookup_prefers_direct_tier (srv : Server) (key : string) (w : World) :
  (forall direct,
     dict_get key (direct_tier w) = Some direct ->
     Entries__getitem__ srv key w = (Ok direct, w))
  /\ (forall paged,
        dict_get key (direct_tier w) = None ->
        dict_get key (page_tier w) = Some paged ->
        Entries__getitem__ srv key w = (Ok paged, w)).
Proof.
  split.
  - intros direct Hd. now apply getitem_direct_hit.
  - intros paged Hd Hp. now apply getitem_page_hit.
Qed.

(** [a] was looked up by name and then listed by a page: both tiers hold
    it, and the lookup answers with the copy fetched by name. *)
Lemma lookup_prefers_direct_tier_witness :
  dict_get "a" (direct_tier Fixture.stale_world)
  = Some (Fixture.entry_a "named")
  /\ dict_get "a" (page_tier Fixture.stale_world)
     = Some (Fixture.entry_a "listed")
  /\ Entries__getitem__ Fixture.renamed "a" Fixture.stale_world
     = (Ok (Fixture.entry_a "named"), Fixture.stale_world).
Proof.
  assert (Hd : dict_get "a" (direct_tier Fixture.stale_world)
               = Some (Fixture.entry_a "named"))
    by (vm_compute; reflexivity).
  split; [exact Hd|]. split; [vm_compute; reflexivity|].
  exact (proj1 (@lookup_prefers_direct_tier Fixture.renamed "a"
                  Fixture.stale_world) _ Hd).
Defined.

(** C6 as worded fails there: the page tier's copy of [a] is not the one
    returned. *)
Lemma direct_copy_shadows_page_copy :
  ~ page_tier_is_authoritative Fixture.renamed Fixture.stale_world "a".
Proof.
  intros Hclaim.
  assert (Hd : dict_get "a" (direct_tier Fixture.stale_world)
               = Some (Fixture.entry_a "named"))
    by (vm_compute; reflexivity).
  assert (Hp : dict_get "a" (page_tier Fixture.stale_world)
               = Some (Fixture.entry_a "listed"))
    by (vm_compute; reflexivity).
  specialize (Hclaim _ _ Hd Hp).
  rewrite (@getitem_direct_hit Fixture.renamed "a" Fixture.stale_world _ Hd)
    in Hclaim.
  cbn [fst] in Hclaim. vm_compute in Hclaim. discriminate Hclaim.
Qed.

(** ** C5: errors of the metadata request *)

Lemma raise_for_status_error (r : Response) :
  is_http_error r = true ->
  raise_for_status r
  = Some {| err_msg := http_error_msg r; err_response := r |}.
Proof. unfold raise_for_status. now intros ->. Qed.

Lemma raise_for_status_no_error (r : Response) :
  is_http_error r = false -> raise_for_status r = None.
Proof. unfold raise_for_status. now intros ->. Qed.

Lemma error_msg_of_403 (r : Response) :
  status_code r = 403 -> Str.contains "403" (http_error_msg r) = true.
Proof.
  intros H. unfold http_error_msg. rewrite H.
  change (Str.of_nat 403) with "403". reflexivity.
Qed.

(** C5, as amended.  A 403 makes [_load] raise [AuthenticationFailure] with
    its user-facing message; any other 4xx or 5xx answer whose error message
    does not contain the text 403 makes it raise [RemoteCatalogError]
    wrapping the HTTP error; an answer below 400 (or from 600 on) raises
    neither of the two. *)
Theorem load_error_handling (srv : Server) (w : World) :
  (status_code (srv (log w) (load_request (cat w))) = 403 ->
   fst (_load srv w) = Raise (AuthenticationFailure auth_failure_msg))
  /\ (is_http_error (srv (log w) (load_request (cat w))) = true ->
      Str.contains "403"
        (http_error_msg (srv (log w) (load_request (cat w)))) = false ->
      fst (_load srv w)
      = Raise (RemoteCatalogError "Failed to fetch metadata."
                 {| err_msg :=
                      http_error_msg (srv (log w) (load_request (cat w)));
                    err_response := srv (log w) (load_request (cat w)) |}))
  /\ (is_http_error (srv (log w) (load_request (cat w))) = false ->
      forall e, fst (_load srv w) = Raise e -> e = DecodeError).
Proof.
  rewrite _load_eq. cbv zeta.
  set (r := srv (log w) (load_request (cat w))).
  split; [|split].
  - intros H403.
    assert (Herr : is_http_error r = true).
    { unfold is_http_error. now rewrite H403. }
    rewrite (raise_for_status_error r Herr). cbn [err_msg].
    now rewrite (error_msg_of_403 r H403).
  - intros Herr Hmsg.
    rewrite (raise_for_status_error r Herr). cbn [err_msg].
    now rewrite Hmsg.
  - intros Hfine e.
    rewrite (raise_for_status_no_error r Hfine).
    destruct (content r) as [md len [|s sources]| | | |]; cbn [fst];
      intros He; inversion He; reflexivity.
Qed.

(** A refusing server, a server that has lost the page, and a paging one. *)
Lemma load_error_handling_witness :
  fst (_load Fixture.forbidden Fixture.fresh_world)
  = Raise (AuthenticationFailure auth_failure_msg)
  /\ (exists err,
        fst (_load Fixture.broken Fixture.fresh_world)
        = Raise (RemoteCatalogError "Failed to fetch metadata." err)
        /\ status_code (err_response err) = 500)
  /\ (forall e, fst (_load Fixture.paged Fixture.fresh_world) = Raise e ->
      e = DecodeError).
Proof.
  split; [|split].
  - apply (proj1 (load_error_handling Fixture.forbidden Fixture.fresh_world)).
    vm_compute; reflexivity.
  - eexists. split.
    + apply (proj1 (proj2 (load_error_handling Fixture.broken
                             Fixture.fresh_world)));
        vm_compute; reflexivity.
    + vm_compute; reflexivity.
  - apply (proj2 (proj2 (load_error_handling Fixture.paged
                           Fixture.fresh_world))).
    vm_compute; reflexivity.
Defined.

(** C5 as worded fails on an answer that is not 2xx and not an error for
    [requests]: a 300 with a decodable body is loaded. *)
Lemma load_accepts_a_300 :
  ~ load_error_contract (Fixture.multiple_choices (InfoPayload [] None []))
      Fixture.fresh_world.
Proof.
  intros [_ Hother].
  destruct Hother as (msg & err & Hraise & _).
  - vm_compute; reflexivity.
  - vm_compute. discriminate.
  - vm_compute in Hraise. discriminate Hraise.
Qed.

(** The test for a 403 is a search for the text 403 in the error message,
    which also names the URL: a 404 from a server on port 4030 is reported
    as an authentication failure. *)
Lemma load_404_on_port_4030 :
  fst (_load Fixture.not_found_4030
         (Fixture.connect Fixture.port_4030 None None))
  = Raise (AuthenticationFailure auth_failure_msg).
Proof. vm_compute; reflexivity. Qed.

(** ** C7 and C10: search *)

Lemma sent_carries_source_id (c : RemoteCatalog) (ps : dict pyval)
    (sid : string) :
  _source_id c = Some sid ->
  dict_get "source-id" (or_empty (headers (sent_http_args c ps))) = Some sid.
Proof.
  intros Hsid. unfold sent_http_args, _get_http_args.
  cbn [fst cat headers or_empty]. rewrite Hsid.
  apply dict_get_set_same.
Qed.

(** The catalog [search] builds carries the new scope in the request of its
    load, and so does every request it sends later. *)
Lemma scoped_source_id (urljoin : string -> string -> string)
    (netloc : string -> string) (BaseClientAuth : Auth) (c : RemoteCatalog)
    (sid : string) :
  _source_id (scoped urljoin netloc BaseClientAuth c sid) = Some sid.
Proof. reflexivity. Qed.

(** C7, as amended.  On a 2xx answer carrying a scope id, [search] builds a
    new catalog bound to that id, and the constructor loads it: a second
    request, which carries the id in its [source-id] header.  When that
    load raises, [search] raises the same exception.  When it succeeds,
    [search] returns the loaded catalog, which is bound to the id; every
    request that catalog sends afterwards carries the id, and the only other
    requests its operations cause are the loads of the catalogs that its own
    searches build. *)
Theorem search_binds_scope (srv : Server)
    (urljoin : string -> string -> string) (netloc : string -> string)
    (BaseClientAuth : Auth) (args : list pyval) (kw : dict pyval)
    (w : World) (sid : string) :
  is_2xx (srv (log w) (search_request (cat w) args kw)) = true ->
  content (srv (log w) (search_request (cat w) args kw)) = SearchPayload sid ->
  let new := {| cat := scoped urljoin netloc BaseClientAuth
                         (touched (cat w) []) sid;
                log := log w ++ [search_request (cat w) args kw] |} in
  log (snd (search urljoin netloc BaseClientAuth srv args kw w))
  = log w ++ [search_request (cat w) args kw; load_request (cat new)]
  /\ carries_source_id sid (load_request (cat new))
  /\ (forall e,
        fst (_load srv new) = Raise e ->
        fst (search urljoin netloc BaseClientAuth srv args kw w) = Raise e)
  /\ (fst (_load srv new) = Ok tt ->
      exists child,
        fst (search urljoin netloc BaseClientAuth srv args kw w) = Ok child
        /\ child = cat (snd (_load srv new))
        /\ _source_id child = Some sid
        /\ (forall ops earlier,
              Forall (fun o => is_search o = false) ops ->
              exists sent,
                log (run_ops urljoin netloc BaseClientAuth srv ops
                       {| cat := child; log := earlier |})
                = earlier ++ sent
                /\ Forall (carries_source_id sid) sent)
        /\ (forall ops earlier,
              exists sent,
                log (run_ops urljoin netloc BaseClientAuth srv ops
                       {| cat := child; log := earlier |})
                = earlier ++ sent
                /\ Forall (fun rq =>
                             carries_source_id sid rq
                             \/ loads_a_search_result urljoin netloc
                                  BaseClientAuth sid rq) sent)).
Proof.
  intros H2xx Hsid new.
  rewrite search_eq. cbv zeta.
  rewrite (http_error_2xx _ H2xx), Hsid. fold new. cbn [fst snd log].
  assert (Hcarries : forall c ps m u d,
             _source_id c = Some sid ->
             carries_source_id sid
               {| method := m; target := u;
                  req_args := sent_http_args c ps; data := d |}).
  { intros c ps m u d Hc. unfold carries_source_id. cbn [req_args].
    now apply sent_carries_source_id. }
  split; [now rewrite <- app_assoc|].
  split; [unfold load_request; now apply Hcarries|].
  split; [intros e He; now rewrite He|].
  intros Hok. rewrite Hok. eexists. split; [reflexivity|].
  split; [reflexivity|].
  assert (Hbound : _source_id (cat (snd (_load srv new))) = Some sid).
  { destruct (load_keeps srv new) as (_ & _ & _ & Hkeep & _).
    now rewrite Hkeep. }
  split; [exact Hbound|]. split.
  - intros ops earlier Hown.
    destruct (@run_ops_keeps_own srv urljoin netloc BaseClientAuth
                (fun c => _source_id c = Some sid) (carries_source_id sid))
      with (ops := ops)
           (w := {| cat := cat (snd (_load srv new)); log := earlier |})
      as (_ & sent & Hlog & Hall); auto.
    exists sent. auto.
  - intros ops earlier.
    destruct (@run_ops_keeps srv urljoin netloc BaseClientAuth
                (fun c => _source_id c = Some sid)
                (fun rq =>
                   carries_source_id sid rq
                   \/ loads_a_search_result urljoin netloc BaseClientAuth
                        sid rq))
      with (ops := ops)
           (w := {| cat := cat (snd (_load srv new)); log := earlier |})
      as (_ & sent & Hlog & Hall); auto.
    + intros c sid' Hc. right. exists c, sid'. auto.
    + exists sent. auto.
Qed.

(** Searching the five-entry catalog, which is bound to no scope: the new
    catalog has loaded with [scope-1] in its headers, and loads again,
    iterates and looks up with it. *)
Lemma search_binds_scope_witness :
  exists child,
    fst (search Fixture.urljoin Fixture.netloc Fixture.BaseClientAuth
           Fixture.paged [] [("temp", PStr ">0")] Fixture.loaded_world)
    = Ok child
    /\ _source_id (cat Fixture.loaded_world) = None
    /\ _source_id child = Some "scope-1"
    /\ List.length
         (log (snd (search Fixture.urljoin Fixture.netloc
                      Fixture.BaseClientAuth Fixture.paged []
                      [("temp", PStr ">0")] Fixture.loaded_world)))
       = List.length (log Fixture.loaded_world) + 2
    /\ exists sent,
         log (Fixture.run Fixture.paged
                [OpLoad; OpIter 10; OpGetitem "z"]
                {| cat := child; log := [] |})
         = sent
         /\ Forall (carries_source_id "scope-1") sent.
Proof.
  destruct (@search_binds_scope Fixture.paged Fixture.urljoin Fixture.netloc
              Fixture.BaseClientAuth [] [("temp", PStr ">0")]
              Fixture.loaded_world "scope-1")
    as (Hlog & _ & _ & Hok); try (vm_compute; reflexivity).
  destruct Hok as (child & Hchild & _ & Hsid & Hown & _);
    [vm_compute; reflexivity|].
  exists child. split; [exact Hchild|].
  split; [vm_compute; reflexivity|]. split; [exact Hsid|].
  split; [rewrite Hlog, length_app; reflexivity|].
  destruct (Hown [OpLoad; OpIter 10; OpGetitem "z"] []) as (sent & Hl & Hs).
  { repeat constructor. }
  exists sent. split; [exact Hl|exact Hs].
Defined.

(** C7 as worded fails when the new catalog cannot load: the server answers
    the search with 200 and a scope id, refuses the metadata request that
    carries the id, and [search] raises [AuthenticationFailure]. *)
Lemma search_raises_when_the_scope_cannot_load :
  ~ search_returns_on_2xx Fixture.urljoin Fixture.netloc
      Fixture.BaseClientAuth Fixture.guarded [] [("temp", PStr ">0")]
      (Fixture.run Fixture.guarded [OpLoad] Fixture.fresh_world).
Proof.
  intros Hclaim.
  destruct (Hclaim "scope-1") as (child & Hchild & _);
    try (vm_compute; reflexivity).
  assert (Hrun : fst (search Fixture.urljoin Fixture.netloc
                        Fixture.BaseClientAuth Fixture.guarded []
                        [("temp", PStr ">0")]
                        (Fixture.run Fixture.guarded [OpLoad]
                           Fixture.fresh_world))
                 = Raise (AuthenticationFailure auth_failure_msg))
    by (vm_compute; reflexivity).
  rewrite Hrun in Hchild. discriminate Hchild.
Qed.

(** C10.  The catalog [search] returns is the one the constructor gives for
    the parent's URL, a copy of its stored [http_args], the new scope id, an
    empty name and the parent's persist mode, with every other argument at
    its default: it has the default auth provider, no page size, [getenv]
    and [getshell] set, a time to live of 1 and no parameters, whatever the
    parent has; the load of its constructor adds no paging parameters to
    the stored ones, and iterating it gives the names it holds and fetches
    nothing. *)
Theorem search_result_takes_defaults (srv : Server)
    (urljoin : string -> string -> string) (netloc : string -> string)
    (BaseClientAuth : Auth) (args : list pyval) (kw : dict pyval)
    (w : World) (child : RemoteCatalog) :
  fst (search urljoin netloc BaseClientAuth srv args kw w) = Ok child ->
  (exists sid,
     RemoteCatalog__init__ urljoin netloc BaseClientAuth srv
       (url (cat w))
       (Some (http_args
                (cat (snd (search urljoin netloc BaseClientAuth srv
                             args kw w)))))
       None (Some "") (Some sid) None 1 true true None None
       (pmode (cat w))
       (log w ++ [search_request (cat w) args kw])
     = (Ok child,
        [load_request
           (RemoteCatalog__init__attrs urljoin netloc BaseClientAuth
              (url (cat w))
              (Some (http_args
                       (cat (snd (search urljoin netloc BaseClientAuth srv
                                    args kw w)))))
              None (Some "") (Some sid) None 1 true true None None
              (pmode (cat w)))])
     /\ load_params
          (RemoteCatalog__init__attrs urljoin netloc BaseClientAuth
             (url (cat w))
             (Some (http_args
                      (cat (snd (search urljoin netloc BaseClientAuth srv
                                   args kw w)))))
             None (Some "") (Some sid) None 1 true true None None
             (pmode (cat w)))
        = [])
  /\ auth child = BaseClientAuth
  /\ _page_size child = None
  /\ getenv child = true
  /\ getshell child = true
  /\ ttl child = 1
  /\ _parameters child = None
  /\ pmode child = pmode (cat w)
  /\ load_params child = []
  /\ forall fuel earlier,
       Entries__iter__ srv fuel {| cat := child; log := earlier |}
       = (Ok (dict_keys (_page_cache (_entries child))),
          {| cat := child; log := earlier |}).
Proof.
  rewrite search_eq. cbv zeta.
  destruct (raise_for_status _); [discriminate|].
  destruct (content _) as [| |sid| |]; try discriminate.
  cbn [fst snd cat log].
  set (new := {| cat := scoped urljoin netloc BaseClientAuth
                          (touched (cat w) []) sid;
                 log := log w ++ [search_request (cat w) args kw] |}).
  destruct (fst (_load srv new)) as [[]| |] eqn:Hload; try discriminate.
  intros Hchild. inversion Hchild as [Hc]. clear Hchild.
  destruct (load_keeps srv new)
    as (_ & _ & _ & _ & Hauth & Httl & Hgetenv & Hgetshell & Hpars & Hpmode
        & _ & Hsize).
  specialize (Hsize eq_refl).
  split.
  { exists sid. split; [|reflexivity].
    rewrite init_eq. cbv zeta. fold new.
    change (RemoteCatalog__init__attrs urljoin netloc BaseClientAuth
              (url (cat w)) (Some (http_args (touched (cat w) []))) None
              (Some "") (Some sid) None 1 true true None None
              (pmode (cat w)))
      with (cat new).
    change {| cat := cat new;
              log := log w ++ [search_request (cat w) args kw] |}
      with new.
    now rewrite Hload. }
  split; [now rewrite Hauth|]. split; [exact Hsize|].
  split; [now rewrite Hgetenv|]. split; [now rewrite Hgetshell|].
  split; [now rewrite Httl|]. split; [now rewrite Hpars|].
  split; [now rewrite Hpmode|].
  split; [unfold load_params; now rewrite Hsize|].
  intros fuel earlier. now rewrite iter_unpaged.
Qed.

(** A parent with a token provider, a page size of two and a scope: the
    catalog it gets has the default provider and no page size, and its
    constructor has loaded it. *)
Lemma search_result_takes_defaults_witness :
  exists child,
    fst (search Fixture.urljoin Fixture.netloc Fixture.BaseClientAuth
           Fixture.paged [] [] Fixture.keyed_loaded) = Ok child
    /\ auth (cat Fixture.keyed_loaded) = Fixture.token_auth
    /\ _page_size (cat Fixture.keyed_loaded) = Some 2
    /\ auth child = Fixture.BaseClientAuth
    /\ _page_size child = None
    /\ _len child = Some 5.
Proof.
  destruct (fst (search Fixture.urljoin Fixture.netloc Fixture.BaseClientAuth
                   Fixture.paged [] [] Fixture.keyed_loaded))
    as [child| |] eqn:Hrun;
    try (exfalso; apply (f_equal (fun o => match o with
                                           | Ok _ => true
                                           | _ => false
                                           end)) in Hrun;
         vm_compute in Hrun; discriminate Hrun).
  destruct (search_result_takes_defaults _ _ _ _ _ _ _ Hrun)
    as (_ & Hauth & Hsize & _).
  exists child. split; [reflexivity|]. split; [vm_compute; reflexivity|].
  split; [vm_compute; reflexivity|]. split; [exact Hauth|].
  split; [exact Hsize|].
  assert (Hkeys : option_map _len
                    (match fst (search Fixture.urljoin Fixture.netloc
                                  Fixture.BaseClientAuth Fixture.paged [] []
                                  Fixture.keyed_loaded) with
                     | Ok c => Some c
                     | _ => None
                     end)
                  = Some (Some 5))
    by (vm_compute; reflexivity).
  rewrite Hrun in Hkeys. cbn [option_map] in Hkeys.
  now inversion Hkeys.
Defined.

(** The copy of [http_args] holds what the parent's calls have left in its
    stored params: here the paging parameters of the parent's own load, so
    that the new catalog asks for an empty page when it loads and holds no
    entry. *)
Lemma scoped_catalog_inherits_stored_params :
  option_map
    (fun c => (params (http_args c), dict_keys (_page_cache (_entries c))))
    (match fst (search Fixture.urljoin Fixture.netloc Fixture.BaseClientAuth
                  Fixture.paged [] [] Fixture.keyed_loaded) with
     | Ok c => Some c
     | _ => None
     end)
  = Some (Some [("format", PStr "msgpack"); ("page_offset", PInt 0);
                ("page_size", PInt 0)],
          []).
Proof. vm_compute. reflexivity. Qed.

(** ** C8: a failed open call *)

Section Resolution.

Variable urljoin : string -> string -> string.
Variable plugin_registry : dict (dict pyval -> Callee ResolvedSource).
Variable container_map :
  dict (string -> HttpArgs -> ProxyKwargs -> Callee ResolvedSource).
Variable expand_defaults : string -> bool -> bool -> bool -> string.
Variable coerce : string -> string -> pyval.
Variable srv : Server.

Lemma ok_false (r : Response) : is_http_error r = true -> ok r = false.
Proof.
  intros H. unfold ok. now rewrite (raise_for_status_error r H).
Qed.

Lemma open_remote_error (url0 entry : string) (container : option string)
    (user_parameters : dict pyval) (description : string) (ha : HttpArgs)
    (page_size : option nat) (persist_mode : string) (a : Auth)
    (getenv0 getshell0 : bool) (w : World) :
  is_http_error
    (srv (log w)
       (open_request urljoin plugin_registry url0 entry user_parameters ha))
  = true ->
  open_remote urljoin plugin_registry container_map srv url0 entry container
    user_parameters description ha page_size persist_mode a getenv0 getshell0
    w
  = (Raise (PyException
              (server_error_msg
                 (srv (log w)
                    (open_request urljoin plugin_registry url0 entry
                       user_parameters ha)))),
     {| cat := cat w;
        log := log w
               ++ [open_request urljoin plugin_registry url0 entry
                     user_parameters ha] |}).
Proof.
  intros Herr.
  unfold open_remote, bind, requests_post, send. cbn [fst snd cat log].
  change {| method := "POST";
            target := urljoin
                        (if Str.startswith url0 "intake://"
                         then Str.drop (String.length "intake://") url0
                         else url0) "/v1/source";
            req_args := ha;
            data := Some (OpenBody entry user_parameters
                            (dict_keys plugin_registry)) |}
    with (open_request urljoin plugin_registry url0 entry user_parameters ha).
  now rewrite (ok_false _ Herr).
Qed.

(** An answer with a status below 400 takes the other branch. *)
Lemma open_remote_decodes (url0 entry : string) (container : option string)
    (user_parameters : dict pyval) (description : string) (ha : HttpArgs)
    (page_size : option nat) (persist_mode : string) (a : Auth)
    (getenv0 getshell0 : bool) (w : World) :
  status_code
    (srv (log w)
       (open_request urljoin plugin_registry url0 entry user_parameters ha))
  < 400 ->
  open_remote urljoin plugin_registry container_map srv url0 entry container
    user_parameters description ha page_size persist_mode a getenv0 getshell0
    w
  = open_answer plugin_registry container_map (open_url url0) entry
      container user_parameters description ha page_size persist_mode a
      getenv0 getshell0
      (srv (log w)
         (open_request urljoin plugin_registry url0 entry user_parameters
            ha))
      {| cat := cat w;
         log := log w
                ++ [open_request urljoin plugin_registry url0 entry
                      user_parameters ha] |}.
Proof.
  intros Hbelow.
  unfold open_remote, bind, requests_post, send. cbn [fst snd cat log].
  change {| method := "POST";
            target := urljoin
                        (if Str.startswith url0 "intake://"
                         then Str.drop (String.length "intake://") url0
                         else url0) "/v1/source";
            req_args := ha;
            data := Some (OpenBody entry user_parameters
                            (dict_keys plugin_registry)) |}
    with (open_request urljoin plugin_registry url0 entry user_parameters ha).
  assert (Hfine : is_http_error
                    (srv (log w)
                       (open_request urljoin plugin_registry url0 entry
                          user_parameters ha)) = false).
  { unfold is_http_error. apply andb_false_iff. left.
    apply Nat.leb_gt. exact Hbelow. }
  unfold ok. now rewrite (raise_for_status_no_error _ Hfine).
Qed.

End Resolution.

(** C8, as amended.  A 4xx or 5xx answer to the open call makes the
    resolution raise the exception whose message is [Server error:] followed
    by the status code and the reason, after that one request and no other;
    this holds for [open_remote] and for [RemoteCatalogEntry.get], which
    calls it.  An answer with a status below 400 is decoded as a success:
    after the one request, the resolution goes on with the branch that
    builds the source from the answer. *)
Theorem open_error_is_fatal (urljoin : string -> string -> string)
    (plugin_registry : dict (dict pyval -> Callee ResolvedSource))
    (container_map :
       dict (string -> HttpArgs -> ProxyKwargs -> Callee ResolvedSource))
    (expand_defaults : string -> bool -> bool -> bool -> string)
    (coerce : string -> string -> pyval) (srv : Server) (w : World) :
  (forall url0 entry container user_parameters description ha page_size
          persist_mode a getenv0 getshell0,
     is_http_error
       (srv (log w)
          (open_request urljoin plugin_registry url0 entry user_parameters
             ha))
     = true ->
     open_remote urljoin plugin_registry container_map srv url0 entry
       container user_parameters description ha page_size persist_mode a
       getenv0 getshell0 w
     = (Raise (PyException
                 ("Server error: "
                  ++ Str.of_nat
                       (status_code
                          (srv (log w)
                             (open_request urljoin plugin_registry url0 entry
                                user_parameters ha)))
                  ++ ", "
                  ++ reason
                       (srv (log w)
                          (open_request urljoin plugin_registry url0 entry
                             user_parameters ha)))%string),
        {| cat := cat w;
           log := log w
                  ++ [open_request urljoin plugin_registry url0 entry
                        user_parameters ha] |}))
  /\ (forall e user_parameters,
        is_http_error
          (srv (log w)
             (open_request urljoin plugin_registry (e_url e) (e_name e)
                (fill_defaults expand_defaults coerce e user_parameters)
                (entry_http_args e (cat w))))
        = true ->
        RemoteCatalogEntry_get urljoin plugin_registry container_map
          expand_defaults coerce srv e user_parameters w
        = (Raise (PyException
                    ("Server error: "
                     ++ Str.of_nat
                          (status_code
                             (srv (log w)
                                (open_request urljoin plugin_registry
                                   (e_url e) (e_name e)
                                   (fill_defaults expand_defaults coerce e
                                      user_parameters)
                                   (entry_http_args e (cat w)))))
                     ++ ", "
                     ++ reason
                          (srv (log w)
                             (open_request urljoin plugin_registry
                                (e_url e) (e_name e)
                                (fill_defaults expand_defaults coerce e
                                   user_parameters)
                                (entry_http_args e (cat w)))))%string),
           {| cat := cat w;
              log := log w
                     ++ [open_request urljoin plugin_registry (e_url e)
                           (e_name e)
                           (fill_defaults expand_defaults coerce e
                              user_parameters)
                           (entry_http_args e (cat w))] |}))
  /\ (forall url0 entry container user_parameters description ha page_size
             persist_mode a getenv0 getshell0,
        status_code
          (srv (log w)
             (open_request urljoin plugin_registry url0 entry
                user_parameters ha))
        < 400 ->
        open_remote urljoin plugin_registry container_map srv url0 entry
          container user_parameters description ha page_size persist_mode a
          getenv0 getshell0 w
        = open_answer plugin_registry container_map (open_url url0) entry
            container user_parameters description ha page_size persist_mode
            a getenv0 getshell0
            (srv (log w)
               (open_request urljoin plugin_registry url0 entry
                  user_parameters ha))
            {| cat := cat w;
               log := log w
                      ++ [open_request urljoin plugin_registry url0 entry
                            user_parameters ha] |}).
Proof.
  split; [|split].
  - intros. now apply open_remote_error.
  - intros e user_parameters Herr.
    assert (Hrun : RemoteCatalogEntry_get urljoin plugin_registry
                     container_map expand_defaults coerce srv e
                     user_parameters w
                   = open_remote urljoin plugin_registry container_map srv
                       (e_url e) (e_name e) (e_container e)
                       (fill_defaults expand_defaults coerce e
                          user_parameters)
                       (e_description e) (entry_http_args e (cat w))
                       (e_page_size e) (e_catalog_pmode e) (e_auth e)
                       (e_getenv e) (e_getshell e) w).
    { unfold RemoteCatalogEntry_get, bind, gets. reflexivity. }
    rewrite Hrun. now apply open_remote_error.
  - intros. now apply open_remote_decodes.
Qed.

(** Resolving [a] against a server that answers 500. *)
Lemma open_error_is_fatal_witness :
  RemoteCatalogEntry_get Fixture.urljoin Fixture.plugin_registry
    (Fixture.container_map Fixture.broken) Fixture.expand_defaults
    Fixture.coerce
    Fixture.broken (Fixture.entry_a "listed") [] Fixture.drained_world
  = (Raise (PyException "Server error: 500, Internal Server Error"),
     {| cat := cat Fixture.drained_world;
        log := log Fixture.drained_world
               ++ [open_request Fixture.urljoin Fixture.plugin_registry
                     "http://localhost:5000/" "a" []
                     (entry_http_args (Fixture.entry_a "listed")
                        (cat Fixture.drained_world))] |}).
Proof.
  exact (proj1 (proj2 (@open_error_is_fatal Fixture.urljoin
                         Fixture.plugin_registry
                         (Fixture.container_map Fixture.broken)
                         Fixture.expand_defaults
                         Fixture.coerce Fixture.broken Fixture.drained_world))
           (Fixture.entry_a "listed") [] eq_refl).
Defined.

(** C8 as worded fails on an answer that is not 2xx and not an error for
    [requests]: a 300 naming a known plugin and its arguments resolves the
    entry. *)
Lemma open_accepts_a_300 :
  ~ open_fails_unless_2xx Fixture.urljoin Fixture.plugin_registry
      (Fixture.container_map Fixture.paged)
      (Fixture.multiple_choices
         (OpenPayload (Some (PluginStr "csv"))
            (Some [("urlpath", PStr "a.csv")]) None []))
      "http://localhost:5000/" "a" (Some "dataframe") [] "listed"
      empty_http_args Fixture.fresh_world.
Proof.
  intros Hclaim.
  specialize (Hclaim None "default" Fixture.BaseClientAuth true true eq_refl).
  vm_compute in Hclaim. discriminate Hclaim.
Qed.

(** ** C9: what [_get_http_args] leaves behind *)

(** The constructor always stores a headers dict. *)
Lemma init_stores_headers (urljoin : string -> string -> string)
    (netloc : string -> string) (BaseClientAuth : Auth) (url0 : string)
    (http_args0 : option HttpArgs) (page_size : option nat)
    (name0 source_id : option string) (auth0 : option Auth) (ttl0 : nat)
    (getenv0 getshell0 : bool) (storage_options : option HttpArgs)
    (parameters : option (dict pyval)) (persist_mode : string) :
  exists h,
    headers
      (http_args
         (RemoteCatalog__init__attrs urljoin netloc BaseClientAuth url0 http_args0
            page_size name0 source_id auth0 ttl0 getenv0 getshell0
            storage_options parameters persist_mode))
    = Some h.
Proof. eexists. reflexivity. Qed.

Lemma kept_after_call (ps : dict pyval) (w : World) :
  http_args (cat (snd (_get_http_args ps w))) = kept_http_args (cat w) ps.
Proof. reflexivity. Qed.

Lemma kept_after_load (srv : Server) (w : World) :
  http_args (cat (snd (_load srv w)))
  = kept_http_args (cat w) (load_params (cat w)).
Proof.
  rewrite _load_eq. cbv zeta.
  destruct (raise_for_status _); [reflexivity|].
  destruct (content _) as [md len [|s sources]| | | |]; reflexivity.
Qed.

(** C9.  A call of [_get_http_args] changes the catalog's stored
    [http_args]: the stored headers dict receives the auth headers and then,
    when a scope id is set, the [source-id] header; a stored params dict
    receives the parameters of the call, which a later call still sends
    unless it sets the same key; without a stored params dict nothing is
    kept of them.  [_load], [fetch_page], [fetch_by_name] and [search] leave
    the stored [http_args] exactly as that call does. *)
Theorem get_http_args_writes_in_place (srv : Server)
    (urljoin : string -> string -> string) (netloc : string -> string)
    (BaseClientAuth : Auth) (w : World) (ps : dict pyval) (h : dict string) :
  headers (http_args (cat w)) = Some h ->
  headers (http_args (cat (snd (_get_http_args ps w))))
  = Some (written_headers (cat w) h)
  /\ (forall sid, _source_id (cat w) = Some sid ->
      dict_get "source-id" (written_headers (cat w) h) = Some sid)
  /\ (forall k v, dict_last k (get_headers (auth (cat w))) = Some v ->
      k <> "source-id" ->
      dict_get k (written_headers (cat w) h) = Some v)
  /\ (forall p, params (http_args (cat w)) = Some p ->
      params (http_args (cat (snd (_get_http_args ps w))))
      = Some (dict_update p ps)
      /\ forall k v ps',
           dict_last k ps = Some v -> dict_last k ps' = None ->
           option_map (dict_get k)
             (params (sent_http_args (cat (snd (_get_http_args ps w))) ps'))
           = Some (Some v))
  /\ (params (http_args (cat w)) = None ->
      params (http_args (cat (snd (_get_http_args ps w)))) = None)
  /\ http_args (cat (snd (_load srv w)))
     = http_args (cat (snd (_get_http_args (load_params (cat w)) w)))
  /\ (forall page_offset page_size,
        _page_size (cat w) = Some page_size ->
        http_args (cat (snd (fetch_page srv page_offset w)))
        = http_args
            (cat (snd (_get_http_args (page_params page_offset page_size) w))))
  /\ (forall n,
        http_args (cat (snd (fetch_by_name srv n w)))
        = http_args (cat (snd (_get_http_args [("name", PStr n)] w))))
  /\ (forall args kw,
        http_args (cat (snd (search urljoin netloc BaseClientAuth srv
                               args kw w)))
        = http_args (cat (snd (_get_http_args [] w)))).
Proof.
  intros Hh.
  split.
  { unfold _get_http_args, written_headers.
    cbn [snd cat http_args set_http_args headers]. rewrite Hh.
    cbn [or_empty]. now destruct (_source_id (cat w)). }
  split.
  { intros sid Hsid. unfold written_headers. rewrite Hsid.
    apply dict_get_set_same. }
  split.
  { intros k v Hk Hne. unfold written_headers.
    assert (Hu : dict_get k (dict_update h (get_headers (auth (cat w))))
                 = Some v).
    { rewrite dict_get_update. unfold dict_last in Hk. now rewrite Hk. }
    destruct (_source_id (cat w)); [|exact Hu].
    now rewrite dict_get_set_other. }
  split.
  { intros p Hp. split.
    - unfold _get_http_args.
      cbn [snd cat http_args set_http_args params]. now rewrite Hp.
    - intros k v ps' Hk Hk'.
      unfold sent_http_args, _get_http_args.
      cbn [fst snd cat http_args set_http_args params]. rewrite Hp.
      cbn [or_empty option_map].
      rewrite !dict_get_update. unfold dict_last in *.
      now rewrite Hk', Hk. }
  split.
  { intros Hp. unfold _get_http_args.
    cbn [snd cat http_args set_http_args params]. now rewrite Hp. }
  split; [now rewrite kept_after_load, kept_after_call|].
  split.
  { intros page_offset page_size Hps.
    now rewrite (fetch_page_eq srv _ _ Hps). }
  split.
  { intros n. now rewrite fetch_by_name_eq. }
  intros args kw. rewrite search_eq. cbv zeta.
  destruct (raise_for_status _); [reflexivity|].
  destruct (content _); reflexivity.
Qed.

(** A catalog with a token provider, the scope [scope-0] and a stored params
    dict: after a lookup of [z] failed, the stored headers hold the token and
    the scope, and the stored params hold the name, which the next [_load]
    sends along. *)
Lemma get_http_args_writes_in_place_witness :
  headers (http_args (cat Fixture.keyed_world)) = Some []
  /\ headers
       (http_args (cat (snd (fetch_by_name Fixture.paged "z"
                               Fixture.keyed_world))))
     = Some [("authorization", "Bearer t0k3n"); ("source-id", "scope-0")]
  /\ params
       (http_args (cat (snd (fetch_by_name Fixture.paged "z"
                               Fixture.keyed_world))))
     = Some [("format", PStr "msgpack"); ("name", PStr "z")]
  /\ option_map (dict_get "name")
       (params
          (req_args
             (load_request
                (cat (snd (_get_http_args [("name", PStr "z")]
                             Fixture.keyed_world))))))
     = Some (Some (PStr "z")).
Proof.
  assert (Hh : headers (http_args (cat Fixture.keyed_world)) = Some [])
    by (vm_compute; reflexivity).
  destruct (@get_http_args_writes_in_place Fixture.paged Fixture.urljoin
              Fixture.netloc Fixture.BaseClientAuth Fixture.keyed_world
              [("name", PStr "z")] [] Hh)
    as (Hheaders & _ & _ & Hparams & _ & _ & _ & Hname & _).
  destruct (Hparams [("format", PStr "msgpack")])
    as [Hkept Hlater]; [vm_compute; reflexivity|].
  split; [exact Hh|].
  split; [rewrite Hname, Hheaders; vm_compute; reflexivity|].
  split; [rewrite Hname, Hkept; vm_compute; reflexivity|].
  apply (Hlater "name" (PStr "z")
           (load_params (cat (snd (_get_http_args [("name", PStr "z")]
                                     Fixture.keyed_world)))));
    vm_compute; reflexivity.
Defined.

(** * Further properties of the code *)

(** ** More on dicts *)

Section DictMore.

Variable V : Type.
Implicit Types (d : dict V) (k : string) (v : V).

Lemma dict_get_In_keys d k v : dict_get k d = Some v -> In k (dict_keys d).
Proof.
  induction d as [|[k' v'] d IH]; simpl; [discriminate|].
  destruct (String.eqb k k') eqn:E.
  - apply String.eqb_eq in E. subst. auto.
  - auto.
Qed.

Lemma dict_get_In d k v : dict_get k d = Some v -> In (k, v) d.
Proof.
  induction d as [|[k' v'] d IH]; simpl; [discriminate|].
  destruct (String.eqb k k') eqn:E.
  - intros H. inversion H. subst. apply String.eqb_eq in E. subst. auto.
  - auto.
Qed.

Lemma dict_keys_In_get (d : dict V) (k : string) :
  In k (dict_keys d) -> exists v, dict_get k d = Some v.
Proof.
  induction d as [|[k' v'] d IH]; simpl; [intros []|].
  intros [->|Hin].
  - rewrite String.eqb_refl. eauto.
  - destruct (String.eqb k k'); eauto.
Qed.

Lemma dict_get_not_In d k : ~ In k (dict_keys d) -> dict_get k d = None.
Proof.
  intros Hnin. destruct (dict_get k d) eqn:E; auto.
  exfalso. eauto using dict_get_In_keys.
Qed.

(** Two dicts with the same keys in the same order and the same value under
    each key are the same dict. *)
Lemma dict_ext d1 d2 :
  NoDup (dict_keys d1) ->
  dict_keys d1 = dict_keys d2 ->
  (forall k, dict_get k d1 = dict_get k d2) ->
  d1 = d2.
Proof.
  revert d2. induction d1 as [|[k1 v1] d1 IH]; intros [|[k2 v2] d2] Hnd Hk Hg;
    simpl in *; try discriminate; auto.
  inversion Hk; subst. inversion Hnd; subst.
  assert (v1 = v2).
  { specialize (Hg k2). rewrite String.eqb_refl in Hg. congruence. }
  subst. f_equal. apply IH; auto.
  intros k. specialize (Hg k).
  destruct (String.eqb k k2) eqn:E; auto.
  apply String.eqb_eq in E. subst.
  rewrite !dict_get_not_In; auto. congruence.
Qed.

End DictMore.

Lemma key_merge_In (l ks : list string) (k : string) :
  In k (key_merge l ks) <-> In k l \/ In k ks.
Proof.
  revert l. induction ks as [|a ks IH]; intros l; simpl.
  - unfold key_merge. simpl. tauto.
  - unfold key_merge in *. simpl. rewrite IH.
    destruct (existsb (String.eqb a) l) eqn:E.
    + apply existsb_eqb_In in E. split; [tauto|].
      intros [H|[H|H]]; subst; auto.
    + rewrite in_app_iff. simpl. tauto.
Qed.

Lemma key_merge_absorb (l ks : list string) :
  (forall k, In k ks -> In k l) -> key_merge l ks = l.
Proof.
  revert l. induction ks as [|a ks IH]; intros l H; auto.
  unfold key_merge in *. simpl.
  assert (E : existsb (String.eqb a) l = true).
  { apply existsb_eqb_In. apply H. now left. }
  rewrite E. apply IH. intros k Hk. apply H. now right.
Qed.

(** The keys that were there keep their places, new ones follow. *)
Lemma key_merge_prefix (l ks : list string) :
  exists extra, key_merge l ks = l ++ extra.
Proof.
  revert l. induction ks as [|a ks IH]; intros l.
  - exists []. now rewrite app_nil_r.
  - unfold key_merge in *. simpl.
    destruct (existsb (String.eqb a) l); [apply IH|].
    destruct (IH (l ++ [a])) as [extra He].
    exists (a :: extra). rewrite He. now rewrite <- app_assoc.
Qed.

Lemma key_merge_length (l ks : list string) :
  List.length (key_merge l ks) <= List.length l + List.length ks.
Proof.
  revert l. induction ks as [|a ks IH]; intros l.
  - unfold key_merge. simpl. lia.
  - unfold key_merge in *. simpl.
    destruct (existsb (String.eqb a) l).
    + specialize (IH l). lia.
    + specialize (IH (l ++ [a])). rewrite length_app in IH. simpl in IH. lia.
Qed.

(** Every key was new and distinct exactly when nothing was merged away. *)
Lemma key_merge_full (l ks : list string) :
  NoDup l ->
  List.length (key_merge l ks) = List.length l + List.length ks ->
  NoDup (l ++ ks).
Proof.
  revert l. induction ks as [|a ks IH]; intros l Hnd Hlen.
  - now rewrite app_nil_r.
  - unfold key_merge in *. simpl in Hlen.
    destruct (existsb (String.eqb a) l) eqn:E.
    + pose proof (key_merge_length l ks) as Hle.
      unfold key_merge in Hle. simpl in Hlen. lia.
    + assert (Hnin : ~ In a l).
      { intro Hin. apply existsb_eqb_In in Hin. congruence. }
      assert (Hnd' : NoDup (l ++ [a])).
      { apply NoDup_app; auto.
        - constructor; [intros []|constructor].
        - intros x Hx [Heq|[]]. subst. contradiction. }
      specialize (IH (l ++ [a]) Hnd').
      rewrite length_app in IH. simpl in IH, Hlen.
      rewrite <- app_assoc in IH. simpl in IH. apply IH. lia.
Qed.

(** Updating twice with the same items changes nothing the second time. *)
Lemma dict_update_idem (V : Type) (d other : dict V) :
  NoDup (dict_keys d) ->
  dict_update (dict_update d other) other = dict_update d other.
Proof.
  intros Hnd. apply dict_ext.
  - now apply dict_update_NoDup, dict_update_NoDup.
  - rewrite !dict_keys_update. apply key_merge_absorb.
    intros k Hk. apply key_merge_In. now right.
  - intros k. rewrite !dict_get_update.
    now destruct (dict_get k (rev other)).
Qed.

Lemma dict_set_idem (V : Type) (d : dict V) (k : string) (v : V) :
  dict_set k v (dict_set k v d) = dict_set k v d.
Proof.
  induction d as [|[k' v'] d IH]; simpl.
  - now rewrite String.eqb_refl.
  - destruct (String.eqb k k') eqn:E; simpl; rewrite E; auto.
    now rewrite IH.
Qed.

(** A dict built from items whose keys are distinct is the items. *)
Lemma dict_of_items_distinct (V : Type) (items : list (string * V)) :
  NoDup (map fst items) -> dict_of_items items = items.
Proof.
  intros Hnd. unfold dict_of_items. now rewrite dict_update_fresh.
Qed.

(** It has as many entries as items exactly when their keys are distinct. *)
Lemma dict_of_items_length (V : Type) (items : list (string * V)) :
  List.length (dict_of_items items) <= List.length items
  /\ (List.length (dict_of_items items) = List.length items
      <-> NoDup (map fst items)).
Proof.
  assert (Hk : List.length (dict_of_items items)
               = List.length (key_merge [] (map fst items))).
  { unfold dict_of_items.
    replace (List.length (dict_update [] items))
      with (List.length (dict_keys (dict_update [] items)))
      by (unfold dict_keys; apply length_map).
    now rewrite dict_keys_update. }
  split.
  - rewrite Hk. pose proof (key_merge_length [] (map fst items)) as H.
    rewrite length_map in H. simpl in H. exact H.
  - split.
    + intros Hlen.
      apply (@key_merge_full [] (map fst items)); [constructor|].
      rewrite <- Hk, Hlen, length_map. reflexivity.
    + intros Hnd. now rewrite dict_of_items_distinct.
Qed.

(** ** Point lookups and the cache *)

Lemma no_error_is_not_404 (r : Response) :
  raise_for_status r = None -> (status_code r =? 404) = false.
Proof.
  unfold raise_for_status, is_http_error.
  destruct (status_code r =? 404) eqn:E; auto.
  apply Nat.eqb_eq in E. rewrite E. discriminate.
Qed.

(** X1.  A name in neither tier is fetched with one request; the entry built
    from the answer is returned and kept in the direct tier under the name
    that was asked for, and from then on the lookup is answered from the
    cache, whatever the server would say. *)
Theorem lookup_fetches_once (srv : Server) (key : string) (w : World)
    (source : Source) :
  dict_get key (direct_tier w) = None ->
  dict_get key (page_tier w) = None ->
  raise_for_status (srv (log w) (name_request (cat w) key)) = None ->
  content (srv (log w) (name_request (cat w) key)) = SourcePayload source ->
  exists w',
    Entries__getitem__ srv key w
    = (Ok (RemoteCatalogEntry__init__ (url (cat w)) (auth (cat w))
             (_page_size (cat w)) (pmode (cat w)) (getenv (cat w))
             (getshell (cat w)) source), w')
    /\ log w' = log w ++ [name_request (cat w) key]
    /\ dict_get key (direct_tier w')
       = Some (RemoteCatalogEntry__init__ (url (cat w)) (auth (cat w))
                 (_page_size (cat w)) (pmode (cat w)) (getenv (cat w))
                 (getshell (cat w)) source)
    /\ forall srv',
         Entries__getitem__ srv' key w'
         = (Ok (RemoteCatalogEntry__init__ (url (cat w)) (auth (cat w))
                  (_page_size (cat w)) (pmode (cat w)) (getenv (cat w))
                  (getshell (cat w)) source), w').
Proof.
  intros Hd Hp Hok Hsrc.
  rewrite (getitem_miss srv key w Hd Hp), fetch_by_name_eq. cbv zeta.
  rewrite (no_error_is_not_404 _ Hok), Hok, Hsrc.
  eexists. split; [reflexivity|]. split; [reflexivity|].
  assert (Hkept : forall e w0,
            direct_tier w0 = dict_set key e (direct_tier w) ->
            dict_get key (direct_tier w0) = Some e).
  { intros e w0 ->. apply dict_get_set_same. }
  split.
  - apply Hkept. reflexivity.
  - intros srv'. apply getitem_direct_hit. apply Hkept. reflexivity.
Qed.

Lemma lookup_fetches_once_witness :
  exists w',
    Entries__getitem__ (Fixture.paged_server [] Fixture.abcde) "c"
      Fixture.fresh_world
    = (Ok (RemoteCatalogEntry__init__ "http://localhost:5000/"
             Fixture.BaseClientAuth (Some 2) "default" true true
             (Fixture.source_named "c" "listed")), w')
    /\ forall srv',
         fst (Entries__getitem__ srv' "c" w')
         = Ok (RemoteCatalogEntry__init__ "http://localhost:5000/"
                 Fixture.BaseClientAuth (Some 2) "default" true true
                 (Fixture.source_named "c" "listed")).
Proof.
  destruct (@lookup_fetches_once (Fixture.paged_server [] Fixture.abcde) "c"
              Fixture.fresh_world (Fixture.source_named "c" "listed"))
    as (w' & Hrun & _ & _ & Hagain); try (vm_compute; reflexivity).
  exists w'. split; [exact Hrun|].
  intros srv'. rewrite (Hagain srv'). reflexivity.
Defined.

(** X2.  Whatever a lookup does and however it ends, it leaves the page tier,
    the offset, the flag and the page size as they were, and the direct tier
    as it was under every other name. *)
Theorem lookup_keeps_page_state (srv : Server) (key : string) (w : World) :
  page_tier (snd (Entries__getitem__ srv key w)) = page_tier w
  /\ _page_offset (_entries (cat (snd (Entries__getitem__ srv key w))))
     = _page_offset (_entries (cat w))
  /\ complete (_entries (cat (snd (Entries__getitem__ srv key w))))
     = complete (_entries (cat w))
  /\ _page_size (cat (snd (Entries__getitem__ srv key w)))
     = _page_size (cat w)
  /\ forall k, k <> key ->
       dict_get k (direct_tier (snd (Entries__getitem__ srv key w)))
       = dict_get k (direct_tier w).
Proof.
  destruct (dict_get key (direct_tier w)) as [e|] eqn:Hd.
  { rewrite (getitem_direct_hit srv key w Hd). cbn [snd]. auto. }
  destruct (dict_get key (page_tier w)) as [e|] eqn:Hp.
  { rewrite (getitem_page_hit srv key w Hd Hp). cbn [snd]. auto. }
  rewrite (getitem_miss srv key w Hd Hp), fetch_by_name_eq. cbv zeta.
  destruct (status_code _ =? 404); [cbn [snd]; auto|].
  destruct (raise_for_status _); [cbn [snd]; auto|].
  destruct (content _); try (cbn [snd]; auto).
  unfold page_tier, direct_tier. simp_state.
  repeat split; auto.
  intros k Hk. now apply dict_get_set_other.
Qed.

(** ** Loading *)

(** X3.  A metadata request that fails with an HTTP error raises before
    anything is reset: the entries container, the metadata, the declared
    length and the page size are those from before the call. *)
Theorem failed_load_keeps_cache (srv : Server) (w : World) :
  is_http_error (srv (log w) (load_request (cat w))) = true ->
  (exists e, fst (_load srv w) = Raise e)
  /\ _entries (cat (snd (_load srv w))) = _entries (cat w)
  /\ metadata (cat (snd (_load srv w))) = metadata (cat w)
  /\ _len (cat (snd (_load srv w))) = _len (cat w)
  /\ _page_size (cat (snd (_load srv w))) = _page_size (cat w).
Proof.
  intros Herr. rewrite _load_eq. cbv zeta.
  rewrite (raise_for_status_error _ Herr). cbn [err_msg].
  destruct (Str.contains "403" _); cbn [fst snd]; simp_state;
    repeat split; eauto.
Qed.

Lemma failed_load_keeps_cache_witness :
  page_tier (snd (_load Fixture.broken Fixture.drained_world))
  = page_tier Fixture.drained_world
  /\ dict_keys (page_tier Fixture.drained_world) = ["a"; "b"; "c"; "d"; "e"].
Proof.
  destruct (@failed_load_keeps_cache Fixture.broken Fixture.drained_world)
    as (_ & Hentries & _); [vm_compute; reflexivity|].
  split; [|vm_compute; reflexivity].
  unfold page_tier. now rewrite Hentries.
Defined.

Lemma load_success (srv : Server) (w : World) (md : dict pyval)
    (len : option nat) (sources : list Source) :
  raise_for_status (srv (log w) (load_request (cat w))) = None ->
  content (srv (log w) (load_request (cat w))) = InfoPayload md len sources ->
  fst (_load srv w) = Ok tt
  /\ direct_tier (snd (_load srv w)) = []
  /\ page_tier (snd (_load srv w)) = inline_entries (cat w) sources
  /\ _page_offset (_entries (cat (snd (_load srv w)))) = 0
  /\ metadata (cat (snd (_load srv w))) = MetaOfInfo md
  /\ _len (cat (snd (_load srv w))) = len.
Proof.
  intros Hok Hinfo. rewrite _load_eq. cbv zeta. rewrite Hok, Hinfo.
  destruct sources as [|s sources]; unfold page_tier, direct_tier;
    simp_state; cbn [Entries__init__ _direct_lookup_cache _page_cache
                     _page_offset]; repeat split; auto.
  apply dict_update_empty, dict_of_items_NoDup.
Qed.

(** X4.  A metadata request that succeeds replaces the cache: the direct tier
    is emptied, the offset is back at 0, the page tier holds the inline
    entries of the answer and nothing else, and the metadata and the declared
    length are those of the answer. *)
Theorem load_replaces_cache (srv : Server) (w : World) (md : dict pyval)
    (len : option nat) (sources : list Source) :
  raise_for_status (srv (log w) (load_request (cat w))) = None ->
  content (srv (log w) (load_request (cat w))) = InfoPayload md len sources ->
  fst (_load srv w) = Ok tt
  /\ direct_tier (snd (_load srv w)) = []
  /\ page_tier (snd (_load srv w)) = inline_entries (cat w) sources
  /\ _page_offset (_entries (cat (snd (_load srv w)))) = 0
  /\ metadata (cat (snd (_load srv w))) = MetaOfInfo md
  /\ _len (cat (snd (_load srv w))) = len.
Proof.
  intros Hok Hinfo. rewrite _load_eq. cbv zeta. rewrite Hok, Hinfo.
  destruct sources as [|s sources]; unfold page_tier, direct_tier;
    simp_state; cbn [Entries__init__ _direct_lookup_cache _page_cache
                     _page_offset]; repeat split; auto.
  apply dict_update_empty, dict_of_items_NoDup.
Qed.

Lemma load_replaces_cache_witness :
  direct_tier Fixture.stale_world <> []
  /\ direct_tier (snd (_load Fixture.paged Fixture.stale_world)) = []
  /\ page_tier (snd (_load Fixture.paged Fixture.stale_world)) = [].
Proof.
  destruct (@load_replaces_cache Fixture.paged Fixture.stale_world [] (Some 5)
              [])
    as (_ & Hd & Hp & _); try (vm_compute; reflexivity).
  split; [vm_compute; discriminate|]. split; [exact Hd|exact Hp].
Defined.

(** X5.  After a load whose answer declares a length, [__len__] returns that
    length and sends nothing, whatever is cached. *)
Theorem declared_length_is_returned (srv : Server) (w : World)
    (md : dict pyval) (n : nat) (sources : list Source) :
  raise_for_status (srv (log w) (load_request (cat w))) = None ->
  content (srv (log w) (load_request (cat w)))
  = InfoPayload md (Some n) sources ->
  forall srv' fuel,
    RemoteCatalog__len__ srv' fuel (snd (_load srv w))
    = (Ok n, snd (_load srv w)).
Proof.
  intros Hok Hinfo srv' fuel.
  destruct (@load_success srv w md (Some n) sources Hok Hinfo)
    as (_ & _ & _ & _ & _ & Hlen).
  unfold RemoteCatalog__len__, bind, gets. cbn [fst snd].
  now rewrite Hlen.
Qed.

Lemma declared_length_is_returned_witness :
  RemoteCatalog__len__ Fixture.paged 0 Fixture.loaded_world
  = (Ok 5, Fixture.loaded_world)
  /\ page_tier Fixture.loaded_world = [].
Proof.
  split; [|vm_compute; reflexivity].
  exact (@declared_length_is_returned Fixture.paged Fixture.fresh_world [] 5
           [] ltac:(vm_compute; reflexivity) ltac:(vm_compute; reflexivity)
           Fixture.paged 0).
Defined.

(** ** Iteration, step by step *)

Section IterationMore.

Variable srv : Server.

(** One turn of the loop. *)
Lemma fetch_loop_eq (fuel : nat) (w : World) :
  fetch_loop srv (S fuel) w
  = match fetch_page srv (_page_offset (_entries (cat w))) w with
    | (Ok page, w1) =>
        match _page_size (cat w1) with
        | None =>
            (Raise TypeError,
             {| cat := merge_page page (cat w1); log := log w1 |})
        | Some page_size =>
            if List.length page <? page_size
            then (Ok (dict_keys page),
                  {| cat := set_entries
                              (set_complete true
                                 (_entries (merge_page page (cat w1))))
                              (merge_page page (cat w1));
                     log := log w1 |})
            else
              match fetch_loop srv fuel
                      {| cat := merge_page page (cat w1); log := log w1 |}
              with
              | (Ok rest, w2) => (Ok (dict_keys page ++ rest), w2)
              | (Raise e, w2) => (Raise e, w2)
              | (OutOfFuel, w2) => (OutOfFuel, w2)
              end
        end
    | (Raise e, w1) => (Raise e, w1)
    | (OutOfFuel, w1) => (OutOfFuel, w1)
    end.
Proof.
  cbn [fetch_loop]. unfold bind at 1. unfold gets at 1. unfold bind at 1.
  destruct (fetch_page srv (_page_offset (_entries (cat w))) w)
    as [[page|e|] w1]; try reflexivity.
  unfold bind, modify, gets, ret, raise, merge_page. simp_state.
  destruct (_page_size (cat w1)) as [ps|]; [|reflexivity].
  destruct (List.length page <? ps); [reflexivity|].
  destruct (fetch_loop srv fuel _) as [[rest|e|] w2]; reflexivity.
Qed.

Lemma iter_eq (fuel : nat) (w : World) :
  Entries__iter__ srv fuel w
  = match _page_size (cat w) with
    | None => (Ok (dict_keys (page_tier w)), w)
    | Some _ =>
        match fetch_loop srv fuel w with
        | (Ok fetched, w') => (Ok (dict_keys (page_tier w) ++ fetched), w')
        | (Raise e, w') => (Raise e, w')
        | (OutOfFuel, w') => (OutOfFuel, w')
        end
    end.
Proof.
  unfold Entries__iter__, bind, gets, page_tier. simp_state.
  destruct (_page_size (cat w)); [|reflexivity].
  destruct (fetch_loop srv fuel w) as [[fetched|e|] w']; reflexivity.
Qed.

(** [fetch_page] touches the stored [http_args] and nothing else. *)
Lemma fetch_page_frame (page_offset : nat) (w : World) :
  exists h,
    cat (snd (fetch_page srv page_offset w)) = set_http_args h (cat w).
Proof.
  destruct (_page_size (cat w)) as [ps|] eqn:Hps.
  - rewrite (fetch_page_eq srv _ _ Hps). cbn [snd cat]. unfold touched. eauto.
  - rewrite fetch_page_unpaged by auto. cbn [snd].
    exists (http_args (cat w)). now destruct (cat w).
Qed.

(** What the loop keeps, however it ends. *)
Lemma fetch_loop_keeps (fuel : nat) :
  forall w,
    (exists extra,
       dict_keys (page_tier (snd (fetch_loop srv fuel w)))
       = dict_keys (page_tier w) ++ extra)
    /\ direct_tier (snd (fetch_loop srv fuel w)) = direct_tier w
    /\ _page_size (cat (snd (fetch_loop srv fuel w))) = _page_size (cat w)
    /\ _page_offset (_entries (cat w))
       <= _page_offset (_entries (cat (snd (fetch_loop srv fuel w)))).
Proof.
  induction fuel as [|fuel IH]; intros w.
  - cbn [fetch_loop out_of_fuel snd]. repeat split; auto.
    exists []. now rewrite app_nil_r.
  - rewrite fetch_loop_eq.
    destruct (fetch_page_frame (_page_offset (_entries (cat w))) w)
      as [h Hframe].
    destruct (fetch_page srv (_page_offset (_entries (cat w))) w)
      as [[page|e|] w1]; cbn [snd] in Hframe.
    + assert (Hmerged :
          (exists extra,
             dict_keys (_page_cache (_entries (merge_page page (cat w1))))
             = dict_keys (page_tier w) ++ extra)
          /\ _direct_lookup_cache (_entries (merge_page page (cat w1)))
             = direct_tier w
          /\ _page_size (merge_page page (cat w1)) = _page_size (cat w)
          /\ _page_offset (_entries (cat w))
             <= _page_offset (_entries (merge_page page (cat w1)))).
      { rewrite Hframe. unfold merge_page, page_tier, direct_tier.
        simp_state. repeat split; auto; [|lia].
        rewrite dict_keys_update. apply key_merge_prefix. }
      destruct Hmerged as ((extra & Hk) & Hd & Hs & Ho).
      destruct (_page_size (cat w1)) as [ps|].
      * destruct (List.length page <? ps).
        -- unfold page_tier, direct_tier. simp_state. repeat split; eauto.
        -- specialize (IH {| cat := merge_page page (cat w1);
                             log := log w1 |}).
           destruct IH as ((extra' & Hk') & Hd' & Hs' & Ho').
           unfold page_tier, direct_tier in *. simp_state.
           assert (Hgoal :
               (exists extra0,
                  dict_keys
                    (_page_cache
                       (_entries
                          (cat (snd (fetch_loop srv fuel
                                       {| cat := merge_page page (cat w1);
                                          log := log w1 |})))))
                  = dict_keys (_page_cache (_entries (cat w))) ++ extra0)
               /\ _direct_lookup_cache
                    (_entries
                       (cat (snd (fetch_loop srv fuel
                                    {| cat := merge_page page (cat w1);
                                       log := log w1 |}))))
                  = _direct_lookup_cache (_entries (cat w))
               /\ _page_size
                    (cat (snd (fetch_loop srv fuel
                                 {| cat := merge_page page (cat w1);
                                    log := log w1 |})))
                  = _page_size (cat w)
               /\ _page_offset (_entries (cat w))
                  <= _page_offset
                       (_entries
                          (cat (snd (fetch_loop srv fuel
                                       {| cat := merge_page page (cat w1);
                                          log := log w1 |}))))).
           { repeat split; try congruence; [|lia].
             exists (extra ++ extra'). rewrite Hk', Hk.
             now rewrite <- app_assoc. }
           destruct (fetch_loop srv fuel _) as [[rest|e|] w2];
             cbn [snd] in *; exact Hgoal.
      * unfold page_tier, direct_tier. simp_state. repeat split; eauto.
    + cbn [snd]. unfold page_tier, direct_tier. rewrite Hframe. simp_state.
      repeat split; auto. exists []. now rewrite app_nil_r.
    + cbn [snd]. unfold page_tier, direct_tier. rewrite Hframe. simp_state.
      repeat split; auto. exists []. now rewrite app_nil_r.
Qed.

End IterationMore.

(** ** Paging through a list *)

Lemma page_request_asks (c : RemoteCatalog) (off ps : nat) :
  method (page_request c off ps) = "GET"
  /\ target (page_request c off ps) = info_url c
  /\ dict_get "page_offset"
       (or_empty (params (req_args (page_request c off ps))))
     = Some (PInt off)
  /\ dict_get "page_size"
       (or_empty (params (req_args (page_request c off ps))))
     = Some (PInt ps).
Proof.
  unfold page_request, sent_http_args, _get_http_args, page_params.
  cbn [method target req_args fst params or_empty].
  repeat split; rewrite dict_get_update; reflexivity.
Qed.

(** A page of entries with distinct names holds them in the order sent. *)
Lemma page_entries_distinct (c : RemoteCatalog) (sources : list Source) :
  NoDup (map src_name sources) ->
  dict_keys (page_entries c sources) = map src_name sources
  /\ List.length (page_entries c sources) = List.length sources.
Proof.
  intros Hnd. unfold page_entries.
  rewrite dict_of_items_distinct.
  - unfold dict_keys. rewrite map_map, length_map. cbn [fst]. auto.
  - rewrite map_map. exact Hnd.
Qed.

Lemma NoDup_app_l (A : Type) (l1 l2 : list A) :
  NoDup (l1 ++ l2) -> NoDup l1.
Proof.
  induction l1 as [|a l1 IH]; simpl; intros H; [constructor|].
  inversion H; subst. constructor; auto.
  intro Hin. apply H2. apply in_or_app. now left.
Qed.

Lemma NoDup_app_r (A : Type) (l1 l2 : list A) :
  NoDup (l1 ++ l2) -> NoDup l2.
Proof.
  induction l1 as [|a l1 IH]; simpl; intros H; auto.
  inversion H; subst. auto.
Qed.

Lemma skipn_done (A : Type) (done rest : list A) :
  skipn (List.length done) (done ++ rest) = rest.
Proof. induction done; simpl; auto. Qed.

Lemma fetch_loop_serves (srv : Server) (ps : nat) (fuel : nat) :
  forall (w : World) (done rest : list Source),
    serves_pages srv (info_url (cat w)) ps (done ++ rest) ->
    _page_size (cat w) = Some ps ->
    0 < ps ->
    _page_offset (_entries (cat w)) = List.length done ->
    NoDup (dict_keys (page_tier w) ++ map src_name rest) ->
    List.length rest / ps < fuel ->
    exists w',
      fetch_loop srv fuel w = (Ok (map src_name rest), w')
      /\ dict_keys (page_tier w')
         = dict_keys (page_tier w) ++ map src_name rest
      /\ _page_offset (_entries (cat w'))
         = List.length done + List.length rest
      /\ complete (_entries (cat w')) = true
      /\ List.length (log w')
         = List.length (log w) + S (List.length rest / ps).
Proof.
  induction fuel as [|fuel IH]; intros w done rest Hsrv Hps Hpos Hoff Hnd Hfuel;
    [lia|].
  rewrite fetch_loop_eq, (fetch_page_eq srv _ _ Hps). cbv zeta.
  destruct (page_request_asks (cat w) (_page_offset (_entries (cat w))) ps)
    as (Hm & Ht & Hpo & Hpz).
  destruct (Hsrv (log w) _ _ Hm Ht Hpo Hpz) as (Hok & md & len & Hpage).
  rewrite Hok, Hpage, Hoff, skipn_done.
  assert (Hnd_rest : NoDup (map src_name rest)) by eauto using NoDup_app_r.
  assert (Hsplit : map src_name rest
                   = map src_name (firstn ps rest)
                     ++ map src_name (skipn ps rest)).
  { now rewrite <- map_app, firstn_skipn. }
  assert (Hnd_first : NoDup (map src_name (firstn ps rest))).
  { rewrite Hsplit in Hnd_rest. eauto using NoDup_app_l. }
  destruct (@page_entries_distinct (cat w) _ Hnd_first) as [Hkeys Hlen].
  simp_state. rewrite Hps, Hlen.
  destruct (Nat.ltb_spec (List.length rest) ps) as [Hshort|Hfull].
  - rewrite firstn_all2 in * by lia.
    assert (Hlt : (List.length rest <? ps) = true) by now apply Nat.ltb_lt.
    rewrite Hlt. eexists. split; [now rewrite Hkeys|].
    unfold merge_page, page_tier. simp_state.
    rewrite dict_keys_update, Hkeys, Nat.div_small by lia.
    repeat split; auto.
    all: try (now apply key_merge_fresh).
    all: try (rewrite length_app; simpl; lia).
  - assert (Hfirst : List.length (firstn ps rest) = ps)
      by now apply firstn_length_le.
    rewrite Hfirst, Nat.ltb_irrefl.
    assert (Hdiv : List.length rest / ps
                   = S (List.length (skipn ps rest) / ps)).
    { rewrite length_skipn.
      replace (List.length rest) with ((List.length rest - ps) + 1 * ps)
        at 1 by lia.
      rewrite Nat.div_add by lia. lia. }
    destruct (IH {| cat := merge_page (page_entries (cat w) (firstn ps rest))
                             (touched (cat w)
                                (page_params (List.length done) ps));
                    log := log w
                           ++ [page_request (cat w) (List.length done) ps] |}
                (done ++ firstn ps rest) (skipn ps rest))
      as (w' & Hrun & Hk' & Ho' & Hc' & Hl').
    + simp_state. unfold merge_page. simp_state.
      now rewrite <- app_assoc, firstn_skipn.
    + exact Hps.
    + exact Hpos.
    + unfold merge_page. simp_state. rewrite Hoff, Hlen, length_app. lia.
    + unfold merge_page, page_tier. simp_state.
      rewrite dict_keys_update, Hkeys.
      rewrite key_merge_fresh.
      * rewrite <- app_assoc, <- Hsplit. exact Hnd.
      * rewrite Hsplit, app_assoc in Hnd. eauto using NoDup_app_l.
    + lia.
    + exists w'. rewrite Hrun. split; [now rewrite Hkeys, <- Hsplit|].
      unfold merge_page, page_tier in *. simp_state.
      rewrite dict_keys_update, Hkeys in Hk'.
      rewrite key_merge_fresh in Hk'.
      * repeat split; auto.
        -- now rewrite Hk', <- app_assoc, <- Hsplit.
        -- rewrite Ho', length_app, length_skipn, Hfirst. lia.
        -- rewrite Hl', length_app. simpl. lia.
      * rewrite Hsplit, app_assoc in Hnd. eauto using NoDup_app_l.
Qed.

(** X6.  Against a server that pages through a fixed list of entries with
    distinct names, a catalog with an empty page tier and a positive page
    size yields all the names in the server's order, keeps them in that order
    in the page tier, ends with the flag set and the offset at the number of
    entries, and has sent one request per full page plus one. *)
Theorem drain_yields_the_list (srv : Server) (ps : nat) (w : World)
    (listed : list Source) :
  serves_pages srv (info_url (cat w)) ps listed ->
  _page_size (cat w) = Some ps ->
  0 < ps ->
  page_tier w = [] ->
  _page_offset (_entries (cat w)) = 0 ->
  NoDup (map src_name listed) ->
  forall fuel, List.length listed / ps < fuel ->
    exists w',
      Entries__iter__ srv fuel w = (Ok (map src_name listed), w')
      /\ dict_keys (page_tier w') = map src_name listed
      /\ _page_offset (_entries (cat w')) = List.length listed
      /\ complete (_entries (cat w')) = true
      /\ List.length (log w')
         = List.length (log w) + S (List.length listed / ps).
Proof.
  intros Hsrv Hps Hpos Hempty Hoff Hnd fuel Hfuel.
  destruct (@fetch_loop_serves srv ps fuel w [] listed)
    as (w' & Hrun & Hk & Ho & Hc & Hl); auto.
  { now rewrite Hempty. }
  exists w'. rewrite iter_eq, Hps, Hrun, Hempty.
  rewrite Hempty in Hk. repeat split; auto.
Qed.

Lemma drain_yields_the_list_witness :
  exists w',
    Entries__iter__ Fixture.paged 3 Fixture.loaded_world
    = (Ok ["a"; "b"; "c"; "d"; "e"], w')
    /\ complete (_entries (cat w')) = true
    /\ List.length (log w') = List.length (log Fixture.loaded_world) + 3.
Proof.
  assert (Hsrv : serves_pages Fixture.paged
                   (info_url (cat Fixture.loaded_world)) 2 Fixture.abcde).
  { intros l rq off Hm Ht Hpo Hpz.
    unfold Fixture.paged, Fixture.paged_server, Fixture.is_info,
      Fixture.int_param.
    rewrite Hm, Ht, Hpo, Hpz.
    split; [reflexivity|]. eexists. eexists. reflexivity. }
  assert (Hnd : NoDup (map src_name Fixture.abcde)).
  { repeat constructor; simpl; intuition discriminate. }
  destruct (@drain_yields_the_list Fixture.paged 2 Fixture.loaded_world
              Fixture.abcde Hsrv ltac:(vm_compute; reflexivity)
              ltac:(lia) ltac:(vm_compute; reflexivity)
              ltac:(vm_compute; reflexivity) Hnd 3
              ltac:(vm_compute; lia))
    as (w' & Hrun & _ & _ & Hc & Hl).
  exists w'. split; [exact Hrun|]. split; [exact Hc|exact Hl].
Defined.

(** ** Iteration: failures, order, edge cases *)

(** X7.  When the request for the next page fails with an HTTP error, the
    iteration raises [RemoteCatalogError] naming the range asked for, after
    that one request, and leaves the entries container as it was: the next
    call resumes at the same offset. *)
Theorem failed_page_keeps_offset (srv : Server) (fuel ps : nat) (w : World) :
  _page_size (cat w) = Some ps ->
  is_http_error
    (srv (log w) (page_request (cat w) (_page_offset (_entries (cat w))) ps))
  = true ->
  fst (Entries__iter__ srv (S fuel) w)
  = Raise (RemoteCatalogError
             ("Failed to fetch page of entries "
              ++ Str.of_nat (_page_offset (_entries (cat w))) ++ "-"
              ++ Str.of_nat (_page_offset (_entries (cat w)) + ps) ++ ".")%string
             {| err_msg :=
                  http_error_msg
                    (srv (log w)
                       (page_request (cat w)
                          (_page_offset (_entries (cat w))) ps));
                err_response :=
                  srv (log w)
                    (page_request (cat w)
                       (_page_offset (_entries (cat w))) ps) |})
  /\ _entries (cat (snd (Entries__iter__ srv (S fuel) w))) = _entries (cat w)
  /\ log (snd (Entries__iter__ srv (S fuel) w))
     = log w
       ++ [page_request (cat w) (_page_offset (_entries (cat w))) ps].
Proof.
  intros Hps Herr.
  rewrite iter_eq, Hps, fetch_loop_eq, (fetch_page_eq srv _ _ Hps).
  cbv zeta. rewrite (raise_for_status_error _ Herr).
  cbn [fst snd]. simp_state. auto.
Qed.

Lemma failed_page_keeps_offset_witness :
  _entries (cat (snd (Entries__iter__ Fixture.broken 1 Fixture.drained_world)))
  = _entries (cat Fixture.drained_world)
  /\ _page_offset (_entries (cat Fixture.drained_world)) = 5.
Proof.
  split; [|vm_compute; reflexivity].
  exact (proj1 (proj2 (@failed_page_keeps_offset Fixture.broken 0 2
                         Fixture.drained_world
                         ltac:(vm_compute; reflexivity)
                         ltac:(vm_compute; reflexivity)))).
Defined.

(** X8.  However an iteration ends, the keys that were in the page tier are
    still there, in the same order, with any new ones after them; the direct
    tier and the page size are untouched and the offset has not gone back.
    When it returns, it has yielded the keys that were cached first. *)
Theorem iteration_keeps_order (srv : Server) (fuel : nat) (w : World) :
  (exists extra,
     dict_keys (page_tier (snd (Entries__iter__ srv fuel w)))
     = dict_keys (page_tier w) ++ extra)
  /\ direct_tier (snd (Entries__iter__ srv fuel w)) = direct_tier w
  /\ _page_size (cat (snd (Entries__iter__ srv fuel w))) = _page_size (cat w)
  /\ _page_offset (_entries (cat w))
     <= _page_offset (_entries (cat (snd (Entries__iter__ srv fuel w))))
  /\ forall ks,
       fst (Entries__iter__ srv fuel w) = Ok ks ->
       exists fetched, ks = dict_keys (page_tier w) ++ fetched.
Proof.
  rewrite iter_eq.
  destruct (_page_size (cat w)) as [ps|] eqn:Hps.
  - destruct (fetch_loop_keeps srv fuel w) as (Hk & Hd & Hs & Ho).
    destruct (fetch_loop srv fuel w) as [[fetched|e|] w'];
      cbn [fst snd] in *; rewrite ?Hps in *; repeat split; auto;
      try discriminate.
    intros ks Hks. inversion Hks. eauto.
  - cbn [fst snd]. repeat split; auto.
    + exists []. now rewrite app_nil_r.
    + intros ks Hks. inversion Hks. exists []. now rewrite app_nil_r.
Qed.

(** X9.  With a page size of 0 no page is ever short, so an iteration never
    returns: it runs until a request fails or the fuel is spent. *)
Theorem page_size_zero_never_completes (srv : Server) (fuel : nat)
    (w : World) (ks : list string) :
  _page_size (cat w) = Some 0 ->
  fst (Entries__iter__ srv fuel w) <> Ok ks.
Proof.
  intros Hps Hrun.
  rewrite iter_eq, Hps in Hrun.
  destruct (fetch_loop_keeps srv fuel w) as (_ & _ & Hsame & _).
  destruct (fetch_loop srv fuel w) as [[fetched|e|] w'] eqn:E;
    try discriminate Hrun.
  apply fetch_loop_ok in E. destruct E as ((ps & Hps' & Hpos) & _).
  cbn [snd] in Hsame. rewrite Hps', Hps in Hsame.
  inversion Hsame. lia.
Qed.

Lemma page_size_zero_never_completes_witness :
  _page_size (cat (Fixture.connect Fixture.localhost (Some 0) None)) = Some 0
  /\ fst (Entries__iter__ Fixture.paged 7
            (Fixture.connect Fixture.localhost (Some 0) None))
     <> Ok [].
Proof.
  split; [vm_compute; reflexivity|].
  apply page_size_zero_never_completes. vm_compute; reflexivity.
Defined.

(** X10.  A page is a dict: [fetch_page] keeps one entry per name, so the
    page has at most as many entries as the answer has records, and exactly
    as many when the names in the answer are distinct. *)
Theorem page_has_one_entry_per_name (srv : Server) (page_offset ps : nat)
    (w : World) (md : dict pyval) (len : option nat) (sources : list Source) :
  _page_size (cat w) = Some ps ->
  raise_for_status (srv (log w) (page_request (cat w) page_offset ps)) = None ->
  content (srv (log w) (page_request (cat w) page_offset ps))
  = InfoPayload md len sources ->
  exists page,
    fst (fetch_page srv page_offset w) = Ok page
    /\ NoDup (dict_keys page)
    /\ (forall k, In k (dict_keys page) <-> In k (map src_name sources))
    /\ List.length page <= List.length sources
    /\ (List.length page = List.length sources
        <-> NoDup (map src_name sources)).
Proof.
  intros Hps Hok Hinfo.
  rewrite (fetch_page_eq srv _ _ Hps). cbv zeta. rewrite Hok, Hinfo.
  eexists. split; [reflexivity|].
  unfold page_entries.
  set (items := map _ sources).
  assert (Hnames : map fst items = map src_name sources).
  { unfold items. rewrite map_map. reflexivity. }
  assert (Hlen : List.length items = List.length sources).
  { unfold items. apply length_map. }
  split; [apply dict_of_items_NoDup|]. split.
  - intros k. unfold dict_of_items. rewrite dict_keys_update.
    rewrite key_merge_In. unfold dict_keys at 2. rewrite Hnames.
    simpl. tauto.
  - rewrite <- Hlen, <- Hnames. apply dict_of_items_length.
Qed.

Lemma page_has_one_entry_per_name_witness :
  exists page,
    fst (fetch_page
           (Fixture.paged_server
              [Fixture.source_named "a" "first";
               Fixture.source_named "a" "second"] [])
           0 Fixture.fresh_world)
    = Ok page
    /\ List.length page <= 2
    /\ dict_keys page = ["a"].
Proof.
  destruct (@page_has_one_entry_per_name
              (Fixture.paged_server
                 [Fixture.source_named "a" "first";
                  Fixture.source_named "a" "second"] [])
              0 2 Fixture.fresh_world [] (Some 2)
              [Fixture.source_named "a" "first";
               Fixture.source_named "a" "second"])
    as (page & Hrun & _ & _ & Hle & _); try (vm_compute; reflexivity).
  exists page. split; [exact Hrun|]. split; [exact Hle|].
  assert (Hpage : fst (fetch_page
                         (Fixture.paged_server
                            [Fixture.source_named "a" "first";
                             Fixture.source_named "a" "second"] [])
                         0 Fixture.fresh_world)
                  = Ok [("a", RemoteCatalogEntry__init__
                                "http://localhost:5000/"
                                Fixture.BaseClientAuth (Some 2) "default"
                                true true
                                (Fixture.source_named "a" "second"))])
    by (vm_compute; reflexivity).
  rewrite Hpage in Hrun. inversion Hrun. reflexivity.
Defined.

(** X11.  So a page in which a name is repeated is short even when the answer
    has as many records as were asked for: the iteration stops after that
    request and sets the flag. *)
Theorem repeated_name_ends_iteration (srv : Server) (fuel ps : nat)
    (w : World) (md : dict pyval) (len : option nat) (sources : list Source) :
  _page_size (cat w) = Some ps ->
  raise_for_status
    (srv (log w) (page_request (cat w) (_page_offset (_entries (cat w))) ps))
  = None ->
  content
    (srv (log w) (page_request (cat w) (_page_offset (_entries (cat w))) ps))
  = InfoPayload md len sources ->
  List.length sources <= ps ->
  ~ NoDup (map src_name sources) ->
  fst (Entries__iter__ srv (S fuel) w)
  = Ok (dict_keys (page_tier w)
        ++ dict_keys (page_entries (cat w) sources))
  /\ complete (_entries (cat (snd (Entries__iter__ srv (S fuel) w)))) = true
  /\ log (snd (Entries__iter__ srv (S fuel) w))
     = log w
       ++ [page_request (cat w) (_page_offset (_entries (cat w))) ps].
Proof.
  intros Hps Hok Hinfo Hle Hdup.
  rewrite iter_eq, Hps, fetch_loop_eq, (fetch_page_eq srv _ _ Hps).
  cbv zeta. rewrite Hok, Hinfo. simp_state. rewrite Hps.
  assert (Hshort : List.length (page_entries (cat w) sources) < ps).
  { unfold page_entries.
    set (items := map _ sources).
    assert (Hnames : map fst items = map src_name sources).
    { unfold items. rewrite map_map. reflexivity. }
    assert (Hlen : List.length items = List.length sources).
    { unfold items. apply length_map. }
    destruct (dict_of_items_length items) as [Hbound Hiff].
    destruct (Nat.eq_dec (List.length (dict_of_items items))
                (List.length items)) as [Heq|Hne].
    - exfalso. apply Hdup. rewrite <- Hnames. now apply Hiff.
    - lia. }
  apply Nat.ltb_lt in Hshort. rewrite Hshort.
  cbn [fst snd]. simp_state. auto.
Qed.

Lemma repeated_name_ends_iteration_witness :
  fst (Entries__iter__
         (Fixture.paged_server
            [Fixture.source_named "a" "first";
             Fixture.source_named "a" "second";
             Fixture.source_named "b" "third"] [])
         5 Fixture.fresh_world)
  = Ok ["a"].
Proof.
  assert (Hdup : ~ NoDup (map src_name
                            [Fixture.source_named "a" "first";
                             Fixture.source_named "a" "second"])).
  { intro H. inversion H as [|x l Hnin _]. apply Hnin. now left. }
  exact (proj1 (@repeated_name_ends_iteration
                  (Fixture.paged_server
                     [Fixture.source_named "a" "first";
                      Fixture.source_named "a" "second";
                      Fixture.source_named "b" "third"] [])
                  4 2 Fixture.fresh_world [] (Some 3)
                  [Fixture.source_named "a" "first";
                   Fixture.source_named "a" "second"]
                  ltac:(vm_compute; reflexivity)
                  ltac:(vm_compute; reflexivity)
                  ltac:(vm_compute; reflexivity)
                  ltac:(simpl; lia) Hdup)).
Defined.

(** ** A generator that is advanced and dropped *)

Lemma fetch_loop_take_bound (srv : Server) (fuel : nat) :
  forall n w ks,
    fst (fetch_loop_take srv fuel n w) = Ok ks -> List.length ks <= n.
Proof.
  induction fuel as [|fuel IH]; intros n w ks; [discriminate|].
  cbn [fetch_loop_take]. unfold bind at 1. unfold gets at 1.
  unfold bind at 1.
  destruct (fetch_page srv (_page_offset (_entries (cat w))) w)
    as [[page|e|] w1]; try discriminate.
  unfold bind at 1. unfold modify at 1. unfold bind at 1.
  unfold modify at 1.
  destruct (Nat.leb_spec n (List.length page)) as [Hle|Hgt].
  - unfold ret. cbn [fst]. intros H. inversion H.
    rewrite length_firstn. lia.
  - unfold bind at 1. unfold gets at 1. cbn [cat].
    match goal with
    | |- context [match ?s with Some _ => _ | None => _ end] =>
        destruct s as [ps|]
    end; [|discriminate].
    destruct (List.length page <? ps).
    + unfold bind, modify, ret. cbn [fst]. intros H. inversion H.
      unfold dict_keys. rewrite length_map. lia.
    + unfold bind at 1.
      match goal with
      | |- context [fetch_loop_take srv fuel ?m ?x] =>
          specialize (IH m x);
          destruct (fetch_loop_take srv fuel m x) as [[rest|e|] w2]
      end; try discriminate.
      unfold ret. cbn [fst] in *. intros H. inversion H.
      specialize (IH rest eq_refl).
      rewrite length_app. unfold dict_keys. rewrite length_map. lia.
Qed.

(** X12.  A consumer that takes [n] keys gets at most [n]; when the page tier
    already holds [n] keys it gets the first [n] of them and nothing is
    requested or changed. *)
Theorem taking_keys_is_lazy (srv : Server) (fuel n : nat) (w : World) :
  (forall ks,
     fst (Entries__iter__take srv fuel n w) = Ok ks -> List.length ks <= n)
  /\ (n <= List.length (page_tier w) ->
      Entries__iter__take srv fuel n w
      = (Ok (firstn n (dict_keys (page_tier w))), w)).
Proof.
  split.
  - intros ks. unfold Entries__iter__take, bind at 1, gets at 1.
    cbn [cat].
    destruct (Nat.leb_spec n
                (List.length (dict_keys (_page_cache (_entries (cat w))))))
      as [Hle|Hgt].
    + unfold ret. cbn [fst]. intros H. inversion H.
      rewrite length_firstn. lia.
    + unfold bind at 1, gets at 1. cbn [cat].
      destruct (_page_size (cat w)) as [ps|].
      * unfold bind.
        pose proof (@fetch_loop_take_bound srv fuel
                      (n - List.length
                             (dict_keys (_page_cache (_entries (cat w)))))
                      w) as Hb.
        destruct (fetch_loop_take srv fuel _ w) as [[rest|e|] w2];
          try discriminate.
        unfold ret. cbn [fst] in *. intros H. inversion H.
        specialize (Hb rest eq_refl). rewrite length_app. lia.
      * unfold ret. cbn [fst]. intros H. inversion H. subst. lia.
  - intros Hle. unfold Entries__iter__take, bind, gets, page_tier.
    cbn [cat].
    assert (Hn : (n <=? List.length
                          (dict_keys (_page_cache (_entries (cat w)))))
                 = true).
    { apply Nat.leb_le. unfold dict_keys. rewrite length_map. exact Hle. }
    now rewrite Hn.
Qed.

Lemma taking_keys_is_lazy_witness :
  Entries__iter__take Fixture.broken 0 1 Fixture.drained_world
  = (Ok ["a"], Fixture.drained_world).
Proof.
  assert (Hkeys : firstn 1 (dict_keys (page_tier Fixture.drained_world))
                  = ["a"]) by (vm_compute; reflexivity).
  rewrite <- Hkeys.
  apply (proj2 (@taking_keys_is_lazy Fixture.broken 0 1
                  Fixture.drained_world)).
  vm_compute. lia.
Defined.

(** ** Resolving an entry *)

Section ResolutionMore.

Variable urljoin : string -> string -> string.
Variable plugin_registry : dict (dict pyval -> Callee ResolvedSource).
Variable container_map :
  dict (string -> HttpArgs -> ProxyKwargs -> Callee ResolvedSource).
Variable expand_defaults : string -> bool -> bool -> bool -> string.
Variable coerce : string -> string -> pyval.
Variable srv : Server.

Lemma str_mem_In (s : string) (l : list string) :
  str_mem s l = true <-> In s l.
Proof. apply existsb_eqb_In. Qed.

Lemma first_known_plugin_spec (before after : list string) (p : string) :
  In p (dict_keys plugin_registry) ->
  (forall q, In q before -> ~ In q (dict_keys plugin_registry)) ->
  first_known_plugin plugin_registry (before ++ p :: after) = Some p.
Proof.
  intros Hp Hbefore. unfold first_known_plugin.
  induction before as [|q before IH]; simpl.
  - apply str_mem_In in Hp. now rewrite Hp.
  - destruct (str_mem q (dict_keys plugin_registry)) eqn:E.
    + apply str_mem_In in E. exfalso. apply (Hbefore q); auto. now left.
    + apply IH. intros q' Hq'. apply Hbefore. now right.
Qed.

Lemma first_known_plugin_none (pl : list string) :
  (forall q, In q pl -> ~ In q (dict_keys plugin_registry)) ->
  first_known_plugin plugin_registry pl = None.
Proof.
  intros Hnone. unfold first_known_plugin.
  induction pl as [|q pl IH]; simpl; [reflexivity|].
  destruct (str_mem q (dict_keys plugin_registry)) eqn:E.
  - apply str_mem_In in E. exfalso. apply (Hnone q); auto. now left.
  - apply IH. intros q' Hq'. apply Hnone. now right.
Qed.

(** [open_remote] on an answer that is no HTTP error: the one request, then
    the constructor the answer selects, if it selects one. *)
Lemma open_remote_eq (url0 entry : string) (container : option string)
    (user_parameters : dict pyval) (description : string) (ha : HttpArgs)
    (page_size : option nat) (persist_mode : string) (a : Auth)
    (getenv0 getshell0 : bool) (w : World) :
  is_http_error
    (srv (log w)
       (open_request urljoin plugin_registry url0 entry user_parameters ha))
  = false ->
  open_remote urljoin plugin_registry container_map srv url0 entry container
    user_parameters description ha page_size persist_mode a getenv0 getshell0
    w
  = (let rq := open_request urljoin plugin_registry url0 entry
                 user_parameters ha in
     let sent := log w ++ [rq] in
     let stop e := (@Raise ResolvedSource e, {| cat := cat w; log := sent |}) in
     let built (r : Outcome ResolvedSource * list Request) :=
       (described description (fst r),
        {| cat := cat w; log := sent ++ snd r |}) in
     match content (srv (log w) rq) with
     | OpenPayload plugin args rc fields =>
         match first_known_plugin plugin_registry (plugin_names plugin) with
         | Some p =>
             match dict_get p plugin_registry, args with
             | None, _ => stop (KeyError p)
             | Some _, None => stop (KeyError "args")
             | Some build, Some kwargs0 => built (build kwargs0 sent)
             end
         | None =>
             match rc, container with
             | None, _ => stop (KeyError "container")
             | Some _, None => stop (KeyError "None")
             | Some _, Some k =>
                 match dict_get k container_map with
                 | None => stop (KeyError k)
                 | Some build =>
                     built (build (open_url url0) ha
                              (response_kwargs container plugin args fields
                                 entry user_parameters page_size persist_mode
                                 a getenv0 getshell0)
                              sent)
                 end
             end
         end
     | _ => stop DecodeError
     end).
Proof.
  intros Hfine.
  unfold open_remote, bind, requests_post, send. cbn [fst snd cat log].
  change {| method := "POST";
            target := urljoin
                        (if Str.startswith url0 "intake://"
                         then Str.drop (String.length "intake://") url0
                         else url0) "/v1/source";
            req_args := ha;
            data := Some (OpenBody entry user_parameters
                            (dict_keys plugin_registry)) |}
    with (open_request urljoin plugin_registry url0 entry user_parameters ha).
  unfold ok. rewrite (raise_for_status_no_error _ Hfine).
  unfold open_answer, bind. cbv zeta.
  destruct (content _) as [| | |plugin args rc fields|]; try reflexivity.
  assert (Hnames :
            match plugin with
            | Some (PluginStr p) => first_known_plugin plugin_registry [p]
            | Some (PluginList pl) => first_known_plugin plugin_registry pl
            | None => None
            end
            = first_known_plugin plugin_registry (plugin_names plugin)).
  { destruct plugin as [[p|pl]|]; reflexivity. }
  rewrite Hnames.
  destruct (first_known_plugin plugin_registry (plugin_names plugin)) as [p|].
  { destruct (dict_get p plugin_registry) as [build|]; [|reflexivity].
    destruct args as [kwargs0|]; [|reflexivity].
    unfold call, described. cbn [fst snd cat log].
    destruct (fst (build kwargs0 _)); reflexivity. }
  destruct rc; [|reflexivity].
  destruct container as [k|]; [|reflexivity].
  destruct (dict_get k container_map) as [build|]; [|reflexivity].
  unfold call, described, open_url. cbn [fst snd cat log].
  destruct (fst (build _ _ _ _)); reflexivity.
Qed.

End ResolutionMore.

(** [RemoteCatalog] takes neither ['plugin'] nor ['args']: an answer that
    carries one of them cannot make a nested catalog, and nothing is sent
    for it. *)
Lemma nested_catalog_rejects_plugin_keys
    (urljoin : string -> string -> string) (netloc : string -> string)
    (BaseClientAuth : Auth) (srv : Server) (url1 : string) (ha : HttpArgs)
    (kw : ProxyKwargs) (l : list Request) :
  kw_plugin kw <> None \/ kw_args kw <> None ->
  RemoteCatalog_as_container urljoin netloc BaseClientAuth srv url1 ha kw l
  = (Raise TypeError, []).
Proof.
  intros Hkeys. unfold RemoteCatalog_as_container, RemoteCatalog_kwargs.
  destruct (kw_plugin kw), (kw_args kw); try reflexivity.
  destruct Hkeys; congruence.
Qed.

(** X13.  When the answer to the open call lists plugins and gives
    constructor arguments, the first listed plugin that the registry knows is
    called with those arguments, after the one request: the entry is resolved
    for direct access with the source that call builds, its description set,
    or the call's exception is raised; the log holds the open request and
    what the plugin has sent. *)
Theorem direct_access_uses_first_known_plugin
    (urljoin : string -> string -> string)
    (plugin_registry : dict (dict pyval -> Callee ResolvedSource))
    (container_map :
       dict (string -> HttpArgs -> ProxyKwargs -> Callee ResolvedSource))
    (srv : Server)
    (url0 entry : string) (container : option string)
    (user_parameters : dict pyval) (description : string) (ha : HttpArgs)
    (page_size : option nat) (persist_mode : string) (a : Auth)
    (getenv0 getshell0 : bool) (w : World)
    (plugin : option Plugin) (args : dict pyval) (rc : option string)
    (fields : dict pyval) (before after : list string) (p : string)
    (build : dict pyval -> Callee ResolvedSource) :
  is_http_error
    (srv (log w)
       (open_request urljoin plugin_registry url0 entry user_parameters ha))
  = false ->
  content
    (srv (log w)
       (open_request urljoin plugin_registry url0 entry user_parameters ha))
  = OpenPayload plugin (Some args) rc fields ->
  plugin_names plugin = before ++ p :: after ->
  dict_get p plugin_registry = Some build ->
  (forall q, In q before -> ~ In q (dict_keys plugin_registry)) ->
  let sent := log w
              ++ [open_request urljoin plugin_registry url0 entry
                    user_parameters ha] in
  open_remote urljoin plugin_registry container_map srv url0 entry container
    user_parameters description ha page_size persist_mode a getenv0 getshell0
    w
  = (match fst (build args sent) with
     | Ok source => Ok (set_description description source)
     | Raise e => Raise e
     | OutOfFuel => OutOfFuel
     end,
     {| cat := cat w; log := sent ++ snd (build args sent) |}).
Proof.
  intros Hfine Hcontent Hnames Hp Hbefore sent.
  rewrite (@open_remote_eq urljoin plugin_registry container_map srv url0
             entry container user_parameters description ha page_size
             persist_mode a getenv0 getshell0 w Hfine).
  cbv zeta. rewrite Hcontent, Hnames.
  rewrite (@first_known_plugin_spec plugin_registry before after p);
    [|exact (dict_get_In_keys _ _ Hp)|exact Hbefore].
  rewrite Hp. reflexivity.
Qed.

(** The answer lists three plugins; the first is unknown, the second is
    called and builds the source. *)
Lemma direct_access_uses_first_known_plugin_witness :
  open_remote Fixture.urljoin Fixture.plugin_registry
    (Fixture.container_map Fixture.listing) Fixture.listing
    "http://localhost:5000/" "a" (Some "dataframe") [] "listed"
    empty_http_args None "default" Fixture.BaseClientAuth true true
    Fixture.loaded_world
  = (Ok (DirectResource "textfiles" [("urlpath", PStr "data.txt")] "listed"),
     {| cat := cat Fixture.loaded_world;
        log := log Fixture.loaded_world
               ++ [open_request Fixture.urljoin Fixture.plugin_registry
                  "http://localhost:5000/" "a" [] empty_http_args] |}).
Proof.
  rewrite (@direct_access_uses_first_known_plugin Fixture.urljoin
             Fixture.plugin_registry (Fixture.container_map Fixture.listing)
             Fixture.listing
             "http://localhost:5000/" "a" (Some "dataframe") [] "listed"
             empty_http_args None "default" Fixture.BaseClientAuth true true
             Fixture.loaded_world
             (Some (PluginList ["parquet"; "textfiles"; "csv"]))
             [("urlpath", PStr "data.txt")] (Some "dataframe") []
             ["parquet"] ["csv"] "textfiles"
             (Fixture.plugin "textfiles" ["urlpath"]
                ["text_mode"; "text_encoding"; "compression"; "decoder";
                 "read"; "metadata"; "storage_options"]));
    try reflexivity.
  intros q [<-|[]]. simpl. intuition discriminate.
Defined.

(** The plugin's exception is the exception of the resolution: the five-entry
    server names [csv] and gives no arguments for it. *)
Lemma direct_access_raises_what_the_plugin_raises :
  fst (RemoteCatalogEntry_get Fixture.urljoin Fixture.plugin_registry
         (Fixture.container_map Fixture.paged) Fixture.expand_defaults
         Fixture.coerce Fixture.paged (Fixture.entry_a "listed") []
         Fixture.drained_world)
  = Raise TypeError.
Proof. vm_compute. reflexivity. Qed.

(** X14.  When the registry knows none of the listed plugins (or none is
    listed) and the answer names a container, the constructor that
    [container_map] has for the entry's own container kind is called with
    the address, the [http_args] and the keyword arguments made of the
    answer: the listed plugins and arguments, the entry name and the
    parameters, and the auth provider, flags, page size and persist mode only
    when the entry is a catalog.  The entry is resolved with the proxy that
    call builds, its description set, or the call's exception is raised; the
    log holds the open request and what the constructor has sent. *)
Theorem unknown_plugins_give_a_proxy
    (urljoin : string -> string -> string)
    (plugin_registry : dict (dict pyval -> Callee ResolvedSource))
    (container_map :
       dict (string -> HttpArgs -> ProxyKwargs -> Callee ResolvedSource))
    (srv : Server)
    (url0 entry k : string)
    (user_parameters : dict pyval) (description : string) (ha : HttpArgs)
    (page_size : option nat) (persist_mode : string) (a : Auth)
    (getenv0 getshell0 : bool) (w : World)
    (plugin : option Plugin) (args : option (dict pyval)) (rc : string)
    (fields : dict pyval)
    (build : string -> HttpArgs -> ProxyKwargs -> Callee ResolvedSource) :
  is_http_error
    (srv (log w)
       (open_request urljoin plugin_registry url0 entry user_parameters ha))
  = false ->
  content
    (srv (log w)
       (open_request urljoin plugin_registry url0 entry user_parameters ha))
  = OpenPayload plugin args (Some rc) fields ->
  (forall q, In q (plugin_names plugin) ->
             ~ In q (dict_keys plugin_registry)) ->
  dict_get k container_map = Some build ->
  let sent := log w
              ++ [open_request urljoin plugin_registry url0 entry
                    user_parameters ha] in
  let kw := response_kwargs (Some k) plugin args fields entry user_parameters
              page_size persist_mode a getenv0 getshell0 in
  open_remote urljoin plugin_registry container_map srv url0 entry (Some k)
    user_parameters description ha page_size persist_mode a getenv0 getshell0
    w
  = (match fst (build (open_url url0) ha kw sent) with
     | Ok source => Ok (set_description description source)
     | Raise e => Raise e
     | OutOfFuel => OutOfFuel
     end,
     {| cat := cat w;
        log := sent ++ snd (build (open_url url0) ha kw sent) |})
  /\ kw_plugin kw = plugin
  /\ kw_args kw = args
  /\ kw_name kw = entry
  /\ kw_parameters kw = user_parameters
  /\ kw_catalog kw
     = (if String.eqb k "catalog"
        then Some (a, getenv0, getshell0, page_size, persist_mode)
        else None)
  /\ (forall key v,
        dict_get key (kw_fields kw) = Some v ->
        key <> "name" /\ key <> "parameters"
        /\ exists v', In (key, v') fields).
Proof.
  intros Hfine Hcontent Hnone Hk sent kw.
  split.
  { rewrite (@open_remote_eq urljoin plugin_registry container_map srv url0
               entry (Some k) user_parameters description ha page_size
               persist_mode a getenv0 getshell0 w Hfine).
    cbv zeta. rewrite Hcontent.
    rewrite (@first_known_plugin_none plugin_registry _ Hnone).
    rewrite Hk. reflexivity. }
  repeat (split; [reflexivity|]).
  intros key v Hget.
  apply dict_get_In in Hget. cbn [kw kw_fields response_kwargs] in Hget.
  apply filter_In in Hget. destruct Hget as [Hin Hkeep].
  cbn [fst] in Hkeep. apply negb_true_iff in Hkeep.
  assert (Hnot : ~ In key (overwritten (Some k))).
  { intros Hin'. apply str_mem_In in Hin'. congruence. }
  repeat split.
  - intros ->. apply Hnot. unfold overwritten. simpl. auto.
  - intros ->. apply Hnot. unfold overwritten. simpl. auto.
  - eauto.
Qed.

(** An entry that is a catalog, on a server that answers the open call with
    the container kind and a scope id: the nested catalog is built and
    loaded, which is a second request. *)
Lemma unknown_plugins_give_a_proxy_witness :
  exists c,
    fst (open_remote Fixture.urljoin Fixture.plugin_registry
           (Fixture.container_map Fixture.nesting) Fixture.nesting
           "http://localhost:5000/" "nested" (Some "catalog") [] "a catalog"
           empty_http_args (Some 2) "default" Fixture.token_auth true false
           Fixture.loaded_world)
    = Ok (CatalogResource c "a catalog")
    /\ _source_id c = Some "scope-2"
    /\ _page_size c = Some 2
    /\ auth c = Fixture.token_auth
    /\ getshell c = false
    /\ _len c = Some 5
    /\ List.length
         (log (snd (open_remote Fixture.urljoin Fixture.plugin_registry
                      (Fixture.container_map Fixture.nesting) Fixture.nesting
                      "http://localhost:5000/" "nested" (Some "catalog") []
                      "a catalog" empty_http_args (Some 2) "default"
                      Fixture.token_auth true false Fixture.loaded_world)))
       = List.length (log Fixture.loaded_world) + 2.
Proof.
  destruct (@unknown_plugins_give_a_proxy Fixture.urljoin
              Fixture.plugin_registry (Fixture.container_map Fixture.nesting)
              Fixture.nesting
              "http://localhost:5000/" "nested" "catalog" [] "a catalog"
              empty_http_args (Some 2) "default" Fixture.token_auth true false
              Fixture.loaded_world None None "catalog"
              [("source_id", PStr "scope-2")]
              (RemoteCatalog_as_container Fixture.urljoin Fixture.netloc
                 Fixture.BaseClientAuth Fixture.nesting))
    as [Hrun _]; try reflexivity.
  { intros q []. }
  rewrite Hrun. vm_compute. eexists. repeat split.
Defined.

(** X15.  Answers the open call cannot use raise [KeyError] after the one
    request and before any constructor is called: a known plugin without
    constructor arguments, no known plugin and no container in the answer,
    or an entry whose container kind is not in [container_map]. *)
Theorem unusable_open_answers_raise
    (urljoin : string -> string -> string)
    (plugin_registry : dict (dict pyval -> Callee ResolvedSource))
    (container_map :
       dict (string -> HttpArgs -> ProxyKwargs -> Callee ResolvedSource))
    (srv : Server)
    (url0 entry : string) (container : option string)
    (user_parameters : dict pyval) (description : string) (ha : HttpArgs)
    (page_size : option nat) (persist_mode : string) (a : Auth)
    (getenv0 getshell0 : bool) (w : World)
    (plugin : option Plugin) (args : option (dict pyval))
    (rc : option string) (fields : dict pyval) :
  is_http_error
    (srv (log w)
       (open_request urljoin plugin_registry url0 entry user_parameters ha))
  = false ->
  content
    (srv (log w)
       (open_request urljoin plugin_registry url0 entry user_parameters ha))
  = OpenPayload plugin args rc fields ->
  let stopped e :=
    open_remote urljoin plugin_registry container_map srv url0 entry
      container user_parameters description ha page_size persist_mode a
      getenv0 getshell0 w
    = (Raise e,
       {| cat := cat w;
          log := log w
                 ++ [open_request urljoin plugin_registry url0 entry
                       user_parameters ha] |}) in
  ((exists p, In p (plugin_names plugin)
              /\ In p (dict_keys plugin_registry)) ->
   args = None ->
   stopped (KeyError "args"))
  /\ ((forall q, In q (plugin_names plugin) ->
                 ~ In q (dict_keys plugin_registry)) ->
      rc = None ->
      stopped (KeyError "container"))
  /\ (forall k,
        (forall q, In q (plugin_names plugin) ->
                   ~ In q (dict_keys plugin_registry)) ->
        rc <> None ->
        container = Some k ->
        ~ In k (dict_keys container_map) ->
        stopped (KeyError k)).
Proof.
  intros Hfine Hcontent stopped. unfold stopped.
  rewrite (@open_remote_eq urljoin plugin_registry container_map srv url0
             entry container user_parameters description ha page_size
             persist_mode a getenv0 getshell0 w Hfine).
  cbv zeta. rewrite Hcontent.
  split; [|split].
  - intros (p & Hin & Hreg) ->.
    destruct (first_known_plugin plugin_registry (plugin_names plugin))
      as [q|] eqn:E.
    + unfold first_known_plugin in E. apply find_some in E.
      destruct E as [_ Hq]. apply str_mem_In in Hq.
      destruct (dict_keys_In_get _ _ Hq) as [build Hbuild].
      now rewrite Hbuild.
    + unfold first_known_plugin in E.
      apply (find_none _ _ E) in Hin. apply str_mem_In in Hreg. congruence.
  - intros Hnone ->.
    now rewrite (@first_known_plugin_none plugin_registry _ Hnone).
  - intros k Hnone Hrc -> Hk.
    rewrite (@first_known_plugin_none plugin_registry _ Hnone).
    destruct rc; [|congruence].
    now rewrite (dict_get_not_In _ _ Hk).
Qed.

Lemma unusable_open_answers_raise_witness :
  open_remote Fixture.urljoin Fixture.plugin_registry
    (Fixture.container_map Fixture.paged)
    (Fixture.constant_server
       (Fixture.reply 200 "OK" "http://localhost:5000/v1/source"
          (OpenPayload (Some (PluginStr "csv")) None None [])))
    "http://localhost:5000/" "a" (Some "ndarray") [] "listed"
    empty_http_args None "default" Fixture.BaseClientAuth true true
    Fixture.loaded_world
  = (Raise (KeyError "args"),
     {| cat := cat Fixture.loaded_world;
        log := log Fixture.loaded_world
               ++ [open_request Fixture.urljoin Fixture.plugin_registry
                  "http://localhost:5000/" "a" [] empty_http_args] |}).
Proof.
  apply (proj1 (@unusable_open_answers_raise Fixture.urljoin
                  Fixture.plugin_registry
                  (Fixture.container_map Fixture.paged)
                  (Fixture.constant_server
                     (Fixture.reply 200 "OK" "http://localhost:5000/v1/source"
                        (OpenPayload (Some (PluginStr "csv")) None None [])))
                  "http://localhost:5000/" "a" (Some "ndarray") [] "listed"
                  empty_http_args None "default" Fixture.BaseClientAuth true
                  true Fixture.loaded_world (Some (PluginStr "csv")) None None
                  [] eq_refl eq_refl)).
  - exists "csv". simpl. auto.
  - reflexivity.
Defined.

(** ** Parameters of an entry *)

Section Defaults.

Variable expand_defaults : string -> bool -> bool -> bool -> string.
Variable coerce : string -> string -> pyval.
Variable e : RemoteCatalogEntry.

Lemma dict_mem_get (V : Type) (k : string) (d : dict V) :
  dict_mem k d = true <-> exists v, dict_get k d = Some v.
Proof.
  unfold dict_mem. destruct (dict_get k d); split; eauto; try discriminate.
  intros [v Hv]. discriminate.
Qed.

(** One turn of the loop over the declared parameters. *)
Lemma fill_step_keeps (acc : dict pyval) (par : UserParameter) (k : string)
    (v : pyval) (acc' : dict pyval) :
  acc' = (if dict_mem (par_name par) acc then acc
          else dict_set (par_name par)
                 match par_default par with
                 | PStr s => coerce (par_type par)
                               (expand_defaults s true (e_getenv e)
                                  (e_getshell e))
                 | x => x
                 end acc) ->
  dict_get k acc = Some v -> dict_get k acc' = Some v.
Proof.
  intros -> Hk.
  destruct (dict_mem (par_name par) acc) eqn:E; auto.
  rewrite dict_get_set_other; auto.
  intros Heq. subst k. unfold dict_mem in E. now rewrite Hk in E.
Qed.

Lemma fill_defaults_keeps (pars : list UserParameter) :
  forall acc k v,
    dict_get k acc = Some v ->
    dict_get k
      (fold_left
         (fun acc par =>
            if dict_mem (par_name par) acc then acc
            else dict_set (par_name par)
                   match par_default par with
                   | PStr s => coerce (par_type par)
                                 (expand_defaults s true (e_getenv e)
                                    (e_getshell e))
                   | x => x
                   end acc)
         pars acc)
    = Some v.
Proof.
  induction pars as [|par pars IH]; intros acc k v Hk; simpl; auto.
  apply IH. eapply fill_step_keeps; eauto.
Qed.

Lemma fill_defaults_fills (pars : list UserParameter) :
  forall acc par,
    In par pars ->
    dict_mem (par_name par)
      (fold_left
         (fun acc par =>
            if dict_mem (par_name par) acc then acc
            else dict_set (par_name par)
                   match par_default par with
                   | PStr s => coerce (par_type par)
                                 (expand_defaults s true (e_getenv e)
                                    (e_getshell e))
                   | x => x
                   end acc)
         pars acc)
    = true.
Proof.
  induction pars as [|p pars IH]; intros acc par Hin; [destruct Hin|].
  simpl. destruct Hin as [->|Hin]; [|now apply IH].
  apply dict_mem_get.
  destruct (dict_mem (par_name par) acc) eqn:E.
  - apply dict_mem_get in E. destruct E as [v Hv].
    exists v. now apply fill_defaults_keeps.
  - eexists. apply fill_defaults_keeps. apply dict_get_set_same.
Qed.

Lemma fill_defaults_adds_only_declared (pars : list UserParameter) :
  forall acc k,
    (forall par, In par pars -> par_name par <> k) ->
    dict_get k
      (fold_left
         (fun acc par =>
            if dict_mem (par_name par) acc then acc
            else dict_set (par_name par)
                   match par_default par with
                   | PStr s => coerce (par_type par)
                                 (expand_defaults s true (e_getenv e)
                                    (e_getshell e))
                   | x => x
                   end acc)
         pars acc)
    = dict_get k acc.
Proof.
  induction pars as [|p pars IH]; intros acc k Hk; simpl; auto.
  rewrite IH by (intros par Hin; apply Hk; now right).
  destruct (dict_mem (par_name p) acc); auto.
  apply dict_get_set_other. intros Heq. apply (Hk p); auto. now left.
Qed.

End Defaults.

(** X16.  Filling in the defaults keeps every parameter the caller supplied,
    gives a value to every declared parameter, and adds nothing under a name
    that is not declared. *)
Theorem defaults_fill_only_what_is_missing
    (expand_defaults : string -> bool -> bool -> bool -> string)
    (coerce : string -> string -> pyval) (e : RemoteCatalogEntry)
    (user_parameters : dict pyval) :
  (forall k v,
     dict_get k user_parameters = Some v ->
     dict_get k (fill_defaults expand_defaults coerce e user_parameters)
     = Some v)
  /\ (forall par,
        In par (e_user_parameters e) ->
        dict_mem (par_name par)
          (fill_defaults expand_defaults coerce e user_parameters)
        = true)
  /\ (forall k,
        (forall par, In par (e_user_parameters e) -> par_name par <> k) ->
        dict_get k (fill_defaults expand_defaults coerce e user_parameters)
        = dict_get k user_parameters).
Proof.
  unfold fill_defaults. split; [|split].
  - intros k v Hk. now apply fill_defaults_keeps.
  - intros par Hin. now apply fill_defaults_fills.
  - intros k Hk. now apply fill_defaults_adds_only_declared.
Qed.

(** X17.  A declared parameter that the caller did not supply, and that no
    earlier declaration names, takes its default: a default that is not a
    string is used as it is; a string default is expanded and coerced to the
    declared type, with the entry's [getenv] and [getshell] flags. *)
Theorem missing_parameter_takes_its_default
    (expand_defaults : string -> bool -> bool -> bool -> string)
    (coerce : string -> string -> pyval) (e : RemoteCatalogEntry)
    (user_parameters : dict pyval) (par : UserParameter)
    (earlier later : list UserParameter) :
  e_user_parameters e = earlier ++ par :: later ->
  dict_get (par_name par) user_parameters = None ->
  (forall p, In p earlier -> par_name p <> par_name par) ->
  dict_get (par_name par)
    (fill_defaults expand_defaults coerce e user_parameters)
  = Some match par_default par with
         | PStr s => coerce (par_type par)
                       (expand_defaults s true (e_getenv e) (e_getshell e))
         | x => x
         end.
Proof.
  intros Hpars Hmissing Hearlier. unfold fill_defaults. rewrite Hpars.
  rewrite fold_left_app. cbn [fold_left].
  assert (Hm : dict_mem (par_name par)
                 (fold_left
                    (fun acc par0 =>
                       if dict_mem (par_name par0) acc then acc
                       else dict_set (par_name par0)
                              match par_default par0 with
                              | PStr s =>
                                  coerce (par_type par0)
                                    (expand_defaults s true (e_getenv e)
                                       (e_getshell e))
                              | x => x
                              end acc)
                    earlier user_parameters)
               = false).
  { unfold dict_mem at 1.
    rewrite (@fill_defaults_adds_only_declared expand_defaults coerce e
               earlier user_parameters (par_name par) Hearlier).
    now rewrite Hmissing. }
  rewrite Hm. apply fill_defaults_keeps. apply dict_get_set_same.
Qed.

Lemma missing_parameter_takes_its_default_witness :
  dict_get "year"
    (fill_defaults Fixture.expand_defaults Fixture.coerce
       (RemoteCatalogEntry__init__ "http://localhost:5000/"
          Fixture.BaseClientAuth None "default" true true
          {| src_name := "a"; src_container := None; src_description := None;
             src_metadata := None;
             src_user_parameters :=
               Some [{| par_name := "month"; par_default := PInt 1;
                        par_type := "int" |};
                     {| par_name := "year"; par_default := PInt 2018;
                        par_type := "int" |}];
             src_direct_access := None; src_kwargs := [] |})
       [("month", PInt 7)])
  = Some (PInt 2018).
Proof.
  apply (@missing_parameter_takes_its_default Fixture.expand_defaults
           Fixture.coerce _ [("month", PInt 7)]
           {| par_name := "year"; par_default := PInt 2018;
              par_type := "int" |}
           [{| par_name := "month"; par_default := PInt 1;
               par_type := "int" |}] []); try reflexivity.
  intros p [<-|[]]. discriminate.
Defined.

(** ** What resolving an entry leaves behind *)

(** X18.  [RemoteCatalogEntry.get] works on copies: however it ends, the
    catalog, its stored [http_args] included, is as it was.  The first
    request it sends is the open call, which carries the stored headers with
    the entry's auth headers added; what follows it in the log was sent by
    the constructor it has called, and nothing follows when the answer is
    an HTTP error. *)
Theorem get_leaves_the_catalog_alone
    (urljoin : string -> string -> string)
    (plugin_registry : dict (dict pyval -> Callee ResolvedSource))
    (container_map :
       dict (string -> HttpArgs -> ProxyKwargs -> Callee ResolvedSource))
    (expand_defaults : string -> bool -> bool -> bool -> string)
    (coerce : string -> string -> pyval) (srv : Server)
    (e : RemoteCatalogEntry) (user_parameters : dict pyval) (w : World) :
  let rq := open_request urljoin plugin_registry (e_url e) (e_name e)
              (fill_defaults expand_defaults coerce e user_parameters)
              (entry_http_args e (cat w)) in
  cat (snd (RemoteCatalogEntry_get urljoin plugin_registry container_map
              expand_defaults coerce srv e user_parameters w))
  = cat w
  /\ (exists more,
        log (snd (RemoteCatalogEntry_get urljoin plugin_registry
                    container_map expand_defaults coerce srv e
                    user_parameters w))
        = log w ++ rq :: more)
  /\ (is_http_error (srv (log w) rq) = true ->
      log (snd (RemoteCatalogEntry_get urljoin plugin_registry
                  container_map expand_defaults coerce srv e
                  user_parameters w))
      = log w ++ [rq])
  /\ headers (req_args rq)
     = Some (dict_update (or_empty (headers (http_args (cat w))))
               (get_headers (e_auth e))).
Proof.
  intros rq.
  assert (Hrun : RemoteCatalogEntry_get urljoin plugin_registry container_map
                   expand_defaults coerce srv e user_parameters w
                 = open_remote urljoin plugin_registry container_map srv
                     (e_url e) (e_name e) (e_container e)
                     (fill_defaults expand_defaults coerce e user_parameters)
                     (e_description e) (entry_http_args e (cat w))
                     (e_page_size e) (e_catalog_pmode e) (e_auth e)
                     (e_getenv e) (e_getshell e) w).
  { unfold RemoteCatalogEntry_get, bind, gets. reflexivity. }
  rewrite Hrun.
  destruct (is_http_error (srv (log w) rq)) eqn:Herr.
  { unfold rq in Herr. rewrite open_remote_error by exact Herr.
    cbn [snd cat log]. repeat split; auto. now exists []. }
  unfold rq in Herr.
  rewrite (@open_remote_eq urljoin plugin_registry container_map srv
             (e_url e) (e_name e) (e_container e)
             (fill_defaults expand_defaults coerce e user_parameters)
             (e_description e) (entry_http_args e (cat w))
             (e_page_size e) (e_catalog_pmode e) (e_auth e)
             (e_getenv e) (e_getshell e) w Herr).
  cbv zeta. fold rq.
  assert (Hstop : forall A (x : A) (l : list A),
             exists more, l ++ [x] = l ++ x :: more)
    by (intros; now exists []).
  assert (Hbuilt : forall A (x : A) (l sent : list A),
             exists more, (l ++ [x]) ++ sent = l ++ x :: more)
    by (intros A x l sent; exists sent; now rewrite <- app_assoc).
  destruct (content (srv (log w) rq)) as [| | |plugin args rc fields|];
    cbn [snd cat log]; try (repeat split; auto; discriminate).
  destruct (first_known_plugin plugin_registry (plugin_names plugin))
    as [p|].
  - destruct (dict_get p plugin_registry) as [build|];
      [destruct args as [kwargs0|]|];
      cbn [snd cat log]; repeat split; auto; discriminate.
  - destruct rc as [k'|]; [destruct (e_container e) as [k|]|];
      [destruct (dict_get k container_map) as [build|]| |];
      cbn [snd cat log]; repeat split; auto; discriminate.
Qed.

(** ** The address of a catalog *)

Lemma endswith_char_snoc (s : string) (c : ascii) :
  Str.endswith_char (s ++ String c EmptyString) c = true.
Proof.
  induction s as [|a s IH]; simpl.
  - apply Ascii.eqb_refl.
  - destruct (s ++ String c EmptyString)%string eqn:E; [|exact IH].
    destruct s; discriminate.
Qed.

Lemma replace_first_absent (old new s : string) :
  Str.contains old s = false -> Str.replace_first old new s = s.
Proof.
  induction s as [|a s IH]; simpl; intros H.
  - apply orb_false_iff in H. destruct H as [H _]. now rewrite H.
  - apply orb_false_iff in H. destruct H as [H1 H2].
    rewrite H1. now rewrite IH.
Qed.

(** X19.  The constructor stores a URL that ends with a slash and derives the
    info and source endpoints from it; an address that starts with [intake]
    gets [https] in its place when ['ssl'] is set in [http_args] and [http]
    otherwise, and ['ssl'] is taken out of the stored [http_args].  This
    holds of the new object when the base class takes over and of the
    catalog the constructor returns: the load leaves the address alone. *)
Theorem url_is_normalised (srv : Server)
    (urljoin : string -> string -> string)
    (netloc : string -> string) (BaseClientAuth : Auth) (url0 : string)
    (http_args0 : option HttpArgs) (page_size : option nat)
    (name0 source_id : option string) (auth0 : option Auth) (ttl0 : nat)
    (getenv0 getshell0 : bool) (storage_options : option HttpArgs)
    (parameters : option (dict pyval)) (persist_mode : string)
    (l : list Request) (c : RemoteCatalog) :
  c = RemoteCatalog__init__attrs urljoin netloc BaseClientAuth url0 http_args0
        page_size name0 source_id auth0 ttl0 getenv0 getshell0
        storage_options parameters persist_mode
  \/ fst (RemoteCatalog__init__ urljoin netloc BaseClientAuth srv url0
            http_args0 page_size name0 source_id auth0 ttl0 getenv0 getshell0
            storage_options parameters persist_mode l)
     = Ok c ->
  Str.endswith_char (url c) "/"%char = true
  /\ info_url c = urljoin (url c) "v1/info"
  /\ source_url c = urljoin (url c) "v1/source"
  /\ (storage_options = None -> ssl (http_args c) = None)
  /\ forall rest scheme,
       url0 = ("intake" ++ rest)%string ->
       scheme = (if match http_args0 with
                    | Some h => match ssl h with Some b => b | None => false end
                    | None => false
                    end
                 then "https" else "http") ->
       url c = (if Str.endswith_char (scheme ++ rest) "/"%char
                then scheme ++ rest else (scheme ++ rest) ++ "/")%string.
Proof.
  set (self := RemoteCatalog__init__attrs urljoin netloc BaseClientAuth url0
                 http_args0 page_size name0 source_id auth0 ttl0 getenv0
                 getshell0 storage_options parameters persist_mode).
  intros Hc.
  assert (Hsame : url c = url self /\ info_url c = info_url self
                  /\ source_url c = source_url self
                  /\ ssl (http_args c) = ssl (http_args self)).
  { destruct Hc as [->|Hc]; [auto|].
    rewrite init_eq in Hc. cbv zeta in Hc. cbn [fst] in Hc. fold self in Hc.
    destruct (fst (_load srv {| cat := self; log := l |})) eqn:Hload;
      try discriminate Hc.
    inversion Hc as [Hc']. clear Hc.
    destruct (load_keeps srv {| cat := self; log := l |})
      as (Hurl & Hinfo & Hsource & _).
    rewrite kept_after_load. cbn [cat] in *. auto. }
  destruct Hsame as (-> & -> & -> & ->). clear Hc.
  unfold self, RemoteCatalog__init__attrs.
  cbn [url info_url source_url http_args].
  split.
  { match goal with
    | |- Str.endswith_char
           (if Str.endswith_char ?u _ then _ else _) _ = true =>
        destruct (Str.endswith_char u "/"%char) eqn:E; [exact E|]
    end.
    apply endswith_char_snoc. }
  split; [reflexivity|]. split; [reflexivity|]. split.
  { intros ->. reflexivity. }
  intros rest scheme -> ->.
  assert (Hreplace : forall new,
            Str.replace_first "intake" new ("intake" ++ rest) = (new ++ rest)%string)
    by (intros new; destruct rest; reflexivity).
  rewrite !Hreplace.
  destruct http_args0 as [h|]; reflexivity.
Qed.

(** A secure connection to the five-entry server. *)
Lemma url_is_normalised_witness :
  exists c,
    fst (RemoteCatalog__init__ Fixture.urljoin Fixture.netloc
           Fixture.BaseClientAuth Fixture.paged "intake://localhost:5000"
           (Some {| ssl := Some true; headers := None; params := None;
                    kwargs := [] |})
           None None None None 1 true true None None "default" [])
    = Ok c
    /\ url c = "https://localhost:5000/"
    /\ info_url c = "https://localhost:5000/v1/info".
Proof.
  destruct (fst (RemoteCatalog__init__ Fixture.urljoin Fixture.netloc
                   Fixture.BaseClientAuth Fixture.paged
                   "intake://localhost:5000"
                   (Some {| ssl := Some true; headers := None;
                            params := None; kwargs := [] |})
                   None None None None 1 true true None None "default" []))
    as [c| |] eqn:Hrun;
    try (vm_compute in Hrun; discriminate Hrun).
  exists c. split; [reflexivity|].
  destruct (@url_is_normalised Fixture.paged Fixture.urljoin Fixture.netloc
              Fixture.BaseClientAuth "intake://localhost:5000"
              (Some {| ssl := Some true; headers := None; params := None;
                       kwargs := [] |})
              None None None None 1 true true None None "default" [] c
              (or_intror Hrun))
    as (_ & Hinfo & _ & _ & Hurl).
  rewrite Hinfo, (Hurl "://localhost:5000" "https" eq_refl eq_refl).
  split; reflexivity.
Defined.

(** X20.  The catalog [search] returns talks to the parent's URL, provided
    that URL ends with a slash (as every constructed one does) and does not
    contain the text [intake], which the constructor would replace again. *)
Theorem search_keeps_the_url (srv : Server)
    (urljoin : string -> string -> string) (netloc : string -> string)
    (BaseClientAuth : Auth) (args : list pyval) (kw : dict pyval)
    (w : World) (child : RemoteCatalog) :
  fst (search urljoin netloc BaseClientAuth srv args kw w) = Ok child ->
  Str.endswith_char (url (cat w)) "/"%char = true ->
  Str.contains "intake" (url (cat w)) = false ->
  url child = url (cat w)
  /\ info_url child = urljoin (url (cat w)) "v1/info"
  /\ source_url child = urljoin (url (cat w)) "v1/source".
Proof.
  rewrite search_eq. cbv zeta. cbn [fst].
  destruct (raise_for_status _); [discriminate|].
  destruct (content _) as [| |sid| |]; try discriminate.
  set (new := {| cat := scoped urljoin netloc BaseClientAuth
                          (touched (cat w) []) sid;
                 log := log w ++ [search_request (cat w) args kw] |}).
  destruct (fst (_load srv new)); try discriminate.
  intros Hchild Hslash Habsent. inversion Hchild as [Hc]. clear Hchild Hc.
  destruct (load_keeps srv new) as (-> & -> & -> & _).
  unfold new, scoped, RemoteCatalog__init__attrs, touched.
  cbn [cat url info_url source_url set_http_args].
  rewrite !replace_first_absent by exact Habsent. rewrite Hslash. auto.
Qed.

Lemma search_keeps_the_url_witness :
  exists child,
    fst (search Fixture.urljoin Fixture.netloc Fixture.BaseClientAuth
           Fixture.paged [] [] Fixture.loaded_world) = Ok child
    /\ url child = "http://localhost:5000/".
Proof.
  destruct (fst (search Fixture.urljoin Fixture.netloc Fixture.BaseClientAuth
                   Fixture.paged [] [] Fixture.loaded_world))
    as [child| |] eqn:Hrun;
    try (vm_compute in Hrun; discriminate Hrun).
  exists child. split; [reflexivity|].
  destruct (@search_keeps_the_url Fixture.paged Fixture.urljoin
              Fixture.netloc Fixture.BaseClientAuth [] [] Fixture.loaded_world
              child Hrun)
    as (Hurl & _); try (vm_compute; reflexivity).
  rewrite Hurl. vm_compute; reflexivity.
Defined.

(** A host whose name contains [intake]: the scoped catalog is given another
    address than its parent. *)
Lemma search_moves_an_intake_host :
  url (cat (Fixture.connect "intake://intake.example.org" None None))
  = "http://intake.example.org/"
  /\ option_map url
       (match fst (search Fixture.urljoin Fixture.netloc
                     Fixture.BaseClientAuth Fixture.paged [] []
                     (Fixture.run Fixture.paged [OpLoad]
                        (Fixture.connect "intake://intake.example.org" None
                           None)))
        with
        | Ok child => Some child
        | _ => None
        end)
     = Some "http://http.example.org/".
Proof. split; vm_compute; reflexivity. Qed.

(** What [_get_http_args] sends and keeps as headers. *)
Lemma sent_headers (c : RemoteCatalog) (ps : dict pyval) :
  headers (sent_http_args c ps)
  = Some (written_headers c (or_empty (headers (http_args c)))).
Proof.
  unfold sent_http_args, _get_http_args, written_headers.
  cbn [fst cat headers]. now destruct (_source_id c).
Qed.

Lemma kept_headers (c : RemoteCatalog) (ps : dict pyval) (h : dict string) :
  headers (http_args c) = Some h ->
  headers (kept_http_args c ps) = Some (written_headers c h).
Proof.
  intros Hh. unfold kept_http_args, _get_http_args, written_headers.
  cbn [snd cat http_args set_http_args headers]. rewrite Hh.
  cbn [or_empty]. now destruct (_source_id c).
Qed.

Lemma written_headers_auth (c : RemoteCatalog) (h : dict string)
    (k v : string) :
  dict_last k (get_headers (auth c)) = Some v ->
  k <> "source-id" ->
  dict_get k (written_headers c h) = Some v.
Proof.
  intros Hk Hne. unfold written_headers.
  assert (Hu : dict_get k (dict_update h (get_headers (auth c))) = Some v).
  { rewrite dict_get_update. unfold dict_last in Hk. now rewrite Hk. }
  destruct (_source_id c); [|exact Hu].
  now rewrite dict_get_set_other.
Qed.

Lemma written_headers_other (c : RemoteCatalog) (h : dict string)
    (k : string) :
  dict_last k (get_headers (auth c)) = None ->
  k <> "source-id" ->
  dict_get k (written_headers c h) = dict_get k h.
Proof.
  intros Hk Hne. unfold written_headers.
  assert (Hu : dict_get k (dict_update h (get_headers (auth c)))
               = dict_get k h).
  { rewrite dict_get_update. unfold dict_last in Hk. now rewrite Hk. }
  destruct (_source_id c); [|exact Hu].
  now rewrite dict_get_set_other.
Qed.

(** X21.  The new catalog starts from a copy of the parent's stored headers
    as the search request left them, and its own load writes the default
    provider's headers and the new scope id over them: a header the parent's
    auth provider wrote there is sent by every request of the new catalog,
    unless the new catalog's own provider or its scope id sets the same
    key. *)
Theorem search_copies_the_written_headers (srv : Server)
    (urljoin : string -> string -> string) (netloc : string -> string)
    (BaseClientAuth : Auth) (args : list pyval) (kw : dict pyval)
    (w : World) (child : RemoteCatalog) (h : dict string) :
  fst (search urljoin netloc BaseClientAuth srv args kw w) = Ok child ->
  headers (http_args (cat w)) = Some h ->
  headers (http_args child)
  = Some (written_headers child (written_headers (cat w) h))
  /\ (exists sid,
        _source_id child = Some sid
        /\ dict_get "source-id" (or_empty (headers (http_args child)))
           = Some sid)
  /\ forall k v ps,
       dict_last k (get_headers (auth (cat w))) = Some v ->
       k <> "source-id" ->
       dict_last k (get_headers BaseClientAuth) = None ->
       dict_get k (or_empty (headers (sent_http_args child ps))) = Some v.
Proof.
  rewrite search_eq. cbv zeta. cbn [fst].
  destruct (raise_for_status _); [discriminate|].
  destruct (content _) as [| |sid| |]; try discriminate.
  set (new := {| cat := scoped urljoin netloc BaseClientAuth
                          (touched (cat w) []) sid;
                 log := log w ++ [search_request (cat w) args kw] |}).
  destruct (fst (_load srv new)); try discriminate.
  intros Hchild Hh. inversion Hchild as [Hc]. clear Hchild.
  destruct (load_keeps srv new) as (_ & _ & _ & Hsid & Hauth & _).
  rewrite Hc in Hsid, Hauth.
  assert (Hcopied : headers (http_args (cat new))
                    = Some (written_headers (cat w) h)).
  { unfold new, scoped, RemoteCatalog__init__attrs, touched.
    cbn [cat http_args headers http_args_update empty_http_args
         set_http_args].
    now rewrite (kept_headers _ _ Hh). }
  assert (Hwritten : forall x,
             written_headers child x = written_headers (cat new) x).
  { intros x. unfold written_headers. now rewrite Hsid, Hauth. }
  assert (Hstored : headers (http_args child)
                    = Some (written_headers child
                              (written_headers (cat w) h))).
  { rewrite <- Hc, kept_after_load, (kept_headers _ _ Hcopied), Hc.
    now rewrite Hwritten. }
  assert (Hscope : _source_id child = Some sid)
    by (rewrite Hsid; reflexivity).
  assert (Hdefault : auth child = BaseClientAuth)
    by (rewrite Hauth; reflexivity).
  rewrite Hc.
  split; [exact Hstored|]. split.
  { exists sid. split; [exact Hscope|].
    rewrite Hstored. cbn [or_empty]. unfold written_headers at 1.
    rewrite Hscope. apply dict_get_set_same. }
  intros k v ps Hk Hne Hbase.
  assert (Hbase' : dict_last k (get_headers (auth child)) = None)
    by (now rewrite Hdefault).
  rewrite sent_headers, Hstored. cbn [or_empty].
  rewrite !written_headers_other by assumption.
  now apply written_headers_auth.
Qed.

Lemma search_copies_the_written_headers_witness :
  exists child,
    fst (search Fixture.urljoin Fixture.netloc Fixture.BaseClientAuth
           Fixture.paged [] [] Fixture.keyed_loaded) = Ok child
    /\ headers (http_args child)
       = Some [("authorization", "Bearer t0k3n"); ("source-id", "scope-1")]
    /\ dict_get "authorization"
         (or_empty (headers (req_args (load_request child))))
       = Some "Bearer t0k3n".
Proof.
  destruct (fst (search Fixture.urljoin Fixture.netloc Fixture.BaseClientAuth
                   Fixture.paged [] [] Fixture.keyed_loaded))
    as [child| |] eqn:Hrun;
    try (vm_compute in Hrun; discriminate Hrun).
  exists child. split; [reflexivity|].
  destruct (@search_copies_the_written_headers Fixture.paged Fixture.urljoin
              Fixture.netloc Fixture.BaseClientAuth [] [] Fixture.keyed_loaded
              child
              [("authorization", "Bearer t0k3n"); ("source-id", "scope-0")]
              Hrun ltac:(vm_compute; reflexivity))
    as (Hstored & (sid & Hsid & _) & Hsent).
  split.
  - assert (Hscope : option_map _source_id
                       (match fst (search Fixture.urljoin Fixture.netloc
                                     Fixture.BaseClientAuth Fixture.paged []
                                     [] Fixture.keyed_loaded) with
                        | Ok c => Some c
                        | _ => None
                        end)
                     = Some (Some "scope-1")) by (vm_compute; reflexivity).
    assert (Hauth : option_map auth
                      (match fst (search Fixture.urljoin Fixture.netloc
                                    Fixture.BaseClientAuth Fixture.paged []
                                    [] Fixture.keyed_loaded) with
                       | Ok c => Some c
                       | _ => None
                       end)
                    = Some Fixture.BaseClientAuth) by (vm_compute; reflexivity).
    rewrite Hrun in Hscope, Hauth. cbn [option_map] in Hscope, Hauth.
    inversion Hscope as [Hscope']. inversion Hauth as [Hauth'].
    rewrite Hstored. unfold written_headers at 1.
    rewrite Hscope', Hauth'. vm_compute. reflexivity.
  - apply Hsent;
      [vm_compute; reflexivity|discriminate|vm_compute; reflexivity].
Defined.

(** ** HTTP errors at the call sites *)

(** [repr] of a name made of printable ASCII characters other than the
    quotes and the backslash: the name between single quotes. *)
Lemma repr_char_plain (quote c : ascii) :
  Str.is_plain c = true ->
  quote = Str.squote \/ quote = Str.dquote ->
  Str.repr_char quote c = String c EmptyString.
Proof.
  destruct c as [[] [] [] [] [] [] [] []]; intros H;
    vm_compute in H; try discriminate H;
    intros [->| ->]; vm_compute; reflexivity.
Qed.

Lemma is_plain_not_squote (c : ascii) :
  Str.is_plain c = true -> Ascii.eqb Str.squote c = false.
Proof.
  destruct c as [[] [] [] [] [] [] [] []]; intros H;
    vm_compute in H; try discriminate H; vm_compute; reflexivity.
Qed.

Lemma concat_repr_plain (s : string) :
  forallb Str.is_plain (list_ascii_of_string s) = true ->
  String.concat "" (map (Str.repr_char Str.squote) (list_ascii_of_string s))
  = s.
Proof.
  induction s as [|a s IH]; intros Hplain; [reflexivity|].
  cbn [list_ascii_of_string forallb map] in *.
  apply andb_prop in Hplain. destruct Hplain as [Ha Hs].
  rewrite (repr_char_plain _ Ha (or_introl eq_refl)).
  specialize (IH Hs).
  destruct s as [|b s]; [reflexivity|].
  cbn [list_ascii_of_string map String.concat] in *.
  rewrite IH. reflexivity.
Qed.

Lemma repr_plain (s : string) :
  forallb Str.is_plain (list_ascii_of_string s) = true ->
  Str.repr s = String Str.squote (s ++ String Str.squote EmptyString).
Proof.
  intros Hplain. unfold Str.repr.
  assert (Hquote : Str.has_char Str.squote s = false).
  { clear - Hplain. unfold Str.has_char.
    induction s as [|a s IH]; [reflexivity|].
    cbn [list_ascii_of_string forallb existsb] in *.
    apply andb_prop in Hplain. destruct Hplain as [Ha Hs].
    now rewrite (is_plain_not_squote _ Ha), IH. }
  rewrite Hquote. cbn [andb].
  now rewrite concat_repr_plain.
Qed.

(** X22.  An HTTP error is re-raised as [RemoteCatalogError] with the
    operation's own message and the [HTTPError] as its cause: the page range
    for [fetch_page], the [repr] of the name for [fetch_by_name] (where a
    404 is a [KeyError] instead), a fixed text for [search].  Each has sent
    one request and none has touched the entries container.  The [repr] of
    a name without quotes, backslashes and unprintable characters is the
    name between single quotes. *)
Theorem http_errors_are_wrapped (srv : Server)
    (urljoin : string -> string -> string) (netloc : string -> string)
    (BaseClientAuth : Auth) (w : World) :
  (forall page_offset ps,
     _page_size (cat w) = Some ps ->
     is_http_error (srv (log w) (page_request (cat w) page_offset ps)) = true ->
     fst (fetch_page srv page_offset w)
     = Raise (RemoteCatalogError (page_error_msg page_offset ps)
                {| err_msg :=
                     http_error_msg
                       (srv (log w) (page_request (cat w) page_offset ps));
                   err_response :=
                     srv (log w) (page_request (cat w) page_offset ps) |})
     /\ _entries (cat (snd (fetch_page srv page_offset w))) = _entries (cat w)
     /\ log (snd (fetch_page srv page_offset w))
        = log w ++ [page_request (cat w) page_offset ps])
  /\ (forall n,
        is_http_error (srv (log w) (name_request (cat w) n)) = true ->
        fst (fetch_by_name srv n w)
        = (if status_code (srv (log w) (name_request (cat w) n)) =? 404
           then Raise (KeyError n)
           else Raise (RemoteCatalogError
                         ("Failed to fetch entry " ++ Str.repr n ++ ".")%string
                         {| err_msg :=
                              http_error_msg
                                (srv (log w) (name_request (cat w) n));
                            err_response :=
                              srv (log w) (name_request (cat w) n) |}))
        /\ _entries (cat (snd (fetch_by_name srv n w))) = _entries (cat w)
        /\ log (snd (fetch_by_name srv n w))
           = log w ++ [name_request (cat w) n])
  /\ (forall n,
        forallb Str.is_plain (list_ascii_of_string n) = true ->
        Str.repr n = String Str.squote (n ++ String Str.squote EmptyString))
  /\ (forall args kw,
        is_http_error (srv (log w) (search_request (cat w) args kw)) = true ->
        fst (search urljoin netloc BaseClientAuth srv args kw w)
        = Raise (RemoteCatalogError "Failed search query."
                   {| err_msg :=
                        http_error_msg
                          (srv (log w) (search_request (cat w) args kw));
                      err_response :=
                        srv (log w) (search_request (cat w) args kw) |})
        /\ _entries (cat (snd (search urljoin netloc BaseClientAuth srv
                                 args kw w)))
           = _entries (cat w)
        /\ log (snd (search urljoin netloc BaseClientAuth srv args kw w))
           = log w ++ [search_request (cat w) args kw]).
Proof.
  split; [|split; [|split]].
  - intros page_offset ps Hps Herr.
    rewrite (fetch_page_eq srv _ _ Hps). cbv zeta.
    rewrite (raise_for_status_error _ Herr). cbn [fst snd]. simp_state. auto.
  - intros n Herr. rewrite fetch_by_name_eq. cbv zeta.
    rewrite (raise_for_status_error _ Herr). cbn [fst snd]. simp_state.
    unfold entry_error_msg. auto.
  - exact repr_plain.
  - intros args kw Herr. rewrite search_eq. cbv zeta.
    rewrite (raise_for_status_error _ Herr). cbn [fst snd]. simp_state. auto.
Qed.

(** A failed lookup of a name that holds a single quote: its [repr] is
    between double quotes. *)
Lemma http_errors_are_wrapped_witness :
  exists err,
    fst (fetch_by_name Fixture.broken "it's" Fixture.drained_world)
    = Raise (RemoteCatalogError
               ("Failed to fetch entry "
                ++ String Str.dquote ("it's" ++ String Str.dquote "."))
               err)
    /\ err_msg err
       = "500 Server Error: Internal Server Error for url: http://localhost:5000/v1/source".
Proof.
  destruct (proj1 (proj2 (@http_errors_are_wrapped Fixture.broken
                            Fixture.urljoin Fixture.netloc
                            Fixture.BaseClientAuth Fixture.drained_world))
              "it's" eq_refl) as (Hraise & _).
  eexists. split; [exact Hraise|]. reflexivity.
Defined.

(** ** Repeating a request *)

Lemma dict_keys_set_In (V : Type) (d : dict V) (k k' : string) (v : V) :
  In k (dict_keys (dict_set k' v d)) <-> k = k' \/ In k (dict_keys d).
Proof.
  rewrite dict_keys_set.
  destruct (existsb (String.eqb k') (dict_keys d)) eqn:E.
  - apply existsb_eqb_In in E. split; [tauto|].
    intros [->|H]; auto.
  - rewrite in_app_iff. simpl. intuition.
Qed.

Lemma dict_get_set (V : Type) (d : dict V) (k k' : string) (v : V) :
  dict_get k (dict_set k' v d)
  = if String.eqb k k' then Some v else dict_get k d.
Proof.
  destruct (String.eqb k k') eqn:E.
  - apply String.eqb_eq in E. subst. apply dict_get_set_same.
  - apply dict_get_set_other. intros ->. now rewrite String.eqb_refl in E.
Qed.

(** Writing the auth headers and the scope id a second time changes
    nothing. *)
Lemma written_headers_idem (V : Type) (h a : dict V) (k : string) (v : V) :
  NoDup (dict_keys h) ->
  dict_set k v (dict_update (dict_set k v (dict_update h a)) a)
  = dict_set k v (dict_update h a).
Proof.
  intros Hnd.
  assert (Hnd' : NoDup (dict_keys (dict_set k v (dict_update h a)))).
  { now apply dict_set_NoDup, dict_update_NoDup. }
  apply dict_ext.
  - now apply dict_set_NoDup, dict_update_NoDup.
  - rewrite dict_keys_set.
    assert (Hin : existsb (String.eqb k)
                    (dict_keys (dict_update (dict_set k v (dict_update h a)) a))
                  = true).
    { apply existsb_eqb_In. rewrite dict_keys_update. apply key_merge_In.
      left. apply dict_keys_set_In. now left. }
    rewrite Hin, dict_keys_update. apply key_merge_absorb.
    intros x Hx. apply dict_keys_set_In. right.
    rewrite dict_keys_update. apply key_merge_In. now right.
  - intros x. rewrite (dict_get_set _ x k), (dict_get_set (dict_update h a)).
    destruct (String.eqb x k) eqn:E; [reflexivity|].
    rewrite (dict_get_update (dict_set k v (dict_update h a))).
    destruct (dict_get x (rev a)) eqn:Ha.
    + now rewrite dict_get_update, Ha.
    + now rewrite dict_get_set, E.
Qed.

Lemma kept_http_args_eq (c : RemoteCatalog) (ps : dict pyval) :
  kept_http_args c ps
  = {| ssl := ssl (http_args c);
       headers := option_map (written_headers c) (headers (http_args c));
       params := option_map (fun p => dict_update p ps)
                   (params (http_args c));
       kwargs := kwargs (http_args c) |}.
Proof.
  unfold kept_http_args, _get_http_args, written_headers.
  cbn [snd cat http_args set_http_args].
  destruct (headers (http_args c)), (params (http_args c)),
    (_source_id c); reflexivity.
Qed.

Lemma sent_http_args_eq (c : RemoteCatalog) (ps : dict pyval) :
  sent_http_args c ps
  = {| ssl := ssl (http_args c);
       headers := Some (written_headers c
                          (or_empty (headers (http_args c))));
       params := Some (dict_update (or_empty (params (http_args c))) ps);
       kwargs := kwargs (http_args c) |}.
Proof.
  unfold sent_http_args, _get_http_args, written_headers. cbn [fst cat].
  destruct (_source_id c); reflexivity.
Qed.

(** X23.  Building the arguments of a request a second time with the same
    parameters sends the same arguments and leaves the stored [http_args] as
    the first call left them, when the stored headers and params hold each
    key once. *)
Theorem rebuilding_arguments_changes_nothing (c : RemoteCatalog)
    (ps : dict pyval) (hs : dict string) :
  headers (http_args c) = Some hs ->
  NoDup (dict_keys hs) ->
  (forall pp, params (http_args c) = Some pp -> NoDup (dict_keys pp)) ->
  kept_http_args (touched c ps) ps = kept_http_args c ps
  /\ sent_http_args (touched c ps) ps = sent_http_args c ps.
Proof.
  intros Hh Hnd Hndp.
  assert (Hheaders :
            written_headers c (written_headers c hs) = written_headers c hs).
  { unfold written_headers. destruct (_source_id c).
    - now apply written_headers_idem.
    - now apply dict_update_idem. }
  assert (Hsame : forall x,
            written_headers (touched c ps) x = written_headers c x)
    by reflexivity.
  rewrite (kept_http_args_eq (touched c ps)), (sent_http_args_eq (touched c ps)).
  rewrite !Hsame.
  assert (Hstored : http_args (touched c ps) = kept_http_args c ps)
    by reflexivity.
  rewrite Hstored, (sent_http_args_eq c), (kept_http_args_eq c), Hh.
  destruct (params (http_args c)) as [pp|] eqn:Hp;
    cbn [ssl headers params kwargs option_map or_empty];
    rewrite ?Hsame, ?Hheaders.
  - rewrite dict_update_idem by exact (Hndp pp eq_refl). split; reflexivity.
  - split; reflexivity.
Qed.

Lemma rebuilding_arguments_changes_nothing_witness :
  kept_http_args
    (touched (cat Fixture.keyed_world) [("name", PStr "z")])
    [("name", PStr "z")]
  = kept_http_args (cat Fixture.keyed_world) [("name", PStr "z")]
  /\ sent_http_args
       (touched (cat Fixture.keyed_world) [("name", PStr "z")])
       [("name", PStr "z")]
     = sent_http_args (cat Fixture.keyed_world) [("name", PStr "z")].
Proof.
  apply (@rebuilding_arguments_changes_nothing (cat Fixture.keyed_world)
           [("name", PStr "z")] []).
  - vm_compute; reflexivity.
  - constructor.
  - intros pp Hp. vm_compute in Hp. inversion Hp.
    repeat constructor; simpl; intuition discriminate.
Defined.

(** ** Lookups after paging *)

(** X24.  A name that either tier holds is looked up without a request,
    whatever the server would answer: the state, log included, does not
    change, and the entry is the direct tier's copy when it has one and the
    page tier's otherwise. *)
Theorem cached_names_need_no_request (srv : Server) (key : string)
    (w : World) :
  In key (dict_keys (page_tier w)) \/ In key (dict_keys (direct_tier w)) ->
  exists e,
    Entries__getitem__ srv key w = (Ok e, w)
    /\ (dict_get key (direct_tier w) = Some e
        \/ (dict_get key (direct_tier w) = None
            /\ dict_get key (page_tier w) = Some e)).
Proof.
  intros Hin.
  destruct (dict_get key (direct_tier w)) as [e|] eqn:Hd.
  - exists e. split; [now apply getitem_direct_hit|now left].
  - destruct Hin as [Hin|Hin].
    + destruct (dict_keys_In_get _ _ Hin) as [e He].
      exists e. split; [now apply getitem_page_hit|right; auto].
    + destruct (dict_keys_In_get _ _ Hin) as [e He]. congruence.
Qed.

Lemma cached_names_need_no_request_witness :
  exists e,
    Entries__getitem__ Fixture.broken "d" Fixture.drained_world
    = (Ok e, Fixture.drained_world).
Proof.
  destruct (@cached_names_need_no_request Fixture.broken "d"
              Fixture.drained_world) as (e & Hrun & _).
  - left. vm_compute. auto 10.
  - exists e. exact Hrun.
Defined.

(** ** Instances of the statements above that carry their conditions inside *)

Lemma lookup_keeps_page_state_witness :
  page_tier (snd (Entries__getitem__ Fixture.paged "c" Fixture.drained_world))
  = page_tier Fixture.drained_world
  /\ dict_get "a"
       (direct_tier
          (snd (Entries__getitem__ Fixture.renamed "zz" Fixture.stale_world)))
     = dict_get "a" (direct_tier Fixture.stale_world).
Proof.
  split.
  - exact (proj1 (@lookup_keeps_page_state Fixture.paged "c"
                    Fixture.drained_world)).
  - apply (proj2 (proj2 (proj2 (proj2
             (@lookup_keeps_page_state Fixture.renamed "zz"
                Fixture.stale_world))))).
    discriminate.
Defined.

Lemma iteration_keeps_order_witness :
  exists fetched,
    ["a"; "b"; "c"; "d"; "e"]
    = dict_keys (page_tier Fixture.loaded_world) ++ fetched.
Proof.
  apply (proj2 (proj2 (proj2 (proj2
           (@iteration_keeps_order Fixture.paged 10 Fixture.loaded_world))))).
  vm_compute; reflexivity.
Defined.

Lemma defaults_fill_only_what_is_missing_witness :
  dict_get "month"
    (fill_defaults Fixture.expand_defaults Fixture.coerce
       (RemoteCatalogEntry__init__ "http://localhost:5000/"
          Fixture.BaseClientAuth None "default" true true
          {| src_name := "a"; src_container := None; src_description := None;
             src_metadata := None;
             src_user_parameters :=
               Some [{| par_name := "month"; par_default := PInt 1;
                        par_type := "int" |}];
             src_direct_access := None; src_kwargs := [] |})
       [("month", PInt 7)])
  = Some (PInt 7).
Proof.
  apply (proj1 (@defaults_fill_only_what_is_missing Fixture.expand_defaults
                  Fixture.coerce _ [("month", PInt 7)])).
  reflexivity.
Defined.
